(** * NEA client scripts: form wizards, subject dropdowns, date-of-birth check

    A shallow embedding of the browser scripts under [static/]:

    - the three multi-step form wizards ([showTab], [nextPrev],
      [validateForm], [fixStepIndicator]): the student registration wizard
      and the older [regForm] wizard of [add_student.js], and the teacher
      registration wizard of [flag_student.js];
    - [updateSubjectOptions] of [subject_validation.js];
    - [validateDateOfBirth] of [date_validation.js];
    - [flagStudent] of [flag_student.js];
    - the attendance register of [add_student.js]: the status buttons,
      [markAllPresent], [saveAllAttendance] and the counters.

    The DOM is modelled as an explicit store that the functions thread
    through: elements are identified by their position in the document, so
    an element reached along two paths (a radio button found through its
    tab and through its group selector) is one and the same cell. *)

From Stdlib Require Import String Ascii List ZArith Lia Bool.
From stdpp Require Import base list strings gmap.
Import ListNotations.
Local Open Scope string_scope.

(** ** Class attributes

    The [class] attribute is a string.  [className] reads and writes the
    string itself; [classList] views it as an ordered set of tokens,
    split on ASCII whitespace, and writes the set back joined by single
    spaces. *)
Module ClassAttr.

Definition is_ascii_whitespace (c : ascii) : bool :=
  match c with
  | "009" | "010" | "012" | "013" | " " => true
  | _ => false
  end%char.

Fixpoint all_chars (p : ascii -> bool) (s : string) : bool :=
  match s with
  | "" => true
  | String c s' => p c && all_chars p s'
  end.

(** The fields between whitespace characters, empty fields included. *)
Fixpoint fields (s : string) : list string :=
  match s with
  | "" => [""]
  | String c s' =>
      if is_ascii_whitespace c then "" :: fields s'
      else match fields s' with
           | f :: r => String c f :: r
           | [] => [String c ""]
           end
  end.

Definition nonempty (s : string) : bool := negb (s =? "").

Definition split_on_whitespace (s : string) : list string :=
  List.filter nonempty (fields s).

Definition differs (t u : string) : bool := negb (u =? t).

(** Keeps the first occurrence of every token, in order. *)
Fixpoint ordered_set (l : list string) : list string :=
  match l with
  | [] => []
  | t :: r => t :: List.filter (differs t) (ordered_set r)
  end.

Definition tokens (s : string) : list string :=
  ordered_set (split_on_whitespace s).

Fixpoint serialize (l : list string) : string :=
  match l with
  | [] => ""
  | [t] => t
  | t :: r => t ++ " " ++ serialize r
  end.

(** [el.classList.contains(t)], also what the selector [.t] tests. *)
Definition contains (s t : string) : bool :=
  existsb (String.eqb t) (tokens s).

(** [el.classList.add(t)] *)
Definition classList_add (t s : string) : string :=
  let l := tokens s in
  serialize (if existsb (String.eqb t) l then l else l ++ [t]).

(** [el.classList.remove(t)] *)
Definition classList_remove (t s : string) : string :=
  serialize (List.filter (differs t) (tokens s)).

Fixpoint drop (n : nat) (s : string) : string :=
  match n, s with
  | O, _ => s
  | S n', String _ s' => drop n' s'
  | S _, "" => ""
  end.

(** [s.replace(pat, '')] with a string pattern: only the first
    occurrence is removed. *)
Fixpoint replace_first (pat s : string) : string :=
  if String.prefix pat s then drop (String.length pat) s
  else match s with
       | "" => ""
       | String c s' => String c (replace_first pat s')
       end.

Fixpoint occurs (pat s : string) : bool :=
  String.prefix pat s ||
  match s with
  | "" => false
  | String _ s' => occurs pat s'
  end.

(** A token that [classList] accepts: not empty, no whitespace. *)
Definition token_ok (t : string) : bool :=
  nonempty t && all_chars (fun c => negb (is_ascii_whitespace c)) t.

End ClassAttr.

(** ** JavaScript string helpers

    Text is UTF-8: a string of this development stands for the
    JavaScript string whose UTF-8 encoding it is. *)
Module Js.

(** One code point in UTF-8. *)
Definition utf8 (cp : N) : string :=
  let byte n := String (ascii_of_N n) "" in
  let low k := byte (128 + N.land (N.shiftr cp k) 63)%N in
  if (cp <? 0x80)%N then byte cp
  else if (cp <? 0x800)%N then byte (192 + N.shiftr cp 6)%N ++ low 0%N
  else if (cp <? 0x10000)%N then byte (224 + N.shiftr cp 12)%N ++ low 6%N ++ low 0%N
  else byte (240 + N.shiftr cp 18)%N ++ low 12%N ++ low 6%N ++ low 0%N.

(** [WhiteSpace] and [LineTerminator] of ECMAScript, the characters
    that [String.prototype.trim] strips and that [parseInt] skips: TAB,
    LF, VT, FF, CR, SPACE, NO-BREAK SPACE, the other space separators
    of Unicode (U+1680, U+2000 to U+200A, U+202F, U+205F, U+3000), LINE
    and PARAGRAPH SEPARATOR, and U+FEFF. *)
Definition white_space : list N :=
  [ 0x09; 0x0A; 0x0B; 0x0C; 0x0D; 0x20; 0xA0; 0x1680;
    0x2000; 0x2001; 0x2002; 0x2003; 0x2004; 0x2005; 0x2006; 0x2007;
    0x2008; 0x2009; 0x200A; 0x2028; 0x2029; 0x202F; 0x205F; 0x3000;
    0xFEFF ]%N.

(** The rest of [s] behind [p], when [s] starts with [p]. *)
Definition behind (p s : string) : option string :=
  if String.prefix p s then Some (ClassAttr.drop (String.length p) s) else None.

(** The rest of [s] behind one white-space character at its head. *)
Definition skip_white_space (s : string) : option string :=
  fold_right (fun cp found =>
                match behind (utf8 cp) s with
                | Some r => Some r
                | None => found
                end) None white_space.

(** At most [n] leading white-space characters are taken off. *)
Fixpoint skip_white_spaces (n : nat) (s : string) : string :=
  match n with
  | O => s
  | S n' =>
      match skip_white_space s with
      | Some r => skip_white_spaces n' r
      | None => s
      end
  end.

(** No string holds more characters than bytes. *)
Definition trimStart (s : string) : string := skip_white_spaces (String.length s) s.

(** The string is cut where what is left of it is white space only. *)
Fixpoint trimEnd (s : string) : string :=
  match s with
  | "" => ""
  | String c s' => if trimStart s =? "" then "" else String c (trimEnd s')
  end.

Definition trim (s : string) : string := trimEnd (trimStart s).

(** [xs[z]] for a number [z] that holds an integer: [undefined] below
    zero and past the end. *)
Definition index {A} (xs : list A) (z : Z) : option A :=
  if (z <? 0)%Z then None else xs !! Z.to_nat z.

End Js.

(** ** The document and the wizard state *)
Module Dom.

(** The three element kinds that [validateForm] scans. [KInput t] is an
    [input] element whose [type] property reads [t]. *)
Inductive Kind :=
| KInput (type : string)
| KSelect
| KTextarea.

Definition type_of (k : Kind) : string :=
  match k with
  | KInput t => t
  | KSelect => "select-one"
  | KTextarea => "textarea"
  end.

Definition is_input_tag (k : Kind) : bool :=
  match k with KInput _ => true | _ => false end.

Record Field := {
  kind : Kind;
  nameAttr : option string;   (* the [name] attribute, when present *)
  required : bool;            (* [hasAttribute('required')] *)
  value : string;             (* the [value] property *)
  checked : bool;
  className : string;
  tabOf : option nat          (* index of the [.tab] element that holds it *)
}.

Definition set_className (f : Field) (c : string) : Field :=
  {| kind := kind f; nameAttr := nameAttr f; required := required f;
     value := value f; checked := checked f; className := c;
     tabOf := tabOf f |}.

Definition map_className (g : string -> string) (f : Field) : Field :=
  set_className f (g (className f)).

(** The [name] property: the attribute, or the empty string. *)
Definition name (f : Field) : string :=
  match nameAttr f with Some n => n | None => "" end.

(** A name that reads as itself between the double quotes of a CSS
    string: it holds no double quote, no backslash, no line break (LF,
    FF, CR) and no NUL.  A double quote would end the string early, a
    backslash starts an escape, a line break makes the selector invalid
    and NUL is replaced before the selector is read. *)
Definition css_plain (n : string) : bool :=
  ClassAttr.all_chars
    (fun c => negb (existsb (N.eqb (N_of_ascii c)) [0; 10; 12; 13; 34; 92]%N)) n.

(** The selector ['input[name="' + n + '"]'] for a [css_plain] name
    [n]: the [input] elements whose [name] attribute is [n].  For any
    other name the string that the script builds is another selector, or
    none; what it selects then is not described here, and the statements
    that rest on the lookup take the names that are looked up to be
    [css_plain]. *)
Definition matches_input_name (n : string) (f : Field) : bool :=
  is_input_tag (kind f) &&
  match nameAttr f with Some m => m =? n | None => false end.

Definition in_tab (c : Z) (f : Field) : bool :=
  match tabOf f with Some t => (Z.of_nat t =? c)%Z | None => false end.

Record Document := {
  tabs : list string;        (* [style.display] of each [.tab], in order *)
  inputs : list Field;       (* every input, select, textarea, in order *)
  steps : list string;       (* [className] of each [.step], in order *)
  prevBtn : option string;   (* [style.display] of [#prevBtn], if present *)
  nextBtn : option string;   (* text of [#nextBtn], if present *)
  form : bool                (* does the form lookup find a form? *)
}.

Inductive Event :=
| ShowTab (n : Z)            (* a call [showTab(n)] *)
| Submit                     (* [form.submit()] *)
| Focus (i : nat).           (* [inputs[i].focus()] *)

Record State := {
  doc : Document;
  currentTab : Z;
  log : list Event
}.

Definition set_tabs (t : list string) (s : State) : State :=
  {| doc := {| tabs := t; inputs := inputs (doc s); steps := steps (doc s);
               prevBtn := prevBtn (doc s); nextBtn := nextBtn (doc s);
               form := form (doc s) |};
     currentTab := currentTab s; log := log s |}.

Definition set_inputs (i : list Field) (s : State) : State :=
  {| doc := {| tabs := tabs (doc s); inputs := i; steps := steps (doc s);
               prevBtn := prevBtn (doc s); nextBtn := nextBtn (doc s);
               form := form (doc s) |};
     currentTab := currentTab s; log := log s |}.

Definition set_steps (x : list string) (s : State) : State :=
  {| doc := {| tabs := tabs (doc s); inputs := inputs (doc s); steps := x;
               prevBtn := prevBtn (doc s); nextBtn := nextBtn (doc s);
               form := form (doc s) |};
     currentTab := currentTab s; log := log s |}.

Definition set_prevBtn (b : option string) (s : State) : State :=
  {| doc := {| tabs := tabs (doc s); inputs := inputs (doc s);
               steps := steps (doc s); prevBtn := b;
               nextBtn := nextBtn (doc s); form := form (doc s) |};
     currentTab := currentTab s; log := log s |}.

Definition set_nextBtn (b : option string) (s : State) : State :=
  {| doc := {| tabs := tabs (doc s); inputs := inputs (doc s);
               steps := steps (doc s); prevBtn := prevBtn (doc s);
               nextBtn := b; form := form (doc s) |};
     currentTab := currentTab s; log := log s |}.

Definition set_currentTab (c : Z) (s : State) : State :=
  {| doc := doc s; currentTab := c; log := log s |}.

Definition emit (e : Event) (s : State) : State :=
  {| doc := doc s; currentTab := currentTab s; log := log s ++ [e] |}.

(** A call either returns a value or throws (a [TypeError] on reading a
    property of [undefined] or [null]); the store is kept in both cases,
    since writes made before the throw stay. *)
Inductive Outcome (A : Type) :=
| Return (v : A) (s : State)
| Throw (s : State).
Arguments Return {A} v s.
Arguments Throw {A} s.

Definition final {A} (o : Outcome A) : State :=
  match o with Return _ s => s | Throw s => s end.

Definition M (A : Type) : Type := State -> Outcome A.

#[global] Instance M_ret : MRet M := fun A v s => Return v s.
#[global] Instance M_bind : MBind M := fun A B k c s =>
  match c s with
  | Return v s' => k v s'
  | Throw s' => Throw s'
  end.

Definition get : M State := fun s => Return s s.
Definition modify (g : State -> State) : M unit := fun s => Return tt (g s).
Definition throw {A} : M A := fun s => Throw s.

(** Positions of the elements of [l] that satisfy [p], counted from [k]. *)
Fixpoint indices_from (p : Field -> bool) (k : nat) (l : list Field) : list nat :=
  match l with
  | [] => []
  | f :: r => if p f then k :: indices_from p (S k) r
              else indices_from p (S k) r
  end.

(** [tab.querySelectorAll('input, select, textarea')] for tab [c]. *)
Definition tab_fields (c : Z) (l : list Field) : list nat :=
  indices_from (in_tab c) 0 l.

(** [tab.getElementsByTagName('input')] for tab [c]. *)
Definition tab_inputs (c : Z) (l : list Field) : list nat :=
  indices_from (fun f => in_tab c f && is_input_tag (kind f)) 0 l.

Definition is_invalid (f : Field) : bool :=
  ClassAttr.contains (className f) "invalid".

(** The loop of the student and of the [regForm] wizard over
    [x = document.getElementsByClassName('step')],

      [for (i = 0; i < x.length; i++)]
        [x[i].className = x[i].className.replace(' active', '')],

    on the classes of the elements of [x].  The collection is live: an
    element whose class held the token [step] and has lost it by the
    replacement ([step active-x] becomes [step-x]) is out of [x] at
    once; the elements behind it move up by one place, so that [i++]
    passes over the next of them, and the element is not seen again.
    An entry of [steps] is the class of an element of the collection and
    so holds the token [step]; an entry that does not is left in its
    place. *)
Fixpoint unset_active (x : list string) : list string :=
  match x with
  | [] => []
  | c :: r =>
      let c' := ClassAttr.replace_first " active" c in
      if ClassAttr.contains c "step" && negb (ClassAttr.contains c' "step")
      then match r with
           | [] => []
           | d :: r' => d :: unset_active r'
           end
      else c' :: unset_active r
  end.

(** [tab.querySelector('.invalid')]: the first field of the tab that
    carries the class (the fields are the only elements of a tab that the
    scripts ever mark). *)
Definition first_invalid (idxs : list nat) (l : list Field) : option nat :=
  List.find (fun i => match l !! i with Some f => is_invalid f | None => false end) idxs.

End Dom.

(** ** The parts the student and the teacher wizard share

    [showTab] and [nextPrev] read the same in [add_student.js] and
    [flag_student.js]; the two files differ in [validateForm], in
    [fixStepIndicator] and in the id of the form they look up first. *)
Module Wizard.
Import Dom.

Section Shared.
Variable validateForm : M bool.
Variable fixStepIndicator : Z -> M unit.

Definition showTab (n : Z) : M unit :=
  modify (emit (ShowTab n));;
  s ← get;
  if (length (tabs (doc s)) =? 0)%nat then mret tt else
  modify (fun s => set_tabs ((fun _ => "none") <$> tabs (doc s)) s);;
  match Js.index (tabs (doc s)) n with
  | None => throw
  | Some _ =>
      modify (fun s => set_tabs (<[Z.to_nat n := "block"]> (tabs (doc s))) s);;
      modify (fun s => set_prevBtn
        ((fun _ => if (n =? 0)%Z then "none" else "inline") <$> prevBtn (doc s)) s);;
      modify (fun s => set_nextBtn
        ((fun _ => if (n =? Z.of_nat (length (tabs (doc s))) - 1)%Z
                   then "Submit" else "Next") <$> nextBtn (doc s)) s);;
      fixStepIndicator n
  end.

Definition nextPrev (n : Z) : M (option bool) :=
  blocked ← (if (n =? 1)%Z then v ← validateForm; mret (negb v) else mret false);
  if (blocked : bool) then mret (Some false) else
  s ← get;
  match Js.index (tabs (doc s)) (currentTab s) with
  | Some _ => modify (set_tabs (<[Z.to_nat (currentTab s) := "none"]> (tabs (doc s))))
  | None => mret tt
  end;;
  modify (fun s => set_currentTab (currentTab s + n) s);;
  s ← get;
  if (Z.of_nat (length (tabs (doc s))) <=? currentTab s)%Z then
    (if form (doc s) then modify (emit Submit) else mret tt);;
    mret (Some false)
  else
    showTab (currentTab s);;
    mret None.

End Shared.

Definition add_invalid : Field -> Field :=
  map_className (ClassAttr.classList_add "invalid").
Definition remove_invalid : Field -> Field :=
  map_className (ClassAttr.classList_remove "invalid").

End Wizard.

(** ** The student wizard (first script of [add_student.js]) *)
Module Student.
Import Dom Wizard.

(** One round of the loop over the inputs of the tab. *)
Definition check_field (acc : list Field * bool) (i : nat) : list Field * bool :=
  let '(l0, valid) := acc in
  let l := alter remove_invalid i l0 in
  match l !! i with
  | None => (l, valid)
  | Some input =>
      if required input then
        if type_of (kind input) =? "radio" then
          let group := matches_input_name (name input) in
          let anyChecked := existsb checked (List.filter group l) in
          if negb anyChecked
          then ((fun r => if group r then add_invalid r else r) <$> l, false)
          else (l, valid)
        else if (value input =? "") || (Js.trim (value input) =? "")
        then (alter add_invalid i l, false)
        else (l, valid)
      else (l, valid)
  end.

Definition validateForm : M bool := fun s =>
  match Js.index (tabs (doc s)) (currentTab s) with
  | None => Return true s
  | Some _ =>
      let idxs := tab_fields (currentTab s) (inputs (doc s)) in
      let '(l, valid) := fold_left check_field idxs (inputs (doc s), true) in
      let s1 := set_inputs l s in
      Return valid
        match first_invalid idxs l with
        | Some i => emit (Focus i) s1
        | None => s1
        end
  end.

Definition fixStepIndicator (n : Z) : M unit := fun s =>
  let x := unset_active (steps (doc s)) in
  Return tt
    (set_steps
       match Js.index x n with
       | Some _ => alter (fun c => c ++ " active") (Z.to_nat n) x
       | None => x
       end s).

Definition showTab : Z -> M unit := Wizard.showTab fixStepIndicator.
Definition nextPrev : Z -> M (option bool) :=
  Wizard.nextPrev validateForm fixStepIndicator.

End Student.

(** ** The teacher wizard (second script of [flag_student.js]) *)
Module Teacher.
Import Dom Wizard.

Definition check_field (acc : list Field * bool) (i : nat) : list Field * bool :=
  let '(l0, valid) := acc in
  let l := alter remove_invalid i l0 in
  match l !! i with
  | None => (l, valid)
  | Some input =>
      if required input && (value input =? "")
      then (alter add_invalid i l, false)
      else (l, valid)
  end.

Definition validateForm : M bool := fun s =>
  match Js.index (tabs (doc s)) (currentTab s) with
  | None => Return true s
  | Some _ =>
      let idxs := tab_fields (currentTab s) (inputs (doc s)) in
      let '(l, valid) := fold_left check_field idxs (inputs (doc s), true) in
      let s1 := set_inputs l s in
      Return valid
        (if valid then
           match Js.index (steps (doc s1)) (currentTab s1) with
           | Some _ => set_steps (alter (ClassAttr.classList_add "finish")
                                    (Z.to_nat (currentTab s1)) (steps (doc s1))) s1
           | None => s1
           end
         else s1)
  end.

Definition fixStepIndicator (n : Z) : M unit := fun s =>
  let x := ClassAttr.classList_remove "active" <$> steps (doc s) in
  Return tt
    (set_steps
       match Js.index x n with
       | Some _ => alter (ClassAttr.classList_add "active") (Z.to_nat n) x
       | None => x
       end s).

Definition showTab : Z -> M unit := Wizard.showTab fixStepIndicator.
Definition nextPrev : Z -> M (option bool) :=
  Wizard.nextPrev validateForm fixStepIndicator.

End Teacher.

(** ** The [regForm] wizard (second script of [add_student.js])

    Nothing is guarded here: a missing tab, button, step or form makes
    the call throw. *)
Module RegForm.
Import Dom.

Definition fixStepIndicator (n : Z) : M unit := fun s =>
  let x := unset_active (steps (doc s)) in
  match Js.index x n with
  | Some _ => Return tt (set_steps (alter (fun c => c ++ " active") (Z.to_nat n) x) s)
  | None => Throw (set_steps x s)
  end.

Definition showTab (n : Z) : M unit :=
  modify (emit (ShowTab n));;
  s ← get;
  match Js.index (tabs (doc s)) n with
  | None => throw
  | Some _ =>
      modify (set_tabs (<[Z.to_nat n := "block"]> (tabs (doc s))));;
      match prevBtn (doc s) with
      | None => throw
      | Some _ =>
          modify (set_prevBtn (Some (if (n =? 0)%Z then "none" else "inline")));;
          match nextBtn (doc s) with
          | None => throw
          | Some _ =>
              modify (set_nextBtn
                (Some (if (n =? Z.of_nat (length (tabs (doc s))) - 1)%Z
                       then "Submit" else "Next")));;
              fixStepIndicator n
          end
      end
  end.

Definition check_input (acc : list Field * bool) (i : nat) : list Field * bool :=
  let '(l, valid) := acc in
  match l !! i with
  | None => (l, valid)
  | Some y_i =>
      if value y_i =? ""
      then (alter (map_className (fun c => c ++ " invalid")) i l, false)
      else (l, valid)
  end.

Definition validateForm : M bool := fun s =>
  match Js.index (tabs (doc s)) (currentTab s) with
  | None => Throw s
  | Some _ =>
      let y := tab_inputs (currentTab s) (inputs (doc s)) in
      let '(l, valid) := fold_left check_input y (inputs (doc s), true) in
      let s1 := set_inputs l s in
      if valid then
        match Js.index (steps (doc s1)) (currentTab s1) with
        | Some _ => Return valid
                      (set_steps (alter (fun c => c ++ " finish")
                                    (Z.to_nat (currentTab s1)) (steps (doc s1))) s1)
        | None => Throw s1
        end
      else Return valid s1
  end.

Definition nextPrev (n : Z) : M (option bool) :=
  blocked ← (if (n =? 1)%Z then v ← validateForm; mret (negb v) else mret false);
  if (blocked : bool) then mret (Some false) else
  s ← get;
  match Js.index (tabs (doc s)) (currentTab s) with
  | None => throw
  | Some _ =>
      modify (set_tabs (<[Z.to_nat (currentTab s) := "none"]> (tabs (doc s))));;
      modify (fun s => set_currentTab (currentTab s + n) s);;
      s ← get;
      if (Z.of_nat (length (tabs (doc s))) <=? currentTab s)%Z then
        if form (doc s) then modify (emit Submit);; mret (Some false)
        else throw
      else
        showTab (currentTab s);;
        mret None
  end.

End RegForm.

(** ** Subject dropdowns ([subject_validation.js]) *)
Module Subjects.

Record OptionEl := {
  ovalue : string;
  selected : bool;
  disabled : bool
}.

Record Select := { options : list OptionEl }.

(** [select.value]: the value of the first selected option, or the empty
    string. *)
Definition select_value (sel : Select) : string :=
  match List.find selected (options sel) with
  | Some o => ovalue o
  | None => ""
  end.

(** The first [forEach]: the set of subjects chosen in some dropdown.
    An entry of [selects] is [None] where [getElementById] found nothing. *)
Definition selectedSubjects (selects : list (option Select)) : gset string :=
  foldl (fun acc select =>
           match select with
           | Some sel => if select_value sel =? "" then acc
                         else acc ∪ {[ select_value sel ]}
           | None => acc
           end) ∅ selects.

Definition update_option (chosen : gset string) (currentValue : string)
    (o : OptionEl) : OptionEl :=
  {| ovalue := ovalue o; selected := selected o;
     disabled :=
       if (ovalue o =? "") || (ovalue o =? currentValue) then false
       else if bool_decide (ovalue o ∈ chosen) then true
       else false |}.

Definition updateSubjectOptions (selects : list (option Select))
    : list (option Select) :=
  let chosen := selectedSubjects selects in
  (fun select =>
     match select with
     | None => None
     | Some sel =>
         Some {| options := update_option chosen (select_value sel) <$> options sel |}
     end) <$> selects.

End Subjects.

(** ** Date of birth against year group ([date_validation.js]) *)
Module Dob.

(** What [getFullYear], [getMonth] and [getDate] read from a date. *)
Record DateParts := { fullYear : Z; month : Z; date : Z }.

Record Radio := { rvalue : string; rchecked : bool }.

Record Page := {
  dob : option string;       (* value of [#dob], if the element exists *)
  yeargroup : list Radio     (* the inputs named [yeargroup], in order *)
}.

Inductive Result :=
| Returned (b : bool) (p : Page) (alert : option (Z * Z * Z * Z))
| TypeError.

Definition digit_value (c : ascii) : option Z :=
  let n := Z.of_nat (nat_of_ascii c) in
  if (48 <=? n)%Z && (n <=? 57)%Z then Some (n - 48)%Z
  else if (97 <=? n)%Z && (n <=? 122)%Z then Some (n - 87)%Z
  else if (65 <=? n)%Z && (n <=? 90)%Z then Some (n - 55)%Z
  else None.

(** The longest run of leading digits in radix [R], as a number;
    [None] when there is no digit. *)
Fixpoint digits (R : Z) (acc : option Z) (s : string) : option Z :=
  match s with
  | "" => acc
  | String c s' =>
      match digit_value c with
      | Some d =>
          if (d <? R)%Z
          then digits R (Some (match acc with Some a => a * R + d | None => d end)%Z) s'
          else acc
      | None => acc
      end
  end.

(** [parseInt(s)] with no radix argument; [None] stands for [NaN].
    Leading white space is skipped as [trimStart] strips it, and the
    integer is kept exact where a double would round it. *)
Definition parseInt (s : string) : option Z :=
  let s1 := Js.trimStart s in
  let '(sign, s2) :=
    match s1 with
    | String "-" r => ((-1)%Z, r)
    | String "+" r => (1%Z, r)
    | _ => (1%Z, s1)
    end in
  let '(R, s3) :=
    match s2 with
    | String "0" (String "x" r) => (16%Z, r)
    | String "0" (String "X" r) => (16%Z, r)
    | _ => (10%Z, s2)
    end in
  match digits R None s3 with
  | Some n => Some (sign * n)%Z
  | None => None
  end.

(** The object literal [validAges], looked up with a number key. *)
Definition validAges (yeargroup : option Z) : option (Z * Z) :=
  match yeargroup with
  | Some 12%Z => Some (16, 17)%Z
  | Some 13%Z => Some (17, 18)%Z
  | _ => None
  end.

(** Comparisons with a possible [NaN] on the left are false on [NaN]. *)
Definition js_lt (a : option Z) (b : Z) : bool :=
  match a with Some x => (x <? b)%Z | None => false end.
Definition js_gt (a : option Z) (b : Z) : bool :=
  match a with Some x => (b <? x)%Z | None => false end.

Section Clock.
Variable today : DateParts.                       (* [new Date()] *)
Variable parseDate : string -> option DateParts.  (* [new Date(s)]; [None] is an invalid date *)

Definition age_of (d : option DateParts) : option Z :=
  match d with
  | None => None
  | Some d =>
      let age := (fullYear today - fullYear d)%Z in
      let monthDiff := (month today - month d)%Z in
      Some (if (monthDiff <? 0)%Z || ((monthDiff =? 0)%Z && (date today <? date d)%Z)
            then (age - 1)%Z else age)
  end.

Definition validateDateOfBirth (p : Page) : Result :=
  match dob p, List.find rchecked (yeargroup p) with
  | Some v, Some yearSelect =>
      let age := age_of (parseDate v) in
      let yeargroup_ := parseInt (rvalue yearSelect) in
      match validAges yeargroup_ with
      | None => TypeError
      | Some (min, max) =>
          if js_lt age min || js_gt age max
          then Returned false {| dob := Some ""; yeargroup := yeargroup p |}
                 (match yeargroup_, age with
                  | Some y, Some a => Some (y, min, max, a)
                  | _, _ => None
                  end)
          else Returned true p None
      end
  | _, _ => Returned true p None
  end.

End Clock.

End Dob.

(** ** Notions used in the statements *)

Import ClassAttr Dom.

(** Everything of a field but its class. *)
Definition shape (f : Field) : Field := set_className f "".

Definition same_shape (l l' : list Field) : Prop := shape <$> l = shape <$> l'.

Definition ws_free (s : string) : bool :=
  all_chars (fun c => negb (is_ascii_whitespace c)) s.

(** Token lists that [serialize] and [tokens] take to each other. *)
Definition valid_list (l : list string) : Prop :=
  List.NoDup l /\ Forall (fun t => token_ok t = true) l.

(** A class string that does not hold the text [active] at all. *)
Definition plain (s : string) : bool := negb (occurs "active" s).

(** A class string as the student wizard leaves it: free of the text
    [active], or such a string followed by [" active"]. *)
Definition tidy (c : string) : Prop :=
  plain c = true \/ exists b, plain b = true /\ c = b ++ " active".

(** Exactly the entry at [n] carries [active]. *)
Definition only_active (n : nat) (x : list string) : Prop :=
  forall i c, x !! i = Some c -> (contains c "active" = true <-> i = n).

(** Some input of the document named [n] is checked: the [some] over
    [querySelectorAll('input[name="n"]')]. *)
Definition group_checked (l : list Field) (n : string) : bool :=
  existsb checked (List.filter (matches_input_name n) l).

Definition member_checked (l : list Field) (n : string) : Prop :=
  exists j g, l !! j = Some g /\ is_input_tag (kind g) = true /\
              nameAttr g = Some n /\ checked g = true.

(** [!v || v.trim() === ''] *)
Definition blank (v : string) : bool := (v =? "") || (Js.trim v =? "").

Definition at_index (test : Field -> bool) (l : list Field) (i : nat) : bool :=
  match l !! i with Some f => test f | None => false end.

(** What each wizard holds against a field that it scans. *)
Definition student_offending (l : list Field) (f : Field) : bool :=
  required f &&
  (if type_of (kind f) =? "radio" then negb (group_checked l (name f))
   else blank (value f)).

Definition teacher_offending (f : Field) : bool :=
  required f && (value f =? "").

Definition regform_offending (f : Field) : bool := value f =? "".

(** The names that the student [validateForm] pastes into a selector on
    the current step, those of the required radio buttons of the step,
    read as themselves there. *)
Definition radio_names_plain (s : State) : Prop :=
  Forall (fun f => in_tab (currentTab s) f = true -> required f = true ->
                   (type_of (kind f) =? "radio") = true -> css_plain (name f) = true)
         (inputs (doc s)).


(** The field [g] is a radio button whose failed group check marks the
    field [f]. *)
Definition group_hits (l : list Field) (g f : Field) : bool :=
  student_offending l g && (type_of (kind g) =? "radio") &&
  matches_input_name (name g) f.

(** An in-place update folded over a list of positions. *)
Definition alter_all (g : Field -> Field) (idxs : list nat) (l : list Field) : list Field :=
  fold_left (fun l i => alter g i l) idxs l.

(** What one round of the teacher loop and of the [regForm] loop does to
    the field it visits. *)
Definition teacher_mark (f : Field) : Field :=
  if teacher_offending f then Wizard.add_invalid (Wizard.remove_invalid f)
  else Wizard.remove_invalid f.

Definition regform_mark (f : Field) : Field :=
  if regform_offending f then map_className (fun c => c ++ " invalid") f else f.

(** Calls to [showTab] and [form.submit()], in order. *)
Definition calls (l : list Event) : list Event :=
  List.filter (fun e => match e with Focus _ => false | _ => true end) l.

(** What navigation reads and writes, fields apart. *)
Definition same_navigation (s s' : State) : Prop :=
  currentTab s' = currentTab s /\ tabs (doc s') = tabs (doc s) /\
  steps (doc s') = steps (doc s) /\ prevBtn (doc s') = prevBtn (doc s) /\
  nextBtn (doc s') = nextBtn (doc s) /\ form (doc s') = form (doc s).

(** [0 <= currentTab < stepCount] *)
Definition tab_exists (s : State) : Prop :=
  (0 <= currentTab s < Z.of_nat (length (tabs (doc s))))%Z.

(** The tab displays after [showTab n]. *)
Definition hide_all_but (n : Z) (t : list string) : list string :=
  <[Z.to_nat n := "block"]> ((fun _ => "none") <$> t).

(** The indicator classes after [fixStepIndicator n], per wizard. *)
Definition student_indicator (n : Z) (x0 : list string) : list string :=
  let x := unset_active x0 in
  match Js.index x n with
  | Some _ => alter (fun c => c ++ " active") (Z.to_nat n) x
  | None => x
  end.

Definition teacher_indicator (n : Z) (x0 : list string) : list string :=
  let x := classList_remove "active" <$> x0 in
  match Js.index x n with
  | Some _ => alter (classList_add "active") (Z.to_nat n) x
  | None => x
  end.

Definition mark_finished (add : string -> string) (s : State) : State :=
  set_steps (alter add (Z.to_nat (currentTab s)) (steps (doc s))) s.

(** The indicator entry of step [c] carries [finish]. *)
Definition finished (c : Z) (s' : State) : Prop :=
  exists cls, steps (doc s') !! Z.to_nat c = Some cls /\ contains cls "finish" = true.

(** What the [regForm] wizard does to the class of a step marker, any
    number of times and in any order: it removes the first [" active"]
    ([fixStepIndicator]), appends [" active"] ([fixStepIndicator]) and
    appends [" finish"] ([validateForm]). *)
Inductive rewritten : string -> string -> Prop :=
  | rewritten_refl c : rewritten c c
  | rewritten_unset c d : rewritten (replace_first " active" c) d -> rewritten c d
  | rewritten_active c d : rewritten (c ++ " active") d -> rewritten c d
  | rewritten_finish c d : rewritten (c ++ " finish") d -> rewritten c d.

(** A step marker that the wizard never takes out of the collection of
    the [step] elements: whatever the wizard makes of its class, the
    class holds the token [step].  The class [step active-x] is not of
    this kind, [step], [step active] and [step finish active] are. *)
Definition keeps_step (c : string) : Prop :=
  forall d, rewritten c d -> contains d "step" = true.

(** The classes [step], [step active], [step finish], [step active
    finish], ...: the text [step] followed by any number of [" active"]
    and [" finish"]. *)
Definition step_marker (c : string) : Prop :=
  exists l, Forall (fun b => b = " active" \/ b = " finish") l /\
            c = "step" ++ fold_right append "" l.

(** What the [regForm] wizard needs on the page to run without a
    [TypeError]: both buttons, a step marker for every tab, none of
    which the wizard takes out of the collection, and the form. *)
Definition regform_page (s : State) : Prop :=
  prevBtn (doc s) <> None /\ nextBtn (doc s) <> None /\
  (length (tabs (doc s)) <= length (steps (doc s)))%nat /\
  Forall keeps_step (steps (doc s)) /\ form (doc s) = true.

(** Some scanned field of the current step offends. *)
Definition offends (test : Field -> bool) (s : State) : Prop :=
  exists i f, inputs (doc s) !! i = Some f /\
              in_tab (currentTab s) f = true /\ test f = true.

(** The field at position [i] is marked invalid in [s']. *)
Definition marked_in (s' : State) (i : nat) : Prop :=
  at_index is_invalid (inputs (doc s')) i = true.

Definition unmarked_in (s' : State) (i : nat) : Prop :=
  at_index is_invalid (inputs (doc s')) i = false.

(** No field of step [c] is marked invalid. *)
Definition step_unmarked (c : Z) (s' : State) : Prop :=
  forall i f', inputs (doc s') !! i = Some f' -> in_tab c f' = true ->
               is_invalid f' = false.

(** The wizard is active until it has submitted the form. *)
Definition active (s : State) : Prop := ~ In Submit (log s).

(** [showTab (c+1)], ..., [showTab (c+k)] *)
Definition displays (c : Z) (k : nat) : list Event :=
  List.map (fun j => ShowTab (c + Z.of_nat j)) (seq 1 k).

(** What one passing click on Next does: the step counter goes up by
    one; below [stepCount] the new step is displayed, at [stepCount] the
    form is submitted and nothing is displayed. *)
Definition steps_forward (nextPrev : Z -> M (option bool)) (s : State) : Prop :=
  let c := (currentTab s + 1)%Z in
  let below := (c <? Z.of_nat (length (tabs (doc s))))%Z in
  exists s',
    nextPrev 1%Z s = Return (if below then None else Some false) s' /\
    currentTab s' = c /\
    calls (log s') = (calls (log s) ++ [if below then ShowTab c else Submit])%list.

(** What [k] passing clicks in a row do. *)
Definition runs_forward (k : nat) (s s' : State) : Prop :=
  let c := currentTab s in
  let N := Z.of_nat (length (tabs (doc s))) in
  (c + Z.of_nat k <= N)%Z /\
  currentTab s' = (c + Z.of_nat k)%Z /\
  calls (log s') = (calls (log s) ++
    (if (c + Z.of_nat k <? N)%Z then displays c k
     else displays c (k - 1) ++ [Submit]))%list.

Section Clicks.
Variable validateForm : M bool.
Variable nextPrev : Z -> M (option bool).

(** One click on Next whose validation passes, after the user has
    edited the fields at will. *)
Inductive advances : State -> State -> Prop :=
| advances_intro s l s1 :
    active s ->
    validateForm (set_inputs l s) = Return true s1 ->
    advances s (final (nextPrev 1%Z (set_inputs l s))).

Inductive forward : nat -> State -> State -> Prop :=
| forward_O s : forward 0 s s
| forward_S k s s1 s2 : advances s s1 -> forward k s1 s2 -> forward (S k) s s2.

End Clicks.

(** The Previous button is on the page and not hidden. *)
Definition prev_shown (s : State) : Prop :=
  exists v, prevBtn (doc s) = Some v /\ v <> "none".

(** States of the student wizard that a user can bring about on the
    page [d]: the script shows tab 0 on load; the user edits fields,
    clicks Next, and clicks Previous while that button is shown; nothing
    more happens once the form has been submitted. *)
Inductive reachable (d : Document) : State -> Prop :=
| reach_init :
    reachable d (final (Student.showTab 0 {| doc := d; currentTab := 0; log := [] |}))
| reach_edit s l :
    reachable d s -> reachable d (set_inputs l s)
| reach_next s :
    reachable d s -> active s -> reachable d (final (Student.nextPrev 1 s))
| reach_prev s :
    reachable d s -> active s -> prev_shown s ->
    reachable d (final (Student.nextPrev (-1) s)).

Definition wizard_inv (d : Document) (s : State) : Prop :=
  length (tabs (doc s)) = length (tabs d) /\ form (doc s) = true /\
  (active s -> tab_exists s /\
     (currentTab s = 0%Z -> forall v, prevBtn (doc s) = Some v -> v = "none")).

(** Some dropdown of the group currently shows [v]. *)
Definition chosen_somewhere (selects : list (option Subjects.Select)) (v : string) : Prop :=
  exists k sel, selects !! k = Some (Some sel) /\ Subjects.select_value sel = v.

(** One round of the first [forEach] of [updateSubjectOptions]. *)
Definition add_choice (acc : gset string) (select : option Subjects.Select) : gset string :=
  match select with
  | Some sel => if Subjects.select_value sel =? "" then acc
                else acc ∪ {[ Subjects.select_value sel ]}
  | None => acc
  end.

(** The computed age is a number below [lo] or above [hi]. *)
Definition outside (age : option Z) (lo hi : Z) : Prop :=
  exists a, age = Some a /\ (a < lo \/ hi < a)%Z.

(** ** Sample pages *)
Module Sample.

Definition text_field (req : bool) (v cls : string) (t : nat) : Field :=
  {| kind := KInput "text"; nameAttr := None; required := req; value := v;
     checked := false; className := cls; tabOf := Some t |}.

Definition radio (n v : string) (req chk : bool) (t : nat) : Field :=
  {| kind := KInput "radio"; nameAttr := Some n; required := req; value := v;
     checked := chk; className := ""; tabOf := Some t |}.

(** A page with one tab per indicator entry, both buttons and the form. *)
Definition page (fs : list Field) (st : list string) (c : Z) : State :=
  {| doc := {| tabs := (fun _ => "") <$> st; inputs := fs; steps := st;
               prevBtn := Some ""; nextBtn := Some "Next"; form := true |};
     currentTab := c; log := [] |}.

(** The user types [v] into a field. *)
Definition fill (v : string) (f : Field) : Field :=
  {| kind := kind f; nameAttr := nameAttr f; required := required f; value := v;
     checked := checked f; className := className f; tabOf := tabOf f |}.


Definition unchecked_titles_page : State :=
  page [radio "title" "Mr" true false 0; radio "title" "Ms" true false 0]
       ["step active"] 0.

Definition name_missing_page : State := page [text_field true "" "" 0] ["step active"] 0.

Definition name_filled_page : State :=
  set_inputs (fill "Alice" <$> inputs (doc (final (RegForm.validateForm name_missing_page))))
             (final (RegForm.validateForm name_missing_page)).

Definition name_given_page : State :=
  page [text_field true "Alice" "" 0] ["step active"] 0.

(** A required field that holds a no-break space and nothing else. *)
Definition name_nbsp_page : State :=
  page [text_field true (Js.utf8 0xA0) "" 0] ["step active"] 0.

(** The student page after a failed attempt, the field then filled in. *)
Definition name_fixed_page : State :=
  set_inputs (fill "Alice" <$> inputs (doc (final (Student.validateForm name_missing_page))))
             (final (Student.validateForm name_missing_page)).

Definition premarked_page : State := page [] ["active step"; "step"] 0.

(** A page whose first step marker leaves the collection of the [step]
    elements when [" active"] is taken out of its class. *)
Definition lost_marker_page : State := page [] ["step active-now"; "step"] 0.

Definition two_step_page : State :=
  page [text_field true "Alice" "" 0] ["step active"; "step"] 0.

Definition yeargroup_page : State :=
  page [radio "yeargroup" "12" true false 0; radio "yeargroup" "13" false true 0]
       ["step active"] 0.

Definition subject_menu (v : string) : Subjects.Select :=
  {| Subjects.options :=
       [ {| Subjects.ovalue := ""; Subjects.selected := v =? ""; Subjects.disabled := true |};
         {| Subjects.ovalue := "Maths"; Subjects.selected := v =? "Maths";
            Subjects.disabled := false |};
         {| Subjects.ovalue := "Art"; Subjects.selected := v =? "Art";
            Subjects.disabled := true |} ] |}.

Definition subject_group : list (option Subjects.Select) :=
  [Some (subject_menu "Maths"); None; Some (subject_menu "Art"); Some (subject_menu "")].

Definition third_of_november : Dob.DateParts :=
  {| Dob.fullYear := 2026; Dob.month := 10; Dob.date := 3 |}.

Definition born_next_day (_ : string) : option Dob.DateParts :=
  Some {| Dob.fullYear := 2010; Dob.month := 10; Dob.date := 4 |}.

Definition year13_page : Dob.Page :=
  {| Dob.dob := Some "2010-11-04";
     Dob.yeargroup := [ {| Dob.rvalue := "12"; Dob.rchecked := false |};
                        {| Dob.rvalue := "13"; Dob.rchecked := true |} ] |}.

End Sample.

(** ** Notions for display, navigation and the other scripts *)

(** Tab [c] is displayed and every other tab is hidden. *)
Definition shows_only (c : Z) (t : list string) : Prop :=
  forall i d, t !! i = Some d ->
    d = if decide (i = Z.to_nat c) then "block" else "none".

(** What [showTab n] displays: tab [n] alone; a button that is on the
    page is still there, Previous with its display and Next with its
    label set; a button that is not on the page is still missing. *)
Definition displayed (n : Z) (s s' : State) : Prop :=
  shows_only n (tabs (doc s')) /\
  length (tabs (doc s')) = length (tabs (doc s)) /\
  prevBtn (doc s') =
    (fun _ => if (n =? 0)%Z then "none" else "inline") <$> prevBtn (doc s) /\
  nextBtn (doc s') =
    (fun _ => if (n =? Z.of_nat (length (tabs (doc s))) - 1)%Z then "Submit" else "Next")
      <$> nextBtn (doc s).

(** Every tab is hidden. *)
Definition all_hidden (t : list string) : Prop :=
  forall i d, t !! i = Some d -> d = "none".

(** Only the tab displays differ between [s] and [s']; the log apart. *)
Definition only_tabs_differ (s s' : State) : Prop :=
  inputs (doc s') = inputs (doc s) /\ steps (doc s') = steps (doc s) /\
  prevBtn (doc s') = prevBtn (doc s) /\ nextBtn (doc s') = nextBtn (doc s) /\
  form (doc s') = form (doc s).

(** A [showTab] that looks before it leaps: no tabs on the page, nothing
    happens; a tab that is not there, a [TypeError] with every tab
    hidden; it throws in no other case. *)
Definition guarded_showTab (showTab : Z -> M unit) : Prop :=
  forall n s,
    ((exists s', showTab n s = Throw s') <->
       tabs (doc s) <> [] /\ ~ (0 <= n < Z.of_nat (length (tabs (doc s))))%Z) /\
    (forall s', showTab n s = Throw s' ->
       all_hidden (tabs (doc s')) /\ length (tabs (doc s')) = length (tabs (doc s)) /\
       only_tabs_differ s s' /\ currentTab s' = currentTab s) /\
    (tabs (doc s) = [] ->
       exists s', showTab n s = Return tt s' /\ doc s' = doc s /\
                  currentTab s' = currentTab s).

(** Previous on the first step of a wizard that hides every tab before
    it shows one. *)
Definition falls_off_the_front (nextPrev : Z -> M (option bool)) : Prop :=
  forall s, currentTab s = 0%Z -> tabs (doc s) <> [] ->
    exists s', nextPrev (-1)%Z s = Throw s' /\ currentTab s' = (-1)%Z /\
      all_hidden (tabs (doc s')) /\ length (tabs (doc s')) = length (tabs (doc s)) /\
      only_tabs_differ s s' /\ calls (log s') = (calls (log s) ++ [ShowTab (-1)])%list.

(** A [nextPrev n] that gets past the validation and lands on an
    existing step leaves the page as [showTab] of that step alone would:
    hiding the step it leaves adds nothing. [s1] is the state the
    validation leaves (on Next), or the state before the call. *)
Definition lands_like_showTab (validateForm : M bool) (showTab : Z -> M unit)
    (nextPrev : Z -> M (option bool)) : Prop :=
  forall n s s1,
    (if (n =? 1)%Z then validateForm s = Return true s1 else s1 = s) ->
    (0 <= currentTab s1 + n < Z.of_nat (length (tabs (doc s1))))%Z ->
    exists s',
      nextPrev n s = Return None s' /\
      currentTab s' = (currentTab s1 + n)%Z /\
      doc s' = doc (final (showTab (currentTab s1 + n)%Z s1)) /\
      log s' = (log s1 ++ [ShowTab (currentTab s1 + n)])%list.

(** Next, then Previous: back on the step, displayed afresh on the
    page the validation left. *)
Definition there_and_back (validateForm : M bool) (showTab : Z -> M unit)
    (nextPrev : Z -> M (option bool)) (s : State) : Prop :=
  exists s1 s2 s3,
    validateForm s = Return true s1 /\
    nextPrev 1%Z s = Return None s2 /\ nextPrev (-1)%Z s2 = Return None s3 /\
    currentTab s3 = currentTab s /\
    doc s3 = doc (final (showTab (currentTab s) s1)) /\
    calls (log s3) =
      (calls (log s) ++ [ShowTab (currentTab s + 1); ShowTab (currentTab s)])%list.

(** Next on the last step, and Next once the counter has run past the
    last step, in a wizard that guards its lookups. [s1] is the state the
    validation of the last step leaves. *)
Definition runs_off_the_end (validateForm : M bool)
    (nextPrev : Z -> M (option bool)) : Prop :=
  (forall s s1,
     validateForm s = Return true s1 ->
     currentTab s1 = (Z.of_nat (length (tabs (doc s1))) - 1)%Z -> tabs (doc s1) <> [] ->
     exists s', nextPrev 1%Z s = Return (Some false) s' /\
       currentTab s' = Z.of_nat (length (tabs (doc s1))) /\
       tabs (doc s') = <[Z.to_nat (currentTab s1) := "none"]> (tabs (doc s1)) /\
       only_tabs_differ s1 s' /\
       log s' = (log s1 ++ if form (doc s1) then [Submit] else [])%list) /\
  (forall s,
     (Z.of_nat (length (tabs (doc s))) <= currentTab s)%Z ->
     nextPrev 1%Z s =
       Return (Some false)
         (let s' := set_currentTab (currentTab s + 1) s in
          if form (doc s) then emit Submit s' else s')).

(** A validation that rewrites the fields of the current step with
    [mark], one at a time, and touches nothing else in the field list. *)
Definition marks_pointwise (scanned : Z -> Field -> bool) (mark : Field -> Field)
    (s s' : State) : Prop :=
  inputs (doc s') =
  (fun f => if scanned (currentTab s) f then mark f else f) <$> inputs (doc s).

(** ** What the student loop does to one class

    Over a whole run of the loop in [validateForm] a field sees a
    sequence of [classList.remove('invalid')] and
    [classList.add('invalid')]; such a sequence comes to one of four
    things. *)
Inductive Marking :=
| Keep        (* nothing *)
| Unmark      (* remove *)
| Mark        (* add *)
| Remark.     (* remove, then add *)

Definition mark_with (m : Marking) (c : string) : string :=
  match m with
  | Keep => c
  | Unmark => classList_remove "invalid" c
  | Mark => classList_add "invalid" c
  | Remark => classList_add "invalid" (classList_remove "invalid" c)
  end.

(** [m1], then [m2]. *)
Definition and_then (m1 m2 : Marking) : Marking :=
  match m2, m1 with
  | Keep, _ => m1
  | Unmark, _ => Unmark
  | Mark, Keep => Mark
  | Mark, Unmark => Remark
  | Mark, Mark => Mark
  | Mark, Remark => Remark
  | Remark, _ => Remark
  end.

(** What the round for field [a] does to the class of field [j], which
    is [f]; [l0] gives the fields as they are but for their classes. *)
Definition round_marking (l0 : list Field) (a j : nat) (f : Field) : Marking :=
  match l0 !! a with
  | None => Keep
  | Some g =>
      let reset := if decide (a = j) then Unmark else Keep in
      if student_offending l0 g then
        if type_of (kind g) =? "radio" then
          if matches_input_name (name g) f then and_then reset Mark else reset
        else if decide (a = j) then Remark else Keep
      else reset
  end.

Definition loop_marking (l0 : list Field) (idxs : list nat) (j : nat) (f : Field) : Marking :=
  fold_right (fun a m => and_then (round_marking l0 a j f) m) Keep idxs.

(** ** More sample pages *)
Module Cases.
Import Sample.

(** A radio group whose members sit in two different steps. *)
Definition split_group_page : State :=
  page [radio "title" "Mr" true false 0; radio "title" "Ms" false false 1]
       ["step active"; "step"] 0.

End Cases.

(** ** A user at the subject dropdowns *)

(** The user picks option [j] of a single-choice dropdown: that option
    becomes the selected one. *)
Definition pick (j : nat) (sel : Subjects.Select) : Subjects.Select :=
  {| Subjects.options :=
       imap (fun k o => {| Subjects.ovalue := Subjects.ovalue o;
                           Subjects.selected := bool_decide (k = j);
                           Subjects.disabled := Subjects.disabled o |})
            (Subjects.options sel) |}.

(** A dropdown offers the options that are not disabled. *)
Definition pickable (j : nat) (sel : Subjects.Select) : Prop :=
  exists o, Subjects.options sel !! j = Some o /\ Subjects.disabled o = false.

(** A pick in dropdown [k], and the [change] listener that
    [setupSubjectValidation] has put on it. *)
Definition on_change (k j : nat) (selects : list (option Subjects.Select))
    : list (option Subjects.Select) :=
  Subjects.updateSubjectOptions (alter (fmap (pick j)) k selects).

(** No subject is shown by two dropdowns. *)
Definition distinct_choices (selects : list (option Subjects.Select)) : Prop :=
  forall k1 k2 s1 s2,
    k1 <> k2 -> selects !! k1 = Some (Some s1) -> selects !! k2 = Some (Some s2) ->
    Subjects.select_value s1 = Subjects.select_value s2 -> Subjects.select_value s1 = "".

(** ** Calendar notions for the age *)

(** Year, month and day compared in that order. *)
Definition on_or_before (a b : Dob.DateParts) : Prop :=
  (Dob.fullYear a < Dob.fullYear b)%Z \/
  (Dob.fullYear a = Dob.fullYear b /\
   ((Dob.month a < Dob.month b)%Z \/
    (Dob.month a = Dob.month b /\ (Dob.date a <= Dob.date b)%Z))).

(** The same month and day, [n] years on. *)
Definition anniversary (d : Dob.DateParts) (n : Z) : Dob.DateParts :=
  {| Dob.fullYear := Dob.fullYear d + n; Dob.month := Dob.month d; Dob.date := Dob.date d |}.

(** ** What a request comes back with *)
Module Net.

(** The parsed body of a response: [null], or a value whose [message]
    and [error] properties are strings where they are defined. *)
Inductive Json :=
| JNull
| JValue (message error : option string).

(** [await fetch(...)] followed by [await response.json()]: the request
    fails, or a response arrives whose body does or does not parse. *)
Inductive Fetched :=
| NetworkError
| Response (ok : bool) (body : option Json).

(** How the promise of an [async] function settles. *)
Inductive Settled (A : Type) :=
| Fulfilled (v : A)
| Rejected (error : string).
Arguments Fulfilled {A} v.
Arguments Rejected {A} error.

(** A value inside a template literal. *)
Definition interpolate (v : option string) : string :=
  match v with Some s => s | None => "undefined" end.

End Net.

(** ** Flagging a student (first script of [flag_student.js]) *)
Module Flag.
Import Net.

Record Button := {
  disabled : bool;
  textContent : string;
  backgroundColor : string;
  color : string
}.

(** The callback that [flagStudent] hands to [setTimeout]; it closes
    over [originalText]. *)
Inductive Timer :=
| ResetButton (originalText : string).

Record Page := {
  button : option Button;                      (* the element [#flag-btn] *)
  requests : list string;                      (* student ids posted, in order *)
  notifications : list (option string * string);  (* calls of [showNotification] *)
  timers : list Timer                          (* callbacks waiting *)
}.

Definition set_button (b : Button) (p : Page) : Page :=
  {| button := Some b; requests := requests p; notifications := notifications p;
     timers := timers p |}.

Definition post (studentId : string) (p : Page) : Page :=
  {| button := button p; requests := requests p ++ [studentId];
     notifications := notifications p; timers := timers p |}.

Definition showNotification (message : option string) (type : string) (p : Page) : Page :=
  {| button := button p; requests := requests p;
     notifications := notifications p ++ [(message, type)]; timers := timers p |}.

Definition setTimeout (t : Timer) (p : Page) : Page :=
  {| button := button p; requests := requests p; notifications := notifications p;
     timers := timers p ++ [t] |}.

(** The [catch] block. [originalText] is declared inside the [try]
    block and is not in scope here (no other binding of that name is
    taken to exist), so the last assignment throws a [ReferenceError];
    without a button the assignment before it throws a [TypeError]. *)
Definition handler (p : Page) : Settled unit * Page :=
  let p1 := showNotification (Some "Failed to flag student") "error" p in
  match button p1 with
  | None => (Rejected "TypeError", p1)
  | Some b =>
      (Rejected "ReferenceError",
       set_button {| disabled := false; textContent := textContent b;
                     backgroundColor := backgroundColor b; color := color b |} p1)
  end.

(** One call, from the click to the settling of its promise. The
    button is disabled while the request is under way, and nothing else
    is taken to write to it in between. *)
Definition flagStudent (studentId : string) (fetched : Fetched) (p : Page)
    : Settled unit * Page :=
  match button p with
  | None => handler p
  | Some b =>
      let originalText := textContent b in
      let p1 := post studentId
                  (set_button {| disabled := true; textContent := "Flagging...";
                                 backgroundColor := backgroundColor b;
                                 color := color b |} p) in
      match fetched with
      | NetworkError => handler p1
      | Response _ None => handler p1
      | Response true (Some data) =>
          let p2 := set_button {| disabled := true; textContent := "✓ Flagged";
                                  backgroundColor := "#28a745"; color := "white" |} p1 in
          match data with
          | JNull => handler p2            (* [data.message] throws *)
          | JValue message _ =>
              (Fulfilled tt,
               setTimeout (ResetButton originalText) (showNotification message "success" p2))
          end
      | Response false (Some data) =>
          match data with
          | JNull => handler p1            (* [data.error] throws *)
          | JValue _ error =>
              (Fulfilled tt,
               set_button {| disabled := false; textContent := originalText;
                             backgroundColor := backgroundColor b; color := color b |}
                 (showNotification (Some ("Error: " ++ interpolate error)) "error" p1))
          end
      end
  end.

(** A waiting callback runs. *)
Definition fire (t : Timer) (p : Page) : Page :=
  match t, button p with
  | ResetButton originalText, Some _ =>
      set_button {| disabled := false; textContent := originalText;
                    backgroundColor := ""; color := "" |} p
  | ResetButton _, None => p
  end.

(** Every waiting callback runs, in the order in which they were set. *)
Definition elapse (p : Page) : Page :=
  fold_left (fun q t => fire t q) (timers p)
    {| button := button p; requests := requests p; notifications := notifications p;
       timers := [] |}.

End Flag.

(** The request came back with a body that has properties to read. *)
Definition answered (fetched : Net.Fetched) : bool :=
  match fetched with
  | Net.Response _ (Some (Net.JValue _ _)) => true
  | _ => false
  end.

(** The label on the button once the waiting callbacks have run. *)
Definition final_label (p : Flag.Page) : option string :=
  Flag.textContent <$> Flag.button (Flag.elapse p).

Module FlagCases.

Definition flag_page : Flag.Page :=
  {| Flag.button := Some {| Flag.disabled := false; Flag.textContent := "Flag for help";
                            Flag.backgroundColor := ""; Flag.color := "" |};
     Flag.requests := []; Flag.notifications := []; Flag.timers := [] |}.

End FlagCases.

(** ** Attendance register (third script of [add_student.js])

    The page is taken to be laid out as the script expects: every
    [.student-row] holds one [.status-display] and one [.button-group]
    with the row's buttons, every button carries a [data-status], and
    the counters, the two command buttons and [attendanceData] exist. *)
Module Attendance.
Import ClassAttr Net.

Record Button := {
  status : string;           (* [dataset.status] *)
  className : string
}.

Record Row := {
  studentId : string;        (* [dataset.studentId] *)
  display : string;          (* text of the row's [.status-display] *)
  buttons : list Button      (* the buttons of the row's [.button-group], in order *)
}.

Record Page := {
  rows : list Row;
  total_count : Z;           (* the number last written to [#total-count] *)
  marked_count : Z;
  summary_present : Z;
  summary_late : Z;
  summary_absent : Z;
  summary_unmarked : Z;
  save_disabled : bool;      (* [#save-attendance] *)
  save_text : string;
  requests : list (string * string);        (* student id and status posted, in order *)
  toasts : list (option string * string)    (* calls of [showToast]: message and type *)
}.

Definition set_rows (r : list Row) (p : Page) : Page :=
  {| rows := r; total_count := total_count p; marked_count := marked_count p;
     summary_present := summary_present p; summary_late := summary_late p;
     summary_absent := summary_absent p; summary_unmarked := summary_unmarked p;
     save_disabled := save_disabled p; save_text := save_text p;
     requests := requests p; toasts := toasts p |}.

Definition set_save (d : bool) (t : string) (p : Page) : Page :=
  {| rows := rows p; total_count := total_count p; marked_count := marked_count p;
     summary_present := summary_present p; summary_late := summary_late p;
     summary_absent := summary_absent p; summary_unmarked := summary_unmarked p;
     save_disabled := d; save_text := t;
     requests := requests p; toasts := toasts p |}.

(** The call [fetch('/log_attendance', ...)] goes out. *)
Definition post (studentId status : string) (p : Page) : Page :=
  {| rows := rows p; total_count := total_count p; marked_count := marked_count p;
     summary_present := summary_present p; summary_late := summary_late p;
     summary_absent := summary_absent p; summary_unmarked := summary_unmarked p;
     save_disabled := save_disabled p; save_text := save_text p;
     requests := requests p ++ [(studentId, status)]; toasts := toasts p |}.

Definition showToast (message : option string) (type : string) (p : Page) : Page :=
  {| rows := rows p; total_count := total_count p; marked_count := marked_count p;
     summary_present := summary_present p; summary_late := summary_late p;
     summary_absent := summary_absent p; summary_unmarked := summary_unmarked p;
     save_disabled := save_disabled p; save_text := save_text p;
     requests := requests p; toasts := toasts p ++ [(message, type)] |}.

Definition is_status_btn (b : Button) : bool := contains (className b) "status-btn".
Definition is_btn_present (b : Button) : bool := contains (className b) "btn-present".
Definition is_active (b : Button) : bool := contains (className b) "active".

Definition map_class (g : string -> string) (b : Button) : Button :=
  {| status := status b; className := g (className b) |}.

Definition updateMarkedCount (p : Page) : Page :=
  let unmarked := List.filter (fun r => display r =? "Not Marked") (rows p) in
  let marked := (Z.of_nat (length (rows p)) - Z.of_nat (length unmarked))%Z in
  {| rows := rows p; total_count := total_count p; marked_count := marked;
     summary_present := summary_present p; summary_late := summary_late p;
     summary_absent := summary_absent p; summary_unmarked := summary_unmarked p;
     save_disabled := save_disabled p; save_text := save_text p;
     requests := requests p; toasts := toasts p |}.

(** One round of the [forEach] in [updateSummary]: the [switch]. *)
Definition tally (acc : Z * Z * Z * Z) (r : Row) : Z * Z * Z * Z :=
  let '(presentCount, lateCount, absentCount, unmarkedCount) := acc in
  if display r =? "Present" then (presentCount + 1, lateCount, absentCount, unmarkedCount)%Z
  else if display r =? "Late" then (presentCount, lateCount + 1, absentCount, unmarkedCount)%Z
  else if display r =? "Absent" then (presentCount, lateCount, absentCount + 1, unmarkedCount)%Z
  else if display r =? "Not Marked"
       then (presentCount, lateCount, absentCount, unmarkedCount + 1)%Z
  else acc.

Definition updateSummary (p : Page) : Page :=
  let '(presentCount, lateCount, absentCount, unmarkedCount) :=
    fold_left tally (rows p) (0, 0, 0, 0)%Z in
  {| rows := rows p; total_count := total_count p; marked_count := marked_count p;
     summary_present := presentCount; summary_late := lateCount;
     summary_absent := absentCount; summary_unmarked := unmarkedCount;
     save_disabled := save_disabled p; save_text := save_text p;
     requests := requests p; toasts := toasts p |}.

Definition initializeAttendance (p : Page) : Page :=
  updateMarkedCount
    {| rows := rows p; total_count := Z.of_nat (length (rows p));
       marked_count := marked_count p;
       summary_present := summary_present p; summary_late := summary_late p;
       summary_absent := summary_absent p; summary_unmarked := summary_unmarked p;
       save_disabled := save_disabled p; save_text := save_text p;
       requests := requests p; toasts := toasts p |}.

(** [logAttendance]: what the call shows and how its promise settles,
    given what the request comes back with. Everything after the
    request sits in the [try] block. *)
Definition logAttendance (silent : bool) (fetched : Fetched)
    : Settled bool * list (option string * string) :=
  let failed :=
    (Fulfilled false,
     if silent then [] else [(Some "Network error while saving attendance", "error")]) in
  match fetched with
  | NetworkError => failed
  | Response _ None => failed
  | Response false (Some JNull) => failed          (* [result.error] throws *)
  | Response false (Some (JValue _ error)) =>
      (Fulfilled false,
       if silent then [] else [(Some ("Error: " ++ interpolate error), "error")])
  | Response true (Some JNull) =>
      if silent then (Fulfilled true, []) else failed   (* [result.message] throws *)
  | Response true (Some (JValue message _)) =>
      (Fulfilled true, if silent then [] else [(message, "success")])
  end.

(** The listener on a [.status-btn]; the event target is button [j] of
    row [i] (a button that is not on the page is no target). The promise
    of the silent [logAttendance] is dropped. *)
Definition handleStatusButtonClick (i j : nat) (p : Page) : Page :=
  match rows p !! i with
  | None => p
  | Some row =>
      match buttons row !! j with
      | None => p
      | Some button =>
          let group :=
            (fun btn => if is_status_btn btn
                        then map_class (classList_remove "active") btn else btn)
              <$> buttons row in
          let group := alter (map_class (classList_add "active")) j group in
          let row' := {| studentId := studentId row; display := status button;
                         buttons := group |} in
          post (studentId row) (status button)
            (updateSummary (updateMarkedCount (set_rows (<[i := row']> (rows p)) p)))
      end
  end.

(** [el.click()] on button [j] of row [i]: the listener runs if
    [setupEventListeners] has put one there. *)
Definition click (i j : nat) (p : Page) : Page :=
  match rows p !! i with
  | Some row =>
      match buttons row !! j with
      | Some button => if is_status_btn button then handleStatusButtonClick i j p else p
      | None => p
      end
  | None => p
  end.

(** Position of the first element that satisfies [f]. *)
Fixpoint find_index {A} (f : A -> bool) (l : list A) : option nat :=
  match l with
  | [] => None
  | x :: r => if f x then Some 0%nat else S <$> find_index f r
  end.

(** One round of the [forEach] in [markAllPresent]; [None] is the
    [TypeError] of a row without a [.btn-present]. *)
Definition mark_present (p : option Page) (i : nat) : option Page :=
  match p with
  | None => None
  | Some p =>
      match rows p !! i with
      | None => Some p
      | Some row =>
          match find_index is_btn_present (buttons row) with
          | None => None
          | Some j =>
              match buttons row !! j with
              | Some presentBtn => if is_active presentBtn then Some p else Some (click i j p)
              | None => Some p
              end
          end
      end
  end.

Definition markAllPresent (p : Page) : option Page :=
  showToast (Some "All students marked as present") "success"
    <$> fold_left mark_present (seq 0 (length (rows p))) (Some p).

(** [saveAllAttendance]; [answers] is what the requests come back
    with, in the order in which they settle. While fewer have settled
    than were sent, [Promise.all] waits. *)
Definition saveAllAttendance (answers : list Fetched) (p : Page) : Page :=
  let marked := List.filter (fun r => negb (display r =? "Not Marked")) (rows p) in
  let sent := fold_left (fun q r => post (studentId r) (display r) q) marked
                (set_save true "Saving..." p) in
  let settled := logAttendance false <$> take (length marked) answers in
  let shown := fold_left (fun q t => showToast (fst t) (snd t) q) (concat (snd <$> settled))
                 sent in
  if (length marked <=? length answers)%nat then
    let allSaved :=
      forallb (fun r => match fst r with Rejected _ => false | Fulfilled _ => true end)
              settled in
    if allSaved
    then showToast (Some "Attendance saved successfully!") "success"
           (set_save false "Save Attendance" shown)
    else showToast (Some "Some attendance records failed to save") "error"
           (set_save false "Save Attendance" shown)
  else shown.

End Attendance.

(** *** Notions for the register *)

(** Rows whose display reads [s]. *)
Definition showing (s : string) (rows : list Attendance.Row) : Z :=
  Z.of_nat (length (List.filter (fun r => Attendance.display r =? s) rows)).

(** The four words that [updateSummary] counts. *)
Definition known_status (s : string) : bool :=
  (s =? "Present") || (s =? "Late") || (s =? "Absent") || (s =? "Not Marked").

(** The counters agree with the displays. *)
Definition tallied (p : Attendance.Page) : Prop :=
  Attendance.marked_count p =
    (Z.of_nat (length (Attendance.rows p)) - showing "Not Marked" (Attendance.rows p))%Z /\
  Attendance.summary_present p = showing "Present" (Attendance.rows p) /\
  Attendance.summary_late p = showing "Late" (Attendance.rows p) /\
  Attendance.summary_absent p = showing "Absent" (Attendance.rows p) /\
  Attendance.summary_unmarked p = showing "Not Marked" (Attendance.rows p).

(** The row after a click on its button [j]: what the other buttons of
    the group look like, [k] being the position of [old] and [new]. *)
Definition reselected (j k : nat) (old new : Attendance.Button) : Prop :=
  Attendance.status new = Attendance.status old /\
  Attendance.is_status_btn new = Attendance.is_status_btn old /\
  Attendance.is_btn_present new = Attendance.is_btn_present old /\
  (Attendance.is_status_btn old = true -> (Attendance.is_active new = true <-> k = j)) /\
  (Attendance.is_status_btn old = false -> k <> j -> new = old).

(** The button that [markAllPresent] presses in a row. *)
Definition presentBtn (row : Attendance.Row) : option (nat * Attendance.Button) :=
  match Attendance.find_index Attendance.is_btn_present (Attendance.buttons row) with
  | Some j => (fun b => (j, b)) <$> Attendance.buttons row !! j
  | None => None
  end.

(** Every row has a [.btn-present], and it is one of the status
    buttons. *)
Definition rows_have_present (rows : list Attendance.Row) : Prop :=
  forall i row, rows !! i = Some row ->
    exists j b, presentBtn row = Some (j, b) /\ Attendance.is_status_btn b = true.

Module Register.
Import Attendance.

Definition status_button (s cls : string) : Button :=
  {| status := s; className := cls |}.

Definition pupil (id shown : string) (present_cls : string) : Row :=
  {| studentId := id; display := shown;
     buttons := [ status_button "Present" present_cls;
                  status_button "Late" "status-btn btn-late";
                  status_button "Absent" "status-btn btn-absent" ] |}.

Definition blank_page (rs : list Row) : Page :=
  {| rows := rs; total_count := 0; marked_count := 0;
     summary_present := 0; summary_late := 0; summary_absent := 0; summary_unmarked := 0;
     save_disabled := false; save_text := "Save Attendance";
     requests := []; toasts := [] |}.

Definition two_pupils : Page :=
  blank_page [ pupil "1" "Not Marked" "status-btn btn-present";
               pupil "2" "Excused" "status-btn btn-present active" ].

End Register.

(** The rows that [saveAllAttendance] sends. *)
Definition marked_rows (p : Attendance.Page) : list Attendance.Row :=
  List.filter (fun r => negb (Attendance.display r =? "Not Marked")) (Attendance.rows p).

(** The toasts of the single requests of a save, in the order in which
    the requests settle. *)
Definition request_toasts (n : nat) (answers : list Net.Fetched)
    : list (option string * string) :=
  concat ((fun a => snd (Attendance.logAttendance false a)) <$> take n answers).

(** A row after a click on its button [j], whose status is [s]. *)
Definition clicked (j : nat) (s : string) (row : Attendance.Row) : Attendance.Row :=
  {| Attendance.studentId := Attendance.studentId row;
     Attendance.display := s;
     Attendance.buttons :=
       alter (Attendance.map_class (ClassAttr.classList_add "active")) j
         ((fun btn => if Attendance.is_status_btn btn
                      then Attendance.map_class (ClassAttr.classList_remove "active") btn
                      else btn) <$> Attendance.buttons row) |}.

(** The request that [markAllPresent] sends for a row, if any. *)
Definition press_request (row : Attendance.Row) : list (string * string) :=
  match presentBtn row with
  | Some (_, b) =>
      if Attendance.is_active b then []
      else [(Attendance.studentId row, Attendance.status b)]
  | None => []
  end.

(** A row once [markAllPresent] has passed it. *)
Definition pressed (row : Attendance.Row) : Attendance.Row :=
  match presentBtn row with
  | Some (j, b) =>
      if Attendance.is_active b then row else clicked j (Attendance.status b) row
  | None => row
  end.

(** * Properties *)

Import Sample Subjects Dob.

(** ** Class strings: tokens, [classList], [replace] *)

Lemma fields_not_nil s : fields s <> [].
Proof.
  destruct s as [|c s]; simpl; [discriminate|].
  destruct (is_ascii_whitespace c); [discriminate|].
  destruct (fields s); discriminate.
Qed.

Lemma fields_ws_free s : Forall (fun f => ws_free f = true) (fields s).
Proof.
  induction s as [|c s IH]; simpl.
  - repeat constructor.
  - destruct (is_ascii_whitespace c) eqn:E.
    + constructor; [reflexivity | exact IH].
    + destruct (fields s) as [|f r].
      * repeat constructor. unfold ws_free; simpl. now rewrite E.
      * inversion IH; subst. constructor; [|assumption].
        unfold ws_free in *; simpl. now rewrite E.
Qed.

Lemma fields_app a w b :
  is_ascii_whitespace w = true ->
  fields (a ++ String w b) = (fields a ++ fields b)%list.
Proof.
  intros Hw. induction a as [|c a IH]; simpl.
  - now rewrite Hw.
  - rewrite IH. destruct (is_ascii_whitespace c); [reflexivity|].
    destruct (fields a) as [|f r] eqn:E; [now apply fields_not_nil in E|].
    reflexivity.
Qed.

Lemma fields_token t : ws_free t = true -> fields t = [t].
Proof.
  unfold ws_free. induction t as [|c t IH]; simpl; [reflexivity|].
  intros H. apply andb_true_iff in H as [Hc Ht].
  apply negb_true_iff in Hc. rewrite Hc, (IH Ht). reflexivity.
Qed.

Lemma differs_true t u : differs t u = true <-> u <> t.
Proof.
  unfold differs. rewrite negb_true_iff. split.
  - intros H ->. now rewrite String.eqb_refl in H.
  - intros H. now apply String.eqb_neq.
Qed.

Lemma In_ordered_set l t : In t (ordered_set l) <-> In t l.
Proof.
  induction l as [|x l IH]; simpl; [tauto|].
  rewrite List.filter_In, IH, differs_true.
  destruct (string_dec x t); [tauto|]. intuition congruence.
Qed.

Lemma NoDup_ordered_set l : List.NoDup (ordered_set l).
Proof.
  induction l as [|x l IH]; simpl; constructor.
  - rewrite List.filter_In, differs_true. tauto.
  - now apply List.NoDup_filter.
Qed.

Lemma filter_differs_notin t l : ~ In t l -> List.filter (differs t) l = l.
Proof.
  induction l as [|x l IH]; simpl; intros H; [reflexivity|].
  destruct (differs t x) eqn:E.
  - f_equal. apply IH. tauto.
  - exfalso. apply H. left. unfold differs in E.
    apply negb_false_iff, String.eqb_eq in E. congruence.
Qed.

Lemma ordered_set_NoDup l : List.NoDup l -> ordered_set l = l.
Proof.
  induction 1 as [|x l Hx Hl IH]; simpl; [reflexivity|].
  rewrite IH. f_equal. now apply filter_differs_notin.
Qed.

Lemma token_ok_split t : token_ok t = true <-> nonempty t = true /\ ws_free t = true.
Proof. unfold token_ok, ws_free. apply andb_true_iff. Qed.

Lemma fields_serialize l :
  l <> [] -> Forall (fun t => ws_free t = true) l -> fields (serialize l) = l.
Proof.
  induction l as [|t l IH]; [congruence|]. intros _ H.
  inversion H as [|? ? Ht Hl]; subst.
  destruct l as [|u l].
  - simpl. now apply fields_token.
  - change (serialize (t :: u :: l)) with (t ++ String " " (serialize (u :: l))).
    rewrite fields_app by reflexivity.
    rewrite fields_token by assumption.
    rewrite IH by (assumption || discriminate). reflexivity.
Qed.

Lemma split_serialize l :
  Forall (fun t => token_ok t = true) l -> split_on_whitespace (serialize l) = l.
Proof.
  intros H. unfold split_on_whitespace.
  destruct l as [|t l]; [reflexivity|].
  rewrite fields_serialize; [|discriminate|].
  - induction H as [|x r Hx Hr IH]; simpl; [reflexivity|].
    apply token_ok_split in Hx as [-> _]. now rewrite IH.
  - eapply List.Forall_impl; [|exact H]. intros x Hx. now apply token_ok_split in Hx.
Qed.

Lemma tokens_serialize l : valid_list l -> tokens (serialize l) = l.
Proof.
  intros [Hnd Hok]. unfold tokens.
  rewrite split_serialize by assumption. now apply ordered_set_NoDup.
Qed.

Lemma tokens_valid s : valid_list (tokens s).
Proof.
  split; [apply NoDup_ordered_set|].
  apply List.Forall_forall. intros t Ht. unfold tokens in Ht.
  apply (proj1 (In_ordered_set _ _)) in Ht. unfold split_on_whitespace in Ht.
  apply List.filter_In in Ht as [Hin Hne].
  pose proof (fields_ws_free s) as Hws.
  rewrite List.Forall_forall in Hws.
  apply token_ok_split. split; [assumption | now apply Hws].
Qed.

Lemma valid_filter p l : valid_list l -> valid_list (List.filter p l).
Proof.
  intros [Hnd Hok]. split; [now apply List.NoDup_filter|].
  apply List.Forall_forall. intros t Ht. apply List.filter_In in Ht as [Ht _].
  rewrite List.Forall_forall in Hok. now apply Hok.
Qed.

Lemma existsb_eqb_In t l : existsb (String.eqb t) l = true <-> In t l.
Proof.
  rewrite existsb_exists. split.
  - intros (x & Hx & E). apply String.eqb_eq in E. now subst.
  - intros H. exists t. split; [assumption | apply String.eqb_refl].
Qed.

Lemma valid_snoc t l :
  token_ok t = true -> valid_list l -> ~ In t l -> valid_list (l ++ [t]).
Proof.
  intros Ht [Hnd Hok] Hn. split.
  - apply List.NoDup_app; [assumption | repeat constructor; simpl; tauto |].
    intros x Hx [<-|[]]. contradiction.
  - apply Forall_app. split; [assumption | now constructor].
Qed.

Lemma tokens_add t s :
  token_ok t = true ->
  tokens (classList_add t s) =
  if existsb (String.eqb t) (tokens s) then tokens s else (tokens s ++ [t])%list.
Proof.
  intros Ht. unfold classList_add.
  destruct (existsb (String.eqb t) (tokens s)) eqn:E.
  - apply tokens_serialize, tokens_valid.
  - apply tokens_serialize, valid_snoc; [assumption | apply tokens_valid |].
    intros H. apply existsb_eqb_In in H. congruence.
Qed.

Lemma tokens_remove t s :
  tokens (classList_remove t s) = List.filter (differs t) (tokens s).
Proof. apply tokens_serialize, valid_filter, tokens_valid. Qed.

Lemma contains_In s t : contains s t = true <-> In t (tokens s).
Proof. apply existsb_eqb_In. Qed.

Lemma contains_add t s u :
  token_ok t = true ->
  contains (classList_add t s) u = (u =? t) || contains s u.
Proof.
  intros Ht. apply eq_true_iff_eq.
  rewrite orb_true_iff, !contains_In, tokens_add, String.eqb_eq by assumption.
  destruct (existsb (String.eqb t) (tokens s)) eqn:E.
  - apply existsb_eqb_In in E. intuition congruence.
  - rewrite in_app_iff. simpl. intuition congruence.
Qed.

Lemma contains_remove t s u :
  contains (classList_remove t s) u = negb (u =? t) && contains s u.
Proof.
  apply eq_true_iff_eq.
  rewrite andb_true_iff, !contains_In, tokens_remove, List.filter_In.
  fold (differs t u). tauto.
Qed.

Lemma In_tokens s t : In t (tokens s) <-> In t (fields s) /\ nonempty t = true.
Proof.
  unfold tokens, split_on_whitespace. now rewrite In_ordered_set, List.filter_In.
Qed.

Lemma contains_append t s u :
  token_ok t = true ->
  contains (s ++ String " " t) u = (u =? t) || contains s u.
Proof.
  intros Ht. apply token_ok_split in Ht as [Hne Hws].
  apply eq_true_iff_eq.
  rewrite orb_true_iff, !contains_In, !In_tokens, String.eqb_eq.
  rewrite fields_app by reflexivity. rewrite (fields_token t) by assumption.
  rewrite in_app_iff. simpl. split.
  - intros [[H|[H|[]]] Hu]; auto.
  - intros [->|[H Hu]]; auto.
Qed.

Lemma prefix_nil s : String.prefix "" s = true.
Proof. now destruct s. Qed.

Lemma prefix_cons c p d s :
  String.prefix (String c p) (String d s) = true <-> c = d /\ String.prefix p s = true.
Proof.
  simpl. destruct (ascii_dec c d) as [->|N]; [tauto|].
  split; [discriminate | intros [? _]; contradiction].
Qed.

Lemma occurs_cons pat c s :
  occurs pat (String c s) = String.prefix pat (String c s) || occurs pat s.
Proof. reflexivity. Qed.

Lemma occurs_tail c p s : occurs (String c p) s = true -> occurs p s = true.
Proof.
  induction s as [|d s IH]; [discriminate|].
  rewrite !occurs_cons, !orb_true_iff. intros [H|H].
  - apply prefix_cons in H as [_ H]. right.
    destruct s; simpl in *; [destruct p; [reflexivity|discriminate]|].
    now rewrite H.
  - right. now apply IH.
Qed.

Lemma replace_first_absent pat s : occurs pat s = false -> replace_first pat s = s.
Proof.
  induction s as [|c s IH]; simpl; intros H.
  - apply orb_false_iff in H as [-> _]. reflexivity.
  - apply orb_false_iff in H as [-> H]. now rewrite IH.
Qed.

Lemma hd_fields_prefix s f r : fields s = f :: r -> String.prefix f s = true.
Proof.
  revert f r. induction s as [|c s IH]; simpl; intros f r H.
  - injection H as <- _. reflexivity.
  - destruct (is_ascii_whitespace c).
    + injection H as <- _. reflexivity.
    + destruct (fields s) as [|g q] eqn:E; injection H as <- _.
      * destruct (ascii_dec c c); [apply prefix_nil | contradiction].
      * destruct (ascii_dec c c); [now apply (IH g q) | contradiction].
Qed.

Lemma In_fields_occurs s t : In t (fields s) -> occurs t s = true.
Proof.
  induction s as [|c s IH]; intros H.
  - simpl in H. destruct H as [<-|[]]. reflexivity.
  - rewrite occurs_cons, orb_true_iff. simpl in H.
    destruct (is_ascii_whitespace c) eqn:Ec.
    + destruct H as [<-|H]; [now left | right; auto].
    + destruct (fields s) as [|g q] eqn:E.
      * now apply fields_not_nil in E.
      * destruct H as [<-|H].
        -- left. apply prefix_cons. split; [reflexivity|].
           now apply (hd_fields_prefix s g q).
        -- right. apply IH. now right.
Qed.

Lemma contains_occurs s t : contains s t = true -> occurs t s = true.
Proof.
  intros H. apply contains_In, In_tokens in H as [H _]. now apply In_fields_occurs.
Qed.

Lemma plain_not_active s : plain s = true -> contains s "active" = false.
Proof.
  unfold plain. intros H. apply negb_true_iff in H.
  destruct (contains s "active") eqn:E; [|reflexivity].
  apply contains_occurs in E. congruence.
Qed.

Lemma plain_replace s : plain s = true -> replace_first " active" s = s.
Proof.
  unfold plain. intros H. apply negb_true_iff in H.
  apply replace_first_absent.
  destruct (occurs " active" s) eqn:E; [|reflexivity].
  apply occurs_tail in E. congruence.
Qed.

Lemma prefix_active_app b :
  String.prefix "active" (b ++ " active") = true -> String.prefix "active" b = true.
Proof.
  intros H.
  do 6 (destruct b as [|? b]; [discriminate H|];
        apply prefix_cons in H as [<- H]; apply prefix_cons; split; [reflexivity|]).
  apply prefix_nil.
Qed.

Lemma plain_app_replace s :
  plain s = true -> replace_first " active" (s ++ " active") = s.
Proof.
  unfold plain. intros H. apply negb_true_iff in H.
  induction s as [|c s IH]; [reflexivity|].
  rewrite occurs_cons in H. apply orb_false_iff in H as [Hp Ho].
  change (String c s ++ " active") with (String c (s ++ " active")).
  cbn [replace_first].
  destruct (String.prefix " active" (String c (s ++ " active"))) eqn:E.
  - apply prefix_cons in E as [_ E]. apply prefix_active_app in E.
    destruct s as [|d s]; [discriminate E|].
    rewrite occurs_cons, E in Ho. discriminate.
  - now rewrite (IH Ho).
Qed.

(** ** White space at the head of a string *)

Lemma behind_length p s r :
  Js.behind p s = Some r -> String.length s = (String.length p + String.length r)%nat.
Proof.
  unfold Js.behind. revert s. induction p as [|c p IH]; intros s.
  - rewrite prefix_nil. now intros [= <-].
  - destruct s as [|d s]; [discriminate|].
    destruct (String.prefix (String c p) (String d s)) eqn:E; [|discriminate].
    apply prefix_cons in E as [_ E]. cbn [String.length drop]. intros H.
    rewrite (IH s); [reflexivity|]. now rewrite E.
Qed.

Lemma skip_white_space_shorter s r :
  Js.skip_white_space s = Some r -> (String.length r < String.length s)%nat.
Proof.
  unfold Js.skip_white_space.
  assert (H : Forall (fun cp => (1 <= String.length (Js.utf8 cp))%nat) Js.white_space).
  { unfold Js.white_space. repeat (apply List.Forall_cons; [vm_compute; lia|]).
    apply List.Forall_nil. }
  induction H as [|cp l Hcp _ IH]; cbn [fold_right]; [discriminate|].
  destruct (Js.behind (Js.utf8 cp) s) as [r'|] eqn:E; [|exact IH].
  intros [= ->]. apply behind_length in E. lia.
Qed.

(** [trimStart] goes on until no white space is left at the head. *)
Lemma trimStart_complete s : Js.skip_white_space (Js.trimStart s) = None.
Proof.
  unfold Js.trimStart.
  assert (H : forall n t, (String.length t <= n)%nat ->
                Js.skip_white_space (Js.skip_white_spaces n t) = None).
  { induction n as [|n IH]; intros t Ht.
    - destruct t; [reflexivity | cbn [String.length] in Ht; lia].
    - cbn [Js.skip_white_spaces].
      destruct (Js.skip_white_space t) as [r|] eqn:E; [|exact E].
      apply IH. apply skip_white_space_shorter in E. lia. }
  now apply H.
Qed.

(** ** The loop over the live collection of step markers *)

Lemma contains_step_active b : contains (b ++ " active") "step" = contains b "step".
Proof.
  change (b ++ " active") with (b ++ String " " "active").
  now rewrite contains_append.
Qed.

Lemma unset_active_map x :
  Forall (fun c => contains c "step" = true ->
                   contains (replace_first " active" c) "step" = true) x ->
  unset_active x = replace_first " active" <$> x.
Proof.
  induction 1 as [|c x Hc _ IH]; [reflexivity|]. cbn [unset_active]. rewrite IH.
  destruct (contains c "step"); [|reflexivity]. now rewrite Hc.
Qed.

Lemma unset_active_tidy x :
  Forall tidy x -> unset_active x = replace_first " active" <$> x.
Proof.
  intros H. apply unset_active_map. revert H. apply List.Forall_impl.
  intros c [Hp|(b & Hb & ->)].
  - now rewrite plain_replace.
  - now rewrite plain_app_replace, contains_step_active.
Qed.

Lemma unset_active_keeps x :
  Forall keeps_step x -> unset_active x = replace_first " active" <$> x.
Proof.
  intros H. apply unset_active_map. revert H. apply List.Forall_impl.
  intros c Hc _. apply Hc. apply rewritten_unset, rewritten_refl.
Qed.

Lemma unset_active_length x : (length (unset_active x) <= length x)%nat.
Proof.
  assert (H : forall k x, (length x <= k)%nat -> (length (unset_active x) <= length x)%nat).
  { clear x. induction k as [|k IH]; intros [|c x] Hk; cbn [length] in Hk;
      try reflexivity; try lia.
    cbn [unset_active]. destruct (_ && _).
    - destruct x as [|d x]; cbn [length] in *; [lia|].
      specialize (IH x). lia.
    - specialize (IH x). cbn [length]. lia. }
  now apply (H (length x)).
Qed.

Lemma keeps_step_unset c : keeps_step c -> keeps_step (replace_first " active" c).
Proof. intros H d Hd. apply H. now apply rewritten_unset. Qed.

Lemma keeps_step_active c : keeps_step c -> keeps_step (c ++ " active").
Proof. intros H d Hd. apply H. now apply rewritten_active. Qed.

Lemma keeps_step_finish c : keeps_step c -> keeps_step (c ++ " finish").
Proof. intros H d Hd. apply H. now apply rewritten_finish. Qed.

Lemma Forall_alter_keeps (f : string -> string) (i : nat) (x : list string) :
  (forall c, keeps_step c -> keeps_step (f c)) ->
  Forall keeps_step x -> Forall keeps_step (alter f i x).
Proof.
  intros Hf Hx. apply Forall_lookup. intros j c. rewrite list_lookup_alter.
  destruct (decide (i = j)) as [<-|N].
  - destruct (x !! i) as [c0|] eqn:E; [|discriminate]. intros [= <-].
    apply Hf. rewrite Forall_lookup in Hx. eauto.
  - intros E. rewrite Forall_lookup in Hx. eauto.
Qed.

Lemma step_marker_unset c : step_marker c -> step_marker (replace_first " active" c).
Proof.
  intros (l & Hl & ->).
  assert (H : exists l', Forall (fun b => b = " active" \/ b = " finish") l' /\
            replace_first " active" (fold_right append "" l) = fold_right append "" l').
  { induction Hl as [|b l [-> | ->] Hl (l' & Hl' & IH)].
    - exists []. split; [constructor | reflexivity].
    - exists l. split; [assumption|].
      cbn [fold_right]. cbv [append]. fold append. cbn. now rewrite prefix_nil.
    - exists (" finish" :: l'). split; [constructor; [now right | assumption]|].
      cbn [fold_right]. cbv [append]. fold append. cbn. now rewrite IH. }
  destruct H as (l' & Hl' & E). exists l'. split; [assumption|].
  cbv [append]. fold append. cbn. now rewrite E.
Qed.

Lemma append_assoc (a b c : string) : (a ++ b) ++ c = a ++ (b ++ c).
Proof.
  induction a as [|ch a IH]; [reflexivity|].
  change (String ch ((a ++ b) ++ c) = String ch (a ++ (b ++ c))). now rewrite IH.
Qed.

Lemma append_nil_r (a : string) : a ++ "" = a.
Proof.
  induction a as [|ch a IH]; [reflexivity|].
  change (String ch (a ++ "") = String ch a). now rewrite IH.
Qed.

Lemma step_marker_snoc c b :
  b = " active" \/ b = " finish" -> step_marker c -> step_marker (c ++ b).
Proof.
  intros Hb (l & Hl & ->). exists (l ++ [b])%list. split.
  - apply Forall_app. split; [assumption | now constructor].
  - rewrite fold_right_app. cbn [fold_right]. rewrite append_nil_r, append_assoc. f_equal.
    clear. induction l as [|y l IH]; [reflexivity|]. cbn [fold_right].
    now rewrite append_assoc, IH.
Qed.

Lemma step_marker_contains c : step_marker c -> contains c "step" = true.
Proof.
  intros (l & Hl & ->). apply contains_In, In_tokens. split; [|reflexivity].
  destruct Hl as [|b l [-> | ->] _]; cbn [fold_right]; cbv [append]; fold append;
    cbn; now left.
Qed.

Lemma step_marker_keeps c : step_marker c -> keeps_step c.
Proof.
  intros H d Hd. induction Hd as [c|c d _ IH|c d _ IH|c d _ IH].
  - now apply step_marker_contains.
  - apply IH. now apply step_marker_unset.
  - apply IH. apply step_marker_snoc; auto.
  - apply IH. apply step_marker_snoc; auto.
Qed.

(** ** The validation loops only rewrite classes *)

Lemma shape_map_className g f : shape (map_className g f) = shape f.
Proof. reflexivity. Qed.

Lemma same_shape_refl l : same_shape l l.
Proof. reflexivity. Qed.

Lemma same_shape_trans l1 l2 l3 : same_shape l1 l2 -> same_shape l2 l3 -> same_shape l1 l3.
Proof. unfold same_shape. congruence. Qed.

Lemma same_shape_alter g i l : same_shape l (alter (map_className g) i l).
Proof.
  unfold same_shape. revert i. induction l as [|f l IH]; intros [|i]; simpl; try reflexivity.
  f_equal. apply IH.
Qed.

Lemma same_shape_cond (p : Field -> bool) g l :
  same_shape l ((fun r => if p r then map_className g r else r) <$> l).
Proof.
  unfold same_shape. induction l as [|f l IH]; simpl; [reflexivity|].
  f_equal; [now destruct (p f) | apply IH].
Qed.

Lemma same_shape_lookup l l' i :
  same_shape l l' -> shape <$> (l !! i) = shape <$> (l' !! i).
Proof. unfold same_shape. intros H. now rewrite <- !list_lookup_fmap, H. Qed.

Lemma same_shape_length l l' : same_shape l l' -> length l = length l'.
Proof.
  unfold same_shape. intros H. apply (f_equal length) in H.
  now rewrite !length_fmap in H.
Qed.

(** A loop over field positions that only rewrites classes and lowers
    the [valid] flag on offending fields. *)
Section Loop.
Variable check : list Field * bool -> nat -> list Field * bool.
Variable bad : list Field -> nat -> bool.
Hypothesis check_shape : forall l v i, same_shape l (fst (check (l, v) i)).
Hypothesis check_valid : forall l v i, snd (check (l, v) i) = v && negb (bad l i).
Hypothesis bad_shape : forall l l' i, same_shape l l' -> bad l i = bad l' i.

Lemma loop_shape idxs l v : same_shape l (fst (fold_left check idxs (l, v))).
Proof.
  revert l v. induction idxs as [|a idxs IH]; intros l v; simpl; [reflexivity|].
  destruct (check (l, v) a) as [l1 v1] eqn:E.
  eapply same_shape_trans; [|apply IH].
  pose proof (check_shape l v a) as H. now rewrite E in H.
Qed.

Lemma loop_valid_from l0 idxs l v :
  same_shape l0 l ->
  snd (fold_left check idxs (l, v)) = v && forallb (fun i => negb (bad l0 i)) idxs.
Proof.
  revert l v. induction idxs as [|a idxs IH]; intros l v H0; simpl.
  - now rewrite andb_true_r.
  - destruct (check (l, v) a) as [l1 v1] eqn:E.
    pose proof (check_shape l v a) as Hs. pose proof (check_valid l v a) as Hv.
    rewrite E in Hs, Hv. simpl in Hs, Hv.
    rewrite (IH l1 v1) by (eapply same_shape_trans; eassumption).
    now rewrite Hv, (bad_shape l0 l a H0), andb_assoc.
Qed.

Lemma loop_valid idxs l v :
  snd (fold_left check idxs (l, v)) = v && forallb (fun i => negb (bad l i)) idxs.
Proof. apply loop_valid_from, same_shape_refl. Qed.
End Loop.

Lemma group_checked_shape l n : group_checked l n = group_checked (shape <$> l) n.
Proof.
  unfold group_checked. induction l as [|f l IH]; simpl; [reflexivity|].
  change (matches_input_name n (shape f)) with (matches_input_name n f).
  destruct (matches_input_name n f); simpl; now rewrite IH.
Qed.

Lemma group_checked_same l l' n : same_shape l l' -> group_checked l n = group_checked l' n.
Proof. intros H. rewrite (group_checked_shape l), (group_checked_shape l'). now rewrite H. Qed.

Lemma student_offending_shape l l' f f' :
  same_shape l l' -> shape f = shape f' ->
  student_offending l f = student_offending l' f'.
Proof.
  intros Hl Hf. unfold student_offending.
  assert (required f = required f') as -> by exact (f_equal required Hf).
  assert (kind f = kind f') as -> by exact (f_equal kind Hf).
  assert (name f = name f') as -> by exact (f_equal name Hf).
  assert (value f = value f') as -> by exact (f_equal value Hf).
  now rewrite (group_checked_same l l' _ Hl).
Qed.

Lemma at_index_shape (test test' : Field -> bool) l l' i :
  same_shape l l' ->
  (forall f f', shape f = shape f' -> test f = test' f') ->
  at_index test l i = at_index test' l' i.
Proof.
  intros Hl Ht. unfold at_index. pose proof (same_shape_lookup l l' i Hl) as H.
  destruct (l !! i) as [f|], (l' !! i) as [f'|]; simpl in H; try discriminate; [|reflexivity].
  apply Ht. congruence.
Qed.

Lemma student_bad_shape l l' i :
  same_shape l l' ->
  at_index (student_offending l) l i = at_index (student_offending l') l' i.
Proof.
  intros H. apply at_index_shape; [assumption|].
  intros f f'. now apply student_offending_shape.
Qed.

Lemma student_check_shape l v i : same_shape l (fst (Student.check_field (l, v) i)).
Proof.
  unfold Student.check_field.
  pose proof (same_shape_alter (classList_remove "invalid") i l) as H1.
  fold Wizard.remove_invalid in H1.
  destruct (alter Wizard.remove_invalid i l !! i) as [input|]; [|exact H1].
  destruct (required input); [|exact H1].
  destruct (type_of (kind input) =? "radio").
  - destruct (negb _); [|exact H1].
    eapply same_shape_trans; [exact H1|]. apply same_shape_cond.
  - destruct (_ || _); [|exact H1].
    eapply same_shape_trans; [exact H1|]. apply same_shape_alter.
Qed.

Lemma student_check_valid l v i :
  snd (Student.check_field (l, v) i) = v && negb (at_index (student_offending l) l i).
Proof.
  unfold Student.check_field, at_index.
  pose proof (same_shape_alter (classList_remove "invalid") i l) as H1.
  fold Wizard.remove_invalid in H1.
  rewrite list_lookup_alter_eq.
  destruct (l !! i) as [f|]; simpl; [|now rewrite andb_true_r].
  unfold student_offending.
  change (required (Wizard.remove_invalid f)) with (required f).
  change (kind (Wizard.remove_invalid f)) with (kind f).
  change (name (Wizard.remove_invalid f)) with (name f).
  change (value (Wizard.remove_invalid f)) with (value f).
  fold (group_checked (alter Wizard.remove_invalid i l) (name f)).
  rewrite <- (group_checked_same _ _ (name f) H1). fold (blank (value f)).
  destruct (required f); simpl; [|now rewrite andb_true_r].
  destruct (type_of (kind f) =? "radio").
  - destruct (group_checked l (name f)); simpl; [now rewrite andb_true_r | now rewrite andb_false_r].
  - destruct (blank (value f)); simpl; [now rewrite andb_false_r | now rewrite andb_true_r].
Qed.

Lemma student_loop_valid idxs l :
  snd (fold_left Student.check_field idxs (l, true)) =
  forallb (fun i => negb (at_index (student_offending l) l i)) idxs.
Proof.
  apply (loop_valid Student.check_field (fun l i => at_index (student_offending l) l i)
           student_check_shape student_check_valid student_bad_shape).
Qed.

Lemma teacher_check_shape l v i : same_shape l (fst (Teacher.check_field (l, v) i)).
Proof.
  unfold Teacher.check_field.
  pose proof (same_shape_alter (classList_remove "invalid") i l) as H1.
  fold Wizard.remove_invalid in H1.
  destruct (alter Wizard.remove_invalid i l !! i) as [input|]; [|exact H1].
  destruct (_ && _); [|exact H1].
  eapply same_shape_trans; [exact H1|]. apply same_shape_alter.
Qed.

Lemma teacher_check_valid l v i :
  snd (Teacher.check_field (l, v) i) = v && negb (at_index teacher_offending l i).
Proof.
  unfold Teacher.check_field, at_index. rewrite list_lookup_alter_eq.
  destruct (l !! i) as [f|]; simpl; [|now rewrite andb_true_r].
  unfold teacher_offending.
  change (required (Wizard.remove_invalid f)) with (required f).
  change (value (Wizard.remove_invalid f)) with (value f).
  destruct (required f && (value f =? "")); simpl;
    [now rewrite andb_false_r | now rewrite andb_true_r].
Qed.

Lemma teacher_loop_valid idxs l :
  snd (fold_left Teacher.check_field idxs (l, true)) =
  forallb (fun i => negb (at_index teacher_offending l i)) idxs.
Proof.
  apply (loop_valid Teacher.check_field (fun l i => at_index teacher_offending l i)
           teacher_check_shape teacher_check_valid).
  intros l1 l2 i H. apply at_index_shape; [assumption|].
  intros f f' Hf. unfold teacher_offending.
  assert (required f = required f') as -> by exact (f_equal required Hf).
  assert (value f = value f') as -> by exact (f_equal value Hf).
  reflexivity.
Qed.

Lemma regform_check_shape l v i : same_shape l (fst (RegForm.check_input (l, v) i)).
Proof.
  unfold RegForm.check_input.
  destruct (l !! i) as [y|]; [|reflexivity].
  destruct (value y =? ""); [apply same_shape_alter | reflexivity].
Qed.

Lemma regform_check_valid l v i :
  snd (RegForm.check_input (l, v) i) = v && negb (at_index regform_offending l i).
Proof.
  unfold RegForm.check_input, at_index, regform_offending.
  destruct (l !! i) as [y|]; simpl; [|now rewrite andb_true_r].
  destruct (value y =? ""); simpl; [now rewrite andb_false_r | now rewrite andb_true_r].
Qed.

Lemma regform_loop_valid idxs l :
  snd (fold_left RegForm.check_input idxs (l, true)) =
  forallb (fun i => negb (at_index regform_offending l i)) idxs.
Proof.
  apply (loop_valid RegForm.check_input (fun l i => at_index regform_offending l i)
           regform_check_shape regform_check_valid).
  intros l1 l2 i H. apply at_index_shape; [assumption|].
  intros f f' Hf. unfold regform_offending.
  assert (value f = value f') as -> by exact (f_equal value Hf).
  reflexivity.
Qed.

(** *** Positions of the fields of a tab *)

Lemma In_indices_from p k l i :
  In i (indices_from p k l) <-> (k <= i)%nat /\ at_index p l (i - k) = true.
Proof.
  revert k. induction l as [|f l IH]; intros k; simpl.
  - unfold at_index. rewrite lookup_nil. intuition discriminate.
  - assert (Hstep : forall j, (S k <= j)%nat ->
              at_index p (f :: l) (j - k) = at_index p l (j - S k)).
    { intros j Hj. unfold at_index. replace (j - k)%nat with (S (j - S k)) by lia.
      reflexivity. }
    destruct (p f) eqn:Ef; simpl; rewrite IH.
    + split.
      * intros [<-|[Hk H]].
        -- split; [lia|]. unfold at_index. now rewrite Nat.sub_diag.
        -- split; [lia|]. now rewrite Hstep.
      * intros [Hk H]. destruct (decide (i = k)) as [->|N]; [now left|].
        right. split; [lia|]. rewrite <- Hstep by lia. exact H.
    + split.
      * intros [Hk H]. split; [lia|]. now rewrite Hstep.
      * intros [Hk H]. destruct (decide (i = k)) as [->|N].
        -- unfold at_index in H. rewrite Nat.sub_diag in H. simpl in H. congruence.
        -- split; [lia|]. rewrite <- Hstep by lia. exact H.
Qed.

Lemma NoDup_indices_from p k l : List.NoDup (indices_from p k l).
Proof.
  revert k. induction l as [|f l IH]; intros k; simpl; [constructor|].
  destruct (p f); [|apply IH]. constructor; [|apply IH].
  rewrite In_indices_from. lia.
Qed.

Lemma In_tab_fields c l i :
  In i (tab_fields c l) <-> at_index (in_tab c) l i = true.
Proof.
  unfold tab_fields. rewrite In_indices_from, Nat.sub_0_r. intuition lia.
Qed.


(** *** Folding an in-place update over a list of positions *)

Lemma alter_all_lookup g idxs l i :
  alter_all g idxs l !! i = Nat.iter (count_occ Nat.eq_dec idxs i) g <$> l !! i.
Proof.
  unfold alter_all. revert l. induction idxs as [|a idxs IH]; intros l; simpl.
  - now destruct (l !! i).
  - rewrite IH. destruct (Nat.eq_dec a i) as [->|N].
    + rewrite list_lookup_alter_eq. destruct (l !! i) as [x|]; [|reflexivity].
      change (Some (Nat.iter (count_occ Nat.eq_dec idxs i) g (g x)) =
              Some (Nat.iter (S (count_occ Nat.eq_dec idxs i)) g x)).
      now rewrite Nat.iter_succ_r.
    + now rewrite list_lookup_alter_ne.
Qed.

Lemma alter_all_in (P : Field -> Prop) g idxs l i f :
  (forall x, P (g x)) -> In i idxs -> alter_all g idxs l !! i = Some f -> P f.
Proof.
  intros Hg Hin. rewrite alter_all_lookup.
  apply (count_occ_In Nat.eq_dec) in Hin.
  destruct (count_occ Nat.eq_dec idxs i) as [|n]; [lia|].
  destruct (l !! i) as [x|]; simpl; [|discriminate].
  intros [= <-]. apply Hg.
Qed.

Lemma alter_all_notin g idxs l i : ~ In i idxs -> alter_all g idxs l !! i = l !! i.
Proof.
  intros Hn. rewrite alter_all_lookup.
  apply (count_occ_not_In Nat.eq_dec) in Hn. rewrite Hn. now destruct (l !! i).
Qed.

Lemma alter_all_once g idxs l i :
  List.NoDup idxs -> In i idxs -> alter_all g idxs l !! i = g <$> l !! i.
Proof.
  intros Hnd Hin. rewrite alter_all_lookup.
  pose proof (proj1 (NoDup_count_occ Nat.eq_dec idxs) Hnd i) as Hle.
  apply (count_occ_In Nat.eq_dec) in Hin.
  replace (count_occ Nat.eq_dec idxs i) with 1%nat by lia. reflexivity.
Qed.

(** *** Marks *)

Lemma is_invalid_remove f : is_invalid (Wizard.remove_invalid f) = false.
Proof. unfold is_invalid. simpl. now rewrite contains_remove. Qed.

Lemma is_invalid_add f : is_invalid (Wizard.add_invalid f) = true.
Proof. unfold is_invalid. simpl. now rewrite contains_add. Qed.

Lemma is_invalid_append f :
  is_invalid (map_className (fun c => c ++ " invalid") f) = true.
Proof.
  unfold is_invalid. simpl.
  change (className f ++ " invalid") with (className f ++ String " " "invalid").
  now rewrite contains_append.
Qed.

Lemma alter_same (g : Field -> Field) (i : nat) (l : list Field) :
  (forall x, l !! i = Some x -> g x = x) -> alter g i l = l.
Proof.
  intros H. rewrite (list_alter_ext g (fun x => x) l l i H eq_refl).
  now apply list_alter_id.
Qed.

Lemma teacher_check_alter l v i :
  fst (Teacher.check_field (l, v) i) = alter teacher_mark i l.
Proof.
  unfold Teacher.check_field. rewrite list_lookup_alter_eq.
  destruct (l !! i) as [f|] eqn:E; simpl.
  - destruct (required f && (value f =? "")) eqn:Eo; simpl.
    + rewrite list_alter_alter_eq. apply list_alter_ext; [|reflexivity].
      intros x Hx. assert (x = f) as -> by congruence.
      unfold teacher_mark, teacher_offending. now rewrite Eo.
    + apply list_alter_ext; [|reflexivity].
      intros x Hx. assert (x = f) as -> by congruence.
      unfold teacher_mark, teacher_offending. now rewrite Eo.
  - apply list_alter_ext; [|reflexivity]. intros x Hx. congruence.
Qed.

Lemma teacher_loop_store idxs l v :
  fst (fold_left Teacher.check_field idxs (l, v)) = alter_all teacher_mark idxs l.
Proof.
  unfold alter_all. revert l v. induction idxs as [|a idxs IH]; intros l v; [reflexivity|].
  cbn [fold_left]. rewrite <- (teacher_check_alter l v a).
  destruct (Teacher.check_field (l, v) a) as [l1 v1]. apply IH.
Qed.

Lemma regform_check_alter l v i :
  fst (RegForm.check_input (l, v) i) = alter regform_mark i l.
Proof.
  unfold RegForm.check_input.
  destruct (l !! i) as [f|] eqn:E; simpl.
  - destruct (value f =? "") eqn:Eo; simpl.
    + apply list_alter_ext; [|reflexivity]. intros x Hx. assert (x = f) as -> by congruence.
      unfold regform_mark, regform_offending. now rewrite Eo.
    + symmetry. apply alter_same. intros x Hx. assert (x = f) as -> by congruence.
      unfold regform_mark, regform_offending. now rewrite Eo.
  - symmetry. apply alter_same. intros x Hx. congruence.
Qed.

Lemma regform_loop_store idxs l v :
  fst (fold_left RegForm.check_input idxs (l, v)) = alter_all regform_mark idxs l.
Proof.
  unfold alter_all. revert l v. induction idxs as [|a idxs IH]; intros l v; [reflexivity|].
  cbn [fold_left]. rewrite <- (regform_check_alter l v a).
  destruct (RegForm.check_input (l, v) a) as [l1 v1]. apply IH.
Qed.

(** *** The student loop, field by field *)

(** The student loop on one field, by cases on what it holds against it. *)
Lemma student_check_cases l v i f :
  l !! i = Some f ->
  Student.check_field (l, v) i =
  let l1 := alter Wizard.remove_invalid i l in
  if student_offending l f then
    if type_of (kind f) =? "radio"
    then ((fun r => if matches_input_name (name f) r then Wizard.add_invalid r else r) <$> l1,
          false)
    else (alter Wizard.add_invalid i l1, false)
  else (l1, v).
Proof.
  intros E. unfold Student.check_field. rewrite list_lookup_alter_eq, E.
  cbn [fmap option_fmap option_map]. unfold student_offending.
  change (required (Wizard.remove_invalid f)) with (required f).
  change (kind (Wizard.remove_invalid f)) with (kind f).
  change (name (Wizard.remove_invalid f)) with (name f).
  change (value (Wizard.remove_invalid f)) with (value f).
  fold (group_checked (alter Wizard.remove_invalid i l) (name f)).
  pose proof (same_shape_alter (classList_remove "invalid") i l) as H1.
  fold Wizard.remove_invalid in H1.
  rewrite <- (group_checked_same _ _ (name f) H1).
  fold (blank (value f)).
  destruct (required f); [|reflexivity]. cbn [andb].
  destruct (type_of (kind f) =? "radio").
  - now destruct (group_checked l (name f)).
  - now destruct (blank (value f)).
Qed.

Lemma student_check_ok l v i :
  at_index (student_offending l) l i = false ->
  Student.check_field (l, v) i = (alter Wizard.remove_invalid i l, v).
Proof.
  unfold at_index. destruct (l !! i) as [f|] eqn:E; intros H.
  - rewrite (student_check_cases l v i f E). cbn zeta. now rewrite H.
  - unfold Student.check_field. now rewrite list_lookup_alter_eq, E.
Qed.

Lemma student_loop_clear_from l0 idxs l v :
  same_shape l0 l ->
  forallb (fun i => negb (at_index (student_offending l0) l0 i)) idxs = true ->
  fold_left Student.check_field idxs (l, v) = (alter_all Wizard.remove_invalid idxs l, v).
Proof.
  unfold alter_all. revert l. induction idxs as [|a idxs IH]; intros l Hs H; [reflexivity|].
  cbn [forallb] in H. apply andb_true_iff in H as [Ha H]. apply negb_true_iff in Ha.
  cbn [fold_left]. rewrite (student_bad_shape l0 l a Hs) in Ha.
  rewrite (student_check_ok l v a Ha). apply IH; [|assumption].
  eapply same_shape_trans; [exact Hs | apply same_shape_alter].
Qed.

Lemma student_loop_clear idxs l :
  forallb (fun i => negb (at_index (student_offending l) l i)) idxs = true ->
  fold_left Student.check_field idxs (l, true) =
  (alter_all Wizard.remove_invalid idxs l, true).
Proof. apply student_loop_clear_from, same_shape_refl. Qed.



Lemma student_check_keeps l v a i :
  a <> i ->
  at_index is_invalid l i = true ->
  at_index is_invalid (fst (Student.check_field (l, v) a)) i = true.
Proof.
  intros Hne Hi. unfold at_index in *.
  destruct (l !! a) as [f|] eqn:E.
  - rewrite (student_check_cases l v a f E). cbn zeta.
    destruct (student_offending l f); [|cbn [fst]; now rewrite list_lookup_alter_ne].
    destruct (type_of (kind f) =? "radio"); cbn [fst].
    + rewrite list_lookup_fmap, list_lookup_alter_ne by assumption.
      destruct (l !! i) as [x|]; [|discriminate]. cbn [fmap option_fmap option_map].
      destruct (matches_input_name (name f) x); [apply is_invalid_add | assumption].
    + now rewrite !list_lookup_alter_ne.
  - unfold Student.check_field. rewrite list_lookup_alter_eq, E. cbn [fmap option_fmap option_map fst].
    now rewrite list_lookup_alter_ne.
Qed.

Lemma student_loop_keeps idxs l v i :
  ~ In i idxs ->
  at_index is_invalid l i = true ->
  at_index is_invalid (fst (fold_left Student.check_field idxs (l, v))) i = true.
Proof.
  revert l v. induction idxs as [|a idxs IH]; intros l v Hn Hi; [exact Hi|].
  cbn [fold_left]. pose proof (student_check_keeps l v a i) as Hk.
  destruct (Student.check_field (l, v) a) as [l1 v1]. apply IH.
  - intros H. apply Hn. now right.
  - apply Hk; [|assumption]. intros ->. apply Hn. now left.
Qed.



(** ** Indexing, verdicts *)

Lemma index_Some {A} (xs : list A) z :
  (0 <= z < Z.of_nat (length xs))%Z -> exists x, Js.index xs z = Some x.
Proof.
  intros H. unfold Js.index. destruct (Z.ltb_spec z 0); [lia|].
  destruct (lookup_lt_is_Some_2 xs (Z.to_nat z)) as [x Hx]; [lia|]. eauto.
Qed.

Lemma index_None {A} (xs : list A) z :
  ~ (0 <= z < Z.of_nat (length xs))%Z -> Js.index xs z = None.
Proof.
  intros H. unfold Js.index. destruct (Z.ltb_spec z 0); [reflexivity|].
  apply lookup_ge_None_2. lia.
Qed.

Lemma index_Some_inv {A} (xs : list A) z x :
  Js.index xs z = Some x -> (0 <= z < Z.of_nat (length xs))%Z /\ xs !! Z.to_nat z = Some x.
Proof.
  unfold Js.index. destruct (Z.ltb_spec z 0); [discriminate|]. intros Hx.
  split; [|exact Hx]. apply lookup_lt_Some in Hx. lia.
Qed.

Lemma calls_app l1 l2 : calls (l1 ++ l2) = (calls l1 ++ calls l2)%list.
Proof. apply List.filter_app. Qed.

Lemma In_indices_from_0 p l i :
  In i (indices_from p 0 l) <-> at_index p l i = true.
Proof. rewrite In_indices_from, Nat.sub_0_r. intuition lia. Qed.

(** The verdict of a loop: some scanned field offends. *)
Lemma verdict_false (p test : Field -> bool) l :
  forallb (fun i => negb (at_index test l i)) (indices_from p 0 l) = false <->
  exists i f, l !! i = Some f /\ p f = true /\ test f = true.
Proof.
  rewrite <- not_true_iff_false, forallb_forall. split.
  - intros H. destruct (existsb (at_index test l) (indices_from p 0 l)) eqn:E.
    + apply existsb_exists in E as (i & Hi & Ht). apply In_indices_from_0 in Hi.
      unfold at_index in *. destruct (l !! i) as [f|] eqn:El; [|discriminate]. eauto.
    + exfalso. apply H. intros i Hi. apply negb_true_iff.
      destruct (at_index test l i) eqn:Et; [|reflexivity].
      assert (existsb (at_index test l) (indices_from p 0 l) = true) as E'
        by (apply existsb_exists; eauto). congruence.
  - intros (i & f & El & Hc & Ht) H.
    assert (In i (indices_from p 0 l)) as Hi
      by (apply In_indices_from_0; unfold at_index; now rewrite El).
    specialize (H i Hi). unfold at_index in H. rewrite El, Ht in H. discriminate.
Qed.

Lemma verdict_true (p test : Field -> bool) l :
  forallb (fun i => negb (at_index test l i)) (indices_from p 0 l) = true <->
  forall i f, l !! i = Some f -> p f = true -> test f = false.
Proof.
  rewrite forallb_forall. split.
  - intros H i f El Hc.
    assert (In i (indices_from p 0 l)) as Hi
      by (apply In_indices_from_0; unfold at_index; now rewrite El).
    specialize (H i Hi). unfold at_index in H. rewrite El in H. now apply negb_true_iff.
  - intros H i Hi. apply In_indices_from_0 in Hi. unfold at_index in *.
    destruct (l !! i) as [f|] eqn:El; [|reflexivity].
    apply negb_true_iff. eauto.
Qed.

(** *** [validateForm] of the student wizard *)

Lemma student_validate_eq s :
  tab_exists s ->
  let l := inputs (doc s) in
  let idxs := tab_fields (currentTab s) l in
  let l' := fst (fold_left Student.check_field idxs (l, true)) in
  Student.validateForm s =
  Return (forallb (fun i => negb (at_index (student_offending l) l i)) idxs)
    match first_invalid idxs l' with
    | Some i => emit (Focus i) (set_inputs l' s)
    | None => set_inputs l' s
    end.
Proof.
  intros Ht. cbn zeta. unfold Student.validateForm.
  destruct (index_Some _ _ Ht) as [x ->].
  rewrite <- student_loop_valid.
  now destruct (fold_left Student.check_field _ _).
Qed.

Lemma student_validate_no_tab s :
  ~ tab_exists s -> Student.validateForm s = Return true s.
Proof. intros H. unfold Student.validateForm. now rewrite index_None. Qed.

Lemma student_validate_frame s v s' :
  Student.validateForm s = Return v s' ->
  same_navigation s s' /\ calls (log s') = calls (log s) /\
  same_shape (inputs (doc s)) (inputs (doc s')).
Proof.
  unfold Student.validateForm.
  destruct (Js.index _ _); [|intros [= _ <-]; repeat split; reflexivity].
  pose proof (loop_shape Student.check_field student_check_shape
                (tab_fields (currentTab s) (inputs (doc s))) (inputs (doc s)) true) as Hs.
  destruct (fold_left Student.check_field _ _) as [l valid]. cbn [fst] in Hs.
  destruct (first_invalid _ l); intros [= _ <-]; repeat split; try reflexivity; try exact Hs.
  cbn [log emit set_inputs]. rewrite calls_app. cbn. now rewrite app_nil_r.
Qed.

(** ** [showTab] and [nextPrev] *)

Ltac tab_here := unfold tab_exists; cbn; lia.
Ltac run_M := unfold mbind, M_bind, mret, M_ret, get, modify, throw; cbn beta iota.
Ltac project :=
  cbn [doc tabs inputs steps prevBtn nextBtn form currentTab log
       set_tabs set_inputs set_steps set_prevBtn set_nextBtn set_currentTab emit final].

Section SharedFacts.
Variable validateForm : M bool.
Variable fixStepIndicator : Z -> M unit.
Variable indicator : Z -> list string -> list string.
Hypothesis fix_steps : forall n s,
  fixStepIndicator n s = Return tt (set_steps (indicator n (steps (doc s))) s).

Lemma showTab_in_range n s :
  (0 <= n < Z.of_nat (length (tabs (doc s))))%Z ->
  exists s', Wizard.showTab fixStepIndicator n s = Return tt s' /\
    currentTab s' = currentTab s /\ log s' = (log s ++ [ShowTab n])%list /\
    tabs (doc s') = hide_all_but n (tabs (doc s)) /\
    prevBtn (doc s') = (fun _ => if (n =? 0)%Z then "none" else "inline") <$> prevBtn (doc s) /\
    nextBtn (doc s') =
      (fun _ => if (n =? Z.of_nat (length (tabs (doc s))) - 1)%Z then "Submit" else "Next")
        <$> nextBtn (doc s) /\
    inputs (doc s') = inputs (doc s) /\ form (doc s') = form (doc s) /\
    steps (doc s') = indicator n (steps (doc s)).
Proof.
  intros Hn. unfold Wizard.showTab. run_M. project.
  destruct (Nat.eqb_spec (length (tabs (doc s))) 0) as [E|_]; [lia|].
  destruct (index_Some _ _ Hn) as [x ->].
  rewrite fix_steps.
  eexists. split; [reflexivity|]. project.
  rewrite length_insert, length_fmap. repeat split; reflexivity.
Qed.

Lemma showTab_out_of_range n s :
  tabs (doc s) <> [] ->
  ~ (0 <= n < Z.of_nat (length (tabs (doc s))))%Z ->
  exists s', Wizard.showTab fixStepIndicator n s = Throw s' /\
    currentTab s' = currentTab s /\ inputs (doc s') = inputs (doc s).
Proof.
  intros Hne Hn. unfold Wizard.showTab. run_M. project.
  destruct (Nat.eqb_spec (length (tabs (doc s))) 0) as [E|_].
  - destruct (tabs (doc s)); [congruence | discriminate].
  - rewrite (index_None _ _ Hn). eexists. split; [reflexivity|]. now project.
Qed.

Lemma nextPrev_blocked s s' :
  validateForm s = Return false s' ->
  Wizard.nextPrev validateForm fixStepIndicator 1 s = Return (Some false) s'.
Proof.
  intros H. unfold Wizard.nextPrev. change (1 =? 1)%Z with true. run_M. now rewrite H.
Qed.

(** The move itself, once validation is out of the way. *)
Lemma nextPrev_forward s s1 :
  validateForm s = Return true s1 ->
  (0 <= currentTab s1 < Z.of_nat (length (tabs (doc s1))))%Z ->
  exists s',
    Wizard.nextPrev validateForm fixStepIndicator 1 s =
      Return (if (currentTab s1 + 1 <? Z.of_nat (length (tabs (doc s1))))%Z
              then None else Some false) s' /\
    currentTab s' = (currentTab s1 + 1)%Z /\
    length (tabs (doc s')) = length (tabs (doc s1)) /\
    form (doc s') = form (doc s1) /\
    inputs (doc s') = inputs (doc s1) /\
    log s' = (log s1 ++
      (if (currentTab s1 + 1 <? Z.of_nat (length (tabs (doc s1))))%Z
       then [ShowTab (currentTab s1 + 1)]
       else if form (doc s1) then [Submit] else []))%list /\
    ((currentTab s1 + 1 <? Z.of_nat (length (tabs (doc s1))))%Z = true ->
     tabs (doc s') = hide_all_but (currentTab s1 + 1) (tabs (doc s1)) /\
     prevBtn (doc s') = (fun _ => "inline") <$> prevBtn (doc s1)).
Proof.
  intros Hv Hc. unfold Wizard.nextPrev. change (1 =? 1)%Z with true. run_M.
  rewrite Hv. cbn [negb]. destruct (index_Some _ _ Hc) as [x ->]. project.
  rewrite length_insert.
  destruct (Z.ltb_spec (currentTab s1 + 1) (Z.of_nat (length (tabs (doc s1))))) as [Hlt|Hge].
  - destruct (Z.leb_spec (Z.of_nat (length (tabs (doc s1)))) (currentTab s1 + 1)); [lia|].
    match goal with |- context [Wizard.showTab fixStepIndicator ?n ?st] =>
      destruct (showTab_in_range n st) as (s' & -> & Hct & Hlog & Htabs & Hprev & Hnext & Hin & Hform & _)
    end.
    { project. rewrite length_insert. lia. }
    revert Hct Hlog Htabs Hprev Hin Hform. project. intros.
    exists s'. split; [reflexivity|]. repeat split; try assumption.
    + rewrite Htabs. unfold hide_all_but. now rewrite length_insert, length_fmap, length_insert.
    + rewrite Htabs. unfold hide_all_but. f_equal.
      apply list_eq. intros i. rewrite !list_lookup_fmap.
      destruct (decide (i = Z.to_nat (currentTab s1))) as [->|N].
      * rewrite list_lookup_insert_eq by lia.
        destruct (tabs (doc s1) !! Z.to_nat (currentTab s1)) eqn:E; [reflexivity|].
        apply lookup_ge_None in E. lia.
      * now rewrite list_lookup_insert_ne.
    + rewrite Hprev. destruct (Z.eqb_spec (currentTab s1 + 1) 0); [lia|]. reflexivity.
  - destruct (Z.leb_spec (Z.of_nat (length (tabs (doc s1)))) (currentTab s1 + 1)); [|lia].
    destruct (form (doc s1)) eqn:Ef.
    + eexists. split; [reflexivity|]. project. rewrite length_insert.
      repeat split; try assumption; discriminate.
    + eexists. split; [reflexivity|]. project. rewrite length_insert, app_nil_r.
      repeat split; try assumption; discriminate.
Qed.

Lemma showTab_frame n s :
  let s' := final (Wizard.showTab fixStepIndicator n s) in
  currentTab s' = currentTab s /\ inputs (doc s') = inputs (doc s).
Proof.
  cbn zeta.
  destruct (decide (0 <= n < Z.of_nat (length (tabs (doc s))))%Z) as [Hn|Hn].
  - destruct (showTab_in_range n s Hn) as (s' & -> & Hc & _ & _ & _ & _ & Hi & _ & _).
    now split.
  - destruct (tabs (doc s)) as [|t r] eqn:Et.
    + unfold Wizard.showTab. run_M. project. rewrite Et. now project.
    + destruct (showTab_out_of_range n s) as (s' & -> & Hc & Hi); [congruence | now rewrite Et |].
      now split.
Qed.

(** Backward moves never consult [validateForm]. *)
Lemma nextPrev_backward s :
  let s' := final (Wizard.nextPrev validateForm fixStepIndicator (-1) s) in
  currentTab s' = (currentTab s - 1)%Z /\ inputs (doc s') = inputs (doc s).
Proof.
  cbn zeta. unfold Wizard.nextPrev. change (-1 =? 1)%Z with false. run_M.
  set (s1 := match Js.index (tabs (doc s)) (currentTab s) with
             | Some _ => set_tabs (<[Z.to_nat (currentTab s):="none"]> (tabs (doc s))) s
             | None => s
             end).
  assert (Hs1 : currentTab s1 = currentTab s /\ inputs (doc s1) = inputs (doc s))
    by (subst s1; destruct (Js.index _ _); now split).
  replace (match Js.index (tabs (doc s)) (currentTab s) with
           | Some _ => fun s1 => Return tt (set_tabs _ s1)
           | None => fun s0 => Return tt s0
           end s) with (Return tt s1) by (subst s1; now destruct (Js.index _ _)).
  destruct Hs1 as [Hc Hi]. project.
  destruct (Z.leb _ _).
  - destruct (form (doc s1)); project; split; (lia || assumption).
  - pose proof (showTab_frame (currentTab s1 + -1) (set_currentTab (currentTab s1 + -1) s1)) as Hf.
    cbn zeta in Hf. revert Hf. project.
    destruct (Wizard.showTab _ _ _); project; intros [-> ->]; split; (lia || assumption).
Qed.

Lemma nextPrev_backward_in_range s :
  (1 <= currentTab s < Z.of_nat (length (tabs (doc s))))%Z ->
  exists s',
    Wizard.nextPrev validateForm fixStepIndicator (-1) s = Return None s' /\
    currentTab s' = (currentTab s - 1)%Z /\
    length (tabs (doc s')) = length (tabs (doc s)) /\
    form (doc s') = form (doc s) /\
    log s' = (log s ++ [ShowTab (currentTab s - 1)])%list /\
    prevBtn (doc s') =
      (fun _ => if (currentTab s - 1 =? 0)%Z then "none" else "inline") <$> prevBtn (doc s).
Proof.
  intros Hc. unfold Wizard.nextPrev. change (-1 =? 1)%Z with false. run_M.
  destruct (index_Some (tabs (doc s)) (currentTab s)) as [x ->]; [lia|]. project.
  rewrite length_insert.
  destruct (Z.leb_spec (Z.of_nat (length (tabs (doc s)))) (currentTab s + -1)); [lia|].
  match goal with |- context [Wizard.showTab fixStepIndicator ?n ?st] =>
    destruct (showTab_in_range n st) as (s' & -> & Hct & Hlog & Htabs & Hprev & Hnext & Hin & Hform & _)
  end.
  { project. rewrite length_insert. lia. }
  revert Hct Hlog Htabs Hprev Hin Hform. project. intros.
  exists s'. split; [reflexivity|].
  replace (currentTab s - 1)%Z with (currentTab s + -1)%Z by lia.
  repeat split; try assumption.
  rewrite Htabs. unfold hide_all_but. now rewrite length_insert, length_fmap, length_insert.
Qed.
End SharedFacts.

Lemma student_fix_steps n s :
  Student.fixStepIndicator n s = Return tt (set_steps (student_indicator n (steps (doc s))) s).
Proof. reflexivity. Qed.

Lemma teacher_fix_steps n s :
  Teacher.fixStepIndicator n s = Return tt (set_steps (teacher_indicator n (steps (doc s))) s).
Proof. reflexivity. Qed.

(** *** [validateForm] of the teacher wizard *)

Lemma teacher_validate_eq s :
  tab_exists s ->
  let l := inputs (doc s) in
  let idxs := tab_fields (currentTab s) l in
  let s1 := set_inputs (alter_all teacher_mark idxs l) s in
  let valid := forallb (fun i => negb (at_index teacher_offending l i)) idxs in
  Teacher.validateForm s =
  Return valid
    (if valid then
       match Js.index (steps (doc s)) (currentTab s) with
       | Some _ => mark_finished (classList_add "finish") s1
       | None => s1
       end
     else s1).
Proof.
  intros Ht. cbn zeta. unfold Teacher.validateForm.
  destruct (index_Some _ _ Ht) as [x ->].
  rewrite <- teacher_loop_valid, <- (teacher_loop_store _ _ true).
  now destruct (fold_left Teacher.check_field _ _).
Qed.

Lemma teacher_validate_blocked s s' :
  Teacher.validateForm s = Return false s' ->
  same_navigation s s' /\ log s' = log s /\ tab_exists s.
Proof.
  intros H. destruct (decide (tab_exists s)) as [Ht|Ht].
  - rewrite (teacher_validate_eq s Ht) in H. cbn zeta in H.
    destruct (forallb _ _); [discriminate|]. injection H as <-.
    repeat split; try reflexivity; apply Ht.
  - unfold Teacher.validateForm in H. rewrite index_None in H by exact Ht. discriminate.
Qed.

(** *** The [regForm] wizard *)

Lemma regform_validate_eq s :
  tab_exists s ->
  let l := inputs (doc s) in
  let y := tab_inputs (currentTab s) l in
  let s1 := set_inputs (alter_all regform_mark y l) s in
  RegForm.validateForm s =
  if forallb (fun i => negb (at_index regform_offending l i)) y then
    match Js.index (steps (doc s)) (currentTab s) with
    | Some _ => Return true (mark_finished (fun c => c ++ " finish") s1)
    | None => Throw s1
    end
  else Return false s1.
Proof.
  intros Ht. cbn zeta. unfold RegForm.validateForm.
  destruct (index_Some _ _ Ht) as [x ->].
  rewrite <- regform_loop_valid, <- (regform_loop_store _ _ true).
  now destruct (fold_left RegForm.check_input _ _) as [l [|]].
Qed.

Lemma regform_validate_returns s v s' :
  RegForm.validateForm s = Return v s' -> tab_exists s.
Proof.
  intros H. destruct (decide (tab_exists s)) as [Ht|Ht]; [assumption|].
  unfold RegForm.validateForm in H. rewrite index_None in H by exact Ht. discriminate.
Qed.

Lemma regform_fix_in_range n s :
  Forall keeps_step (steps (doc s)) ->
  (0 <= n < Z.of_nat (length (steps (doc s))))%Z ->
  exists x, length x = length (steps (doc s)) /\ Forall keeps_step x /\
            RegForm.fixStepIndicator n s = Return tt (set_steps x s).
Proof.
  intros Hk Hn. unfold RegForm.fixStepIndicator.
  rewrite (unset_active_keeps _ Hk).
  destruct (index_Some (replace_first " active" <$> steps (doc s)) n) as [x ->].
  { now rewrite length_fmap. }
  eexists. split; [|split; [|reflexivity]].
  - now rewrite length_alter, length_fmap.
  - apply Forall_alter_keeps; [exact keeps_step_active|].
    apply Forall_fmap. revert Hk. apply List.Forall_impl.
    exact keeps_step_unset.
Qed.

Lemma regform_showTab_in_range n s :
  regform_page s ->
  (0 <= n < Z.of_nat (length (tabs (doc s))))%Z ->
  exists s', RegForm.showTab n s = Return tt s' /\
    currentTab s' = currentTab s /\ log s' = (log s ++ [ShowTab n])%list /\
    length (tabs (doc s')) = length (tabs (doc s)) /\
    inputs (doc s') = inputs (doc s) /\ regform_page s'.
Proof.
  intros (Hp & Hx & Hlen & Hk & Hf) Hn. unfold RegForm.showTab. run_M. project.
  destruct (index_Some _ _ Hn) as [x ->].
  destruct (prevBtn (doc s)) as [p|] eqn:Ep; [|congruence].
  destruct (nextBtn (doc s)) as [q|] eqn:Eq; [|congruence].
  match goal with |- context [RegForm.fixStepIndicator n ?st] =>
    destruct (regform_fix_in_range n st) as (y & Hy & Hky & ->) end.
  { project. exact Hk. }
  { project. lia. }
  revert Hy. project. intros Hy.
  eexists. split; [reflexivity|]. unfold regform_page. project.
  rewrite length_insert, Hy. repeat split; try assumption; discriminate.
Qed.

Lemma regform_forward s s1 :
  RegForm.validateForm s = Return true s1 ->
  regform_page s1 ->
  (0 <= currentTab s1 < Z.of_nat (length (tabs (doc s1))))%Z ->
  exists s',
    RegForm.nextPrev 1 s =
      Return (if (currentTab s1 + 1 <? Z.of_nat (length (tabs (doc s1))))%Z
              then None else Some false) s' /\
    currentTab s' = (currentTab s1 + 1)%Z /\
    length (tabs (doc s')) = length (tabs (doc s1)) /\
    regform_page s' /\
    log s' = (log s1 ++
      [if (currentTab s1 + 1 <? Z.of_nat (length (tabs (doc s1))))%Z
       then ShowTab (currentTab s1 + 1) else Submit])%list.
Proof.
  intros Hv Hpage Hc. unfold RegForm.nextPrev. change (1 =? 1)%Z with true. run_M.
  rewrite Hv. cbn [negb]. destruct (index_Some _ _ Hc) as [x ->]. project.
  rewrite length_insert.
  assert (Hpage' : regform_page
            (set_currentTab (currentTab s1 + 1)
               (set_tabs (<[Z.to_nat (currentTab s1):="none"]> (tabs (doc s1))) s1))).
  { destruct Hpage as (? & ? & ? & ? & ?). unfold regform_page. project.
    now rewrite length_insert. }
  destruct (Z.ltb_spec (currentTab s1 + 1) (Z.of_nat (length (tabs (doc s1))))) as [Hlt|Hge].
  - destruct (Z.leb_spec (Z.of_nat (length (tabs (doc s1)))) (currentTab s1 + 1)); [lia|].
    match goal with |- context [RegForm.showTab ?n ?st] =>
      destruct (regform_showTab_in_range n st Hpage')
        as (s' & -> & Hct & Hlog & Htabs & Hin & Hp')
    end.
    { project. rewrite length_insert. lia. }
    revert Hct Hlog Htabs. project. rewrite length_insert. intros.
    exists s'. split; [reflexivity|]. repeat (split; [assumption|]). assumption.
  - destruct (Z.leb_spec (Z.of_nat (length (tabs (doc s1)))) (currentTab s1 + 1)); [|lia].
    assert (form (doc s1) = true) as -> by apply Hpage.
    eexists. split; [reflexivity|]. project. rewrite length_insert.
    repeat (split; [reflexivity|]). split; [exact Hpage' | reflexivity].
Qed.

Section Runs.
Variable validateForm : M bool.
Variable nextPrev : Z -> M (option bool).

Variable ok : State -> Prop.
Hypothesis ok_edit : forall s l, ok s -> ok (set_inputs l s).
Hypothesis step : forall s s1,
  ok s -> tab_exists s -> validateForm s = Return true s1 ->
  exists s',
    nextPrev 1 s =
      Return (if (currentTab s + 1 <? Z.of_nat (length (tabs (doc s))))%Z
              then None else Some false) s' /\
    currentTab s' = (currentTab s + 1)%Z /\
    length (tabs (doc s')) = length (tabs (doc s)) /\
    ok s' /\
    calls (log s') = (calls (log s) ++
      [if (currentTab s + 1 <? Z.of_nat (length (tabs (doc s))))%Z
       then ShowTab (currentTab s + 1) else Submit])%list.

(** ** Runs of passing clicks *)

Lemma active_calls s : active s <-> ~ In Submit (calls (log s)).
Proof.
  unfold active, calls. rewrite List.filter_In. intuition.
Qed.

Lemma displays_snoc c k :
  displays c (S k) = (displays c k ++ [ShowTab (c + Z.of_nat (S k))])%list.
Proof. unfold displays. now rewrite seq_S, List.map_app. Qed.

Lemma displays_cons c k :
  displays c (S k) = ShowTab (c + 1) :: displays (c + 1) k.
Proof.
  unfold displays. cbn [seq List.map]. f_equal.
  rewrite <- seq_shift, List.map_map. apply List.map_ext. intros j. f_equal. lia.
Qed.

Lemma forward_run k s s' :
  ok s -> tab_exists s -> active s -> forward validateForm nextPrev k s s' ->
  (currentTab s + Z.of_nat k <= Z.of_nat (length (tabs (doc s))))%Z /\
  currentTab s' = (currentTab s + Z.of_nat k)%Z /\
  length (tabs (doc s')) = length (tabs (doc s)) /\
  calls (log s') = (calls (log s) ++
    (if (currentTab s + Z.of_nat k <? Z.of_nat (length (tabs (doc s))))%Z
     then displays (currentTab s) k
     else displays (currentTab s) (k - 1) ++ [Submit]))%list.
Proof.
  intros Hok Ht Ha Hrun. revert Hok Ht Ha.
  induction Hrun as [s|k s s1 s2 Hadv Hrun IH]; intros Hok Ht Ha.
  - unfold tab_exists in Ht. rewrite Z.add_0_r.
    destruct (Z.ltb_spec (currentTab s) (Z.of_nat (length (tabs (doc s))))); [|lia].
    cbn. rewrite app_nil_r. repeat split; lia.
  - destruct Hadv as [s l sv _ Hv].
    destruct (step (set_inputs l s) sv (ok_edit s l Hok) Ht Hv)
      as (s' & Hnp & Hc & Hlen & Hok' & Hcalls).
    rewrite Hnp in *. cbn [final] in *. revert Hc Hlen Hcalls. project. intros.
    destruct (Z.ltb_spec (currentTab s + 1) (Z.of_nat (length (tabs (doc s))))) as [Hlt|Hge].
    + destruct IH as (Hle & Hc2 & Hlen2 & Hcalls2); [assumption | unfold tab_exists in *; lia | |].
      { apply active_calls. rewrite Hcalls, in_app_iff. intros [H|[H|[]]]; [|discriminate].
        now apply active_calls in Ha. }
      rewrite Hc, Hlen in *. split; [lia|]. split; [lia|]. split; [lia|].
      rewrite Hcalls2, Hcalls, <- app_assoc. f_equal.
      replace (currentTab s + 1 + Z.of_nat k)%Z with (currentTab s + Z.of_nat (S k))%Z by lia.
      destruct (Z.ltb_spec (currentTab s + Z.of_nat (S k)) (Z.of_nat (length (tabs (doc s))))).
      * now rewrite displays_cons.
      * destruct k as [|k]; [lia|]. cbn [Nat.sub]. rewrite Nat.sub_0_r.
        now rewrite (displays_cons _ k).
    + assert (k = 0%nat) as ->.
      { inversion Hrun as [|? ? ? ? Hadv2]; subst; [reflexivity|].
        destruct Hadv2 as [? ? ? Ha2 _]. exfalso.
        apply active_calls in Ha2. apply Ha2. rewrite Hcalls, in_app_iff.
        right. now left. }
      inversion Hrun; subst. unfold tab_exists in Ht.
      split; [lia|]. split; [lia|]. split; [lia|].
      destruct (Z.ltb_spec (currentTab s + Z.of_nat 1) (Z.of_nat (length (tabs (doc s))))); [lia|].
      exact Hcalls.
Qed.
End Runs.

Lemma student_step s s1 :
  form (doc s) = true -> tab_exists s -> Student.validateForm s = Return true s1 ->
  exists s',
    Student.nextPrev 1 s =
      Return (if (currentTab s + 1 <? Z.of_nat (length (tabs (doc s))))%Z
              then None else Some false) s' /\
    currentTab s' = (currentTab s + 1)%Z /\
    length (tabs (doc s')) = length (tabs (doc s)) /\
    form (doc s') = true /\
    calls (log s') = (calls (log s) ++
      [if (currentTab s + 1 <? Z.of_nat (length (tabs (doc s))))%Z
       then ShowTab (currentTab s + 1) else Submit])%list.
Proof.
  intros Hf Ht Hv.
  destruct (student_validate_frame s true s1 Hv) as ((Hc & Htabs & _ & _ & _ & Hform) & Hcalls & _).
  destruct (nextPrev_forward Student.validateForm Student.fixStepIndicator student_indicator student_fix_steps s s1 Hv)
    as (s' & Hnp & Hc' & Hlen & Hform' & _ & Hlog & _).
  { rewrite Hc, Htabs. exact Ht. }
  rewrite Hc, Htabs, Hform, Hf in *.
  exists s'. split; [exact Hnp|]. repeat (split; [assumption|]).
  rewrite Hlog, calls_app, Hcalls. f_equal.
  now destruct (_ <? _)%Z.
Qed.

Lemma regform_validate_frame s s1 :
  RegForm.validateForm s = Return true s1 ->
  tab_exists s /\ currentTab s1 = currentTab s /\ tabs (doc s1) = tabs (doc s) /\
  log s1 = log s /\ (regform_page s -> regform_page s1).
Proof.
  intros Hv. pose proof (regform_validate_returns s true s1 Hv) as Ht.
  split; [assumption|]. rewrite (regform_validate_eq s Ht) in Hv. cbn zeta in Hv.
  destruct (forallb _ _); [|discriminate].
  destruct (Js.index _ _); [|discriminate]. injection Hv as <-.
  unfold mark_finished, regform_page. project. rewrite length_alter.
  repeat (split; [reflexivity|]).
  intros (? & ? & ? & Hk & ?). repeat (split; [assumption|]).
  split; [|assumption].
  apply Forall_alter_keeps; [exact keeps_step_finish | exact Hk].
Qed.

Lemma regform_step s s1 :
  regform_page s -> tab_exists s -> RegForm.validateForm s = Return true s1 ->
  exists s',
    RegForm.nextPrev 1 s =
      Return (if (currentTab s + 1 <? Z.of_nat (length (tabs (doc s))))%Z
              then None else Some false) s' /\
    currentTab s' = (currentTab s + 1)%Z /\
    length (tabs (doc s')) = length (tabs (doc s)) /\
    regform_page s' /\
    calls (log s') = (calls (log s) ++
      [if (currentTab s + 1 <? Z.of_nat (length (tabs (doc s))))%Z
       then ShowTab (currentTab s + 1) else Submit])%list.
Proof.
  intros Hp Ht Hv.
  destruct (regform_validate_frame s s1 Hv) as (_ & Hc & Htabs & Hlog1 & Hp1).
  destruct (regform_forward s s1 Hv (Hp1 Hp)) as (s' & Hnp & Hc' & Hlen & Hp' & Hlog).
  { rewrite Hc, Htabs. exact Ht. }
  rewrite Hc, Htabs, Hlog1 in *.
  exists s'. split; [exact Hnp|]. repeat (split; [assumption|]).
  rewrite Hlog, calls_app. f_equal. now destruct (_ <? _)%Z.
Qed.

(** C2. A click on Next whose validation passes returns, raises
    [currentTab] by exactly one and calls [showTab currentTab] as long as
    the new value is below the number of tabs; the click that reaches the
    number of tabs submits the form and calls no [showTab].  So [k] such
    clicks in a row, with any edits of the fields in between, take
    [currentTab] from [c] to [c + k], display the steps [c+1], ...,
    [c+k] in order, and end with the submission once [c + k] is the
    number of tabs; no passing click follows a submission.  This holds
    for the student wizard on a page that has the form, and for the
    [regForm] wizard on a page that has the buttons, the form and a step
    marker per tab, none of which the wizard takes out of the collection
    of the [step] elements by rewriting its class. *)
Theorem forward_until_submit :
  (forall s s1,
     form (doc s) = true -> tab_exists s ->
     Student.validateForm s = Return true s1 ->
     steps_forward Student.nextPrev s) /\
  (forall k s s',
     form (doc s) = true -> tab_exists s -> active s ->
     forward Student.validateForm Student.nextPrev k s s' ->
     runs_forward k s s') /\
  (forall s s1,
     regform_page s -> tab_exists s ->
     RegForm.validateForm s = Return true s1 ->
     steps_forward RegForm.nextPrev s) /\
  (forall k s s',
     regform_page s -> tab_exists s -> active s ->
     forward RegForm.validateForm RegForm.nextPrev k s s' ->
     runs_forward k s s').
Proof.
  split; [|split; [|split]].
  - intros s s1 Hf Ht Hv.
    destruct (student_step s s1 Hf Ht Hv) as (s' & Hnp & Hc & _ & _ & Hcalls).
    exists s'. auto.
  - intros k s s' Hf Ht Ha Hrun.
    destruct (forward_run Student.validateForm Student.nextPrev
                (fun s => form (doc s) = true) (fun s l H => H) student_step
                k s s' Hf Ht Ha Hrun) as (H1 & H2 & _ & H3).
    repeat split; assumption.
  - intros s s1 Hp Ht Hv.
    destruct (regform_step s s1 Hp Ht Hv) as (s' & Hnp & Hc & _ & _ & Hcalls).
    exists s'. auto.
  - intros k s s' Hp Ht Ha Hrun.
    destruct (forward_run RegForm.validateForm RegForm.nextPrev
                regform_page (fun s l H => H) regform_step
                k s s' Hp Ht Ha Hrun) as (H1 & H2 & _ & H3).
    repeat split; assumption.
Qed.

(** C1. In the student and in the teacher wizard, [nextPrev 1] in a state
    whose validation fails returns [false] in the state that
    [validateForm] left: [currentTab], the displays of the tabs, the
    indicator and the buttons are as before the call, and no [showTab] or
    [submit] call is made.  [nextPrev (-1)] always moves: it lowers
    [currentTab] by one and touches no field, whatever the fields hold. *)
Theorem blocked_when_invalid :
  (forall s s',
     Student.validateForm s = Return false s' ->
     Student.nextPrev 1 s = Return (Some false) s' /\
     same_navigation s s' /\ calls (log s') = calls (log s)) /\
  (forall s s',
     Teacher.validateForm s = Return false s' ->
     Teacher.nextPrev 1 s = Return (Some false) s' /\
     same_navigation s s' /\ log s' = log s) /\
  (forall s,
     currentTab (final (Student.nextPrev (-1) s)) = (currentTab s - 1)%Z /\
     inputs (doc (final (Student.nextPrev (-1) s))) = inputs (doc s)) /\
  (forall s,
     currentTab (final (Teacher.nextPrev (-1) s)) = (currentTab s - 1)%Z /\
     inputs (doc (final (Teacher.nextPrev (-1) s))) = inputs (doc s)).
Proof.
  split; [|split; [|split]].
  - intros s s' Hv. split; [now apply nextPrev_blocked|].
    destruct (student_validate_frame s false s' Hv) as (Hn & Hc & _). now split.
  - intros s s' Hv. split; [now apply nextPrev_blocked|].
    destruct (teacher_validate_blocked s s' Hv) as (Hn & Hl & _). now split.
  - intros s. apply (nextPrev_backward Student.validateForm Student.fixStepIndicator student_indicator student_fix_steps).
  - intros s. apply (nextPrev_backward Teacher.validateForm Teacher.fixStepIndicator teacher_indicator teacher_fix_steps).
Qed.

(** ** Reachable states of the student wizard *)

Lemma student_validate_returns s : exists v s', Student.validateForm s = Return v s'.
Proof.
  unfold Student.validateForm. destruct (Js.index _ _); [|eauto].
  destruct (fold_left _ _ _). eauto.
Qed.

Lemma reachable_inv d s :
  tabs d <> [] -> form d = true -> reachable d s -> wizard_inv d s.
Proof.
  intros Hne Hf Hr. induction Hr as [|s l Hr IH|s Hr IH Ha|s Hr IH Ha Hp].
  - destruct (showTab_in_range Student.fixStepIndicator student_indicator student_fix_steps 0
                {| doc := d; currentTab := 0; log := [] |})
      as (s' & Hs & Hc & Hlog & Htabs & Hprev & _ & _ & Hform & _).
    { project. destruct (tabs d); [congruence | cbn [length]; lia]. }
    unfold Student.showTab. rewrite Hs. cbn [final]. revert Hc Htabs Hprev Hform. project.
    intros. unfold wizard_inv, tab_exists.
    rewrite Htabs. unfold hide_all_but. rewrite length_insert, length_fmap.
    split; [reflexivity|]. split; [congruence|]. intros _. rewrite Hc. split.
    + destruct (tabs d); [congruence | cbn [length]; lia].
    + intros _ v Hv. rewrite Hprev in Hv. destruct (prevBtn d); [|discriminate].
      now injection Hv as <-.
  - exact IH.
  - destruct IH as (Hlen & Hform & Hact). destruct (Hact Ha) as [Ht Hz].
    destruct (student_validate_returns s) as (v & s1 & Hv).
    destruct (student_validate_frame s v s1 Hv)
      as ((Hc1 & Ht1 & _ & Hp1 & _ & Hf1) & Hcalls1 & _).
    destruct v.
    + destruct (nextPrev_forward Student.validateForm Student.fixStepIndicator
                  student_indicator student_fix_steps s s1 Hv)
        as (s' & Hnp & Hc' & Hlen' & Hform' & _ & Hlog & _).
      { rewrite Hc1, Ht1. exact Ht. }
      unfold Student.nextPrev. rewrite Hnp. cbn [final].
      rewrite Hc1, Ht1, Hf1, Hform in *. unfold wizard_inv.
      split; [congruence|]. split; [assumption|]. intros Ha'.
      destruct (Z.ltb_spec (currentTab s + 1) (Z.of_nat (length (tabs (doc s))))) as [Hlt|Hge].
      * unfold tab_exists in *. rewrite Hc', Hlen'. split; [lia|]. intros; lia.
      * exfalso. apply Ha'. rewrite Hlog, in_app_iff. right. now left.
    + unfold Student.nextPrev.
      rewrite (nextPrev_blocked Student.validateForm Student.fixStepIndicator s s1 Hv).
      cbn [final]. unfold wizard_inv, tab_exists in *.
      rewrite Hc1, Ht1, Hf1, Hp1. split; [assumption|]. split; [assumption|].
      intros _. split; [exact Ht | exact Hz].
  - destruct IH as (Hlen & Hform & Hact). destruct (Hact Ha) as [Ht Hz].
    destruct Hp as (v & Hv & Hnone).
    assert (Hc : (1 <= currentTab s < Z.of_nat (length (tabs (doc s))))%Z).
    { unfold tab_exists in Ht. destruct (Z.eq_dec (currentTab s) 0%Z) as [E|N]; [|lia].
      exfalso. apply Hnone. now apply Hz. }
    destruct (nextPrev_backward_in_range Student.validateForm Student.fixStepIndicator
                student_indicator student_fix_steps s Hc)
      as (s' & Hnp & Hc' & Hlen' & Hform' & _ & Hprev).
    unfold Student.nextPrev. rewrite Hnp. cbn [final]. unfold wizard_inv, tab_exists.
    rewrite Hc', Hlen', Hform'. split; [assumption|]. split; [assumption|].
    intros _. split; [lia|]. intros E w Hw. rewrite Hprev, Hv in Hw.
    cbn in Hw. destruct (Z.eqb_spec (currentTab s - 1) 0%Z); [|lia].
    now injection Hw as <-.
Qed.

(** C8. On a page with at least one tab and with the form, every state
    that the user can bring about in the student wizard (tab 0 shown on
    load, then edits, Next, and Previous while that button is shown) and
    in which the form has not been submitted has
    [0 <= currentTab < stepCount]; the number of tabs never changes. *)
Theorem currentTab_in_range d s :
  tabs d <> [] -> form d = true ->
  reachable d s -> active s ->
  (0 <= currentTab s < Z.of_nat (length (tabs (doc s))))%Z /\
  length (tabs (doc s)) = length (tabs d).
Proof.
  intros Hne Hf Hr Ha. destruct (reachable_inv d s Hne Hf Hr) as (Hlen & _ & Hact).
  split; [apply (Hact Ha) | exact Hlen].
Qed.

(** ** Marks after [validateForm] *)

Lemma same_shape_alter_any (g : Field -> Field) (i : nat) (l : list Field) :
  (forall x, shape (g x) = shape x) -> same_shape l (alter g i l).
Proof.
  intros Hg. unfold same_shape. revert i.
  induction l as [|f l IH]; intros [|i]; simpl; try reflexivity.
  - now rewrite Hg.
  - f_equal. apply IH.
Qed.

Lemma same_shape_alter_all g idxs l :
  (forall x, shape (g x) = shape x) -> same_shape l (alter_all g idxs l).
Proof.
  intros Hg. unfold alter_all. revert l.
  induction idxs as [|a idxs IH]; intros l; [reflexivity|]. cbn [fold_left].
  eapply same_shape_trans; [apply (same_shape_alter_any g a l Hg) | apply IH].
Qed.

Lemma in_tab_same c l l' i :
  same_shape l l' -> at_index (in_tab c) l i = at_index (in_tab c) l' i.
Proof.
  intros H. apply at_index_shape; [assumption|].
  intros f f' Hf. unfold in_tab.
  assert (tabOf f = tabOf f') as -> by exact (f_equal tabOf Hf). reflexivity.
Qed.

Lemma in_tab_fields_after c l l' i f' :
  same_shape l l' -> l' !! i = Some f' -> in_tab c f' = true -> In i (tab_fields c l).
Proof.
  intros Hs Hl Hc. apply In_tab_fields. rewrite (in_tab_same c l l' i Hs).
  unfold at_index. now rewrite Hl.
Qed.

Lemma student_inputs_after s :
  tab_exists s ->
  exists s', Student.validateForm s =
    Return (forallb (fun i => negb (at_index (student_offending (inputs (doc s)))
                                      (inputs (doc s)) i))
              (tab_fields (currentTab s) (inputs (doc s)))) s' /\
    inputs (doc s') =
      fst (fold_left Student.check_field (tab_fields (currentTab s) (inputs (doc s)))
             (inputs (doc s), true)).
Proof.
  intros Ht. rewrite (student_validate_eq s Ht). cbn zeta.
  eexists. split; [reflexivity|]. now destruct (first_invalid _ _).
Qed.


Lemma student_success_clears s s' i f' :
  Student.validateForm s = Return true s' -> tab_exists s ->
  inputs (doc s') !! i = Some f' -> in_tab (currentTab s) f' = true ->
  is_invalid f' = false.
Proof.
  intros Hv Ht Hl Hc.
  destruct (student_inputs_after s Ht) as (s'' & Hv' & Hin).
  rewrite Hv in Hv'. injection Hv' as Hvalid <-. symmetry in Hvalid.
  rewrite (student_loop_clear _ _ Hvalid) in Hin. cbn [fst] in Hin. rewrite Hin in Hl.
  eapply (alter_all_in (fun x => is_invalid x = false));
    [exact is_invalid_remove | | exact Hl].
  eapply in_tab_fields_after; [|exact Hl|exact Hc].
  apply same_shape_alter_all. reflexivity.
Qed.

Lemma group_hits_shape l l' g g' f f' :
  same_shape l l' -> shape g = shape g' -> shape f = shape f' ->
  group_hits l g f = group_hits l' g' f'.
Proof.
  intros Hl Hg Hf. unfold group_hits, matches_input_name.
  rewrite (student_offending_shape l l' g g' Hl Hg).
  assert (kind g = kind g') as -> by exact (f_equal kind Hg).
  assert (name g = name g') as -> by exact (f_equal name Hg).
  assert (kind f = kind f') as -> by exact (f_equal kind Hf).
  assert (nameAttr f = nameAttr f') as -> by exact (f_equal nameAttr Hf).
  reflexivity.
Qed.

Lemma student_check_untouched l v a i g f :
  a <> i -> l !! a = Some g -> l !! i = Some f -> group_hits l g f = false ->
  fst (Student.check_field (l, v) a) !! i = Some f.
Proof.
  intros Hne Ha Hi Hh. rewrite (student_check_cases l v a g Ha). cbn zeta.
  unfold group_hits in Hh.
  destruct (student_offending l g); [|cbn [fst]; now rewrite list_lookup_alter_ne].
  destruct (type_of (kind g) =? "radio"); cbn [fst].
  - rewrite list_lookup_fmap, list_lookup_alter_ne, Hi by assumption.
    cbn [fmap option_fmap option_map]. cbn in Hh. now rewrite Hh.
  - now rewrite !list_lookup_alter_ne.
Qed.

Lemma student_loop_untouched l0 idxs l v i f0 :
  same_shape l0 l -> ~ In i idxs -> l0 !! i = Some f0 ->
  (forall a g, In a idxs -> l0 !! a = Some g -> group_hits l0 g f0 = false) ->
  fst (fold_left Student.check_field idxs (l, v)) !! i = l !! i.
Proof.
  revert l v. induction idxs as [|a idxs IH]; intros l v Hs Hn Hi Hh; [reflexivity|].
  cbn [fold_left]. pose proof (student_check_shape l v a) as Hs1.
  assert (Hai : a <> i) by (intros ->; apply Hn; now left).
  assert (Hstep : fst (Student.check_field (l, v) a) !! i = l !! i).
  { pose proof (same_shape_lookup l0 l i Hs) as Hli. rewrite Hi in Hli.
    destruct (l !! i) as [f|] eqn:Ef; [|discriminate].
    assert (Hf : shape f0 = shape f) by (cbn in Hli; congruence).
    pose proof (same_shape_lookup l0 l a Hs) as Hla.
    destruct (l !! a) as [g|] eqn:Eg.
    - destruct (l0 !! a) as [g0|] eqn:Eg0; [|discriminate].
      assert (Hg : shape g0 = shape g) by (cbn in Hla; congruence).
      apply (student_check_untouched l v a i g f Hai Eg Ef).
      rewrite <- (group_hits_shape l0 l g0 g f0 f Hs Hg Hf).
      apply (Hh a g0); [now left | exact Eg0].
    - unfold Student.check_field. rewrite list_lookup_alter_eq, Eg.
      cbn [fmap option_fmap option_map fst]. now rewrite list_lookup_alter_ne. }
  destruct (Student.check_field (l, v) a) as [l1 v1]. cbn [fst] in Hs1, Hstep.
  rewrite <- Hstep. apply IH; try assumption.
  - eapply same_shape_trans; eassumption.
  - intros H. apply Hn. now right.
  - intros b g Hb. apply Hh. now right.
Qed.

Lemma student_loop_resets l0 idxs l v i f0 :
  same_shape l0 l -> List.NoDup idxs -> In i idxs -> l0 !! i = Some f0 ->
  student_offending l0 f0 = false ->
  (forall a g, In a idxs -> a <> i -> l0 !! a = Some g -> group_hits l0 g f0 = false) ->
  fst (fold_left Student.check_field idxs (l, v)) !! i = Wizard.remove_invalid <$> l !! i.
Proof.
  revert l v. induction idxs as [|a idxs IH]; intros l v Hs Hnd Hin Hi Ho Hh; [destruct Hin|].
  inversion Hnd as [|? ? Ha Hnd']; subst. cbn [fold_left].
  pose proof (student_check_shape l v a) as Hs1.
  destruct Hin as [->|Hin].
  - assert (Hok : at_index (student_offending l) l i = false).
    { rewrite <- (student_bad_shape l0 l i Hs). unfold at_index. now rewrite Hi. }
    rewrite (student_check_ok l v i Hok).
    rewrite (student_loop_untouched l0 idxs _ v i f0); try assumption.
    + apply list_lookup_alter_eq.
    + eapply same_shape_trans; [exact Hs | apply same_shape_alter].
    + intros b g Hb. apply Hh; [now right|]. intros ->. contradiction.
  - assert (Hai : a <> i) by (intros ->; contradiction).
    assert (Hstep : fst (Student.check_field (l, v) a) !! i = l !! i).
    { apply (student_loop_untouched l0 [a] l v i f0 Hs); [|assumption|].
      - intros [H|[]]. contradiction.
      - intros b g [<-|[]]. apply Hh; [now left | assumption]. }
    destruct (Student.check_field (l, v) a) as [l1 v1]. cbn [fst] in Hs1, Hstep.
    rewrite <- Hstep. apply IH; try assumption.
    + eapply same_shape_trans; eassumption.
    + intros b g Hb. apply Hh. now right.
Qed.

Lemma student_resets_mark s s' v i f :
  Student.validateForm s = Return v s' -> tab_exists s ->
  inputs (doc s) !! i = Some f -> in_tab (currentTab s) f = true ->
  student_offending (inputs (doc s)) f = false ->
  (forall j g, j <> i -> inputs (doc s) !! j = Some g -> in_tab (currentTab s) g = true ->
     group_hits (inputs (doc s)) g f = false) ->
  unmarked_in s' i.
Proof.
  intros Hv Ht Hl Hc Ho Hh. unfold unmarked_in.
  destruct (student_inputs_after s Ht) as (s'' & Hv' & Hin).
  rewrite Hv in Hv'. injection Hv' as _ <-. rewrite Hin. unfold at_index.
  rewrite (student_loop_resets (inputs (doc s)) _ _ true i f); try assumption.
  - rewrite Hl. cbn [fmap option_fmap option_map]. apply is_invalid_remove.
  - apply same_shape_refl.
  - apply NoDup_indices_from.
  - apply In_tab_fields. unfold at_index. now rewrite Hl.
  - intros a g Ha Hai Hg. apply (Hh a g Hai Hg).
    apply In_tab_fields in Ha. unfold at_index in Ha. now rewrite Hg in Ha.
Qed.

Lemma teacher_mark_shape x : shape (teacher_mark x) = shape x.
Proof. unfold teacher_mark. destruct (teacher_offending x); reflexivity. Qed.

Lemma teacher_mark_exact x : is_invalid (teacher_mark x) = teacher_offending (teacher_mark x).
Proof.
  assert (teacher_offending (teacher_mark x) = teacher_offending x) as ->.
  { unfold teacher_mark. destruct (teacher_offending x) eqn:E; exact E. }
  unfold teacher_mark. destruct (teacher_offending x).
  - apply is_invalid_add.
  - apply is_invalid_remove.
Qed.

Lemma teacher_inputs_after s :
  tab_exists s ->
  exists s', Teacher.validateForm s =
    Return (forallb (fun i => negb (at_index teacher_offending (inputs (doc s)) i))
              (tab_fields (currentTab s) (inputs (doc s)))) s' /\
    inputs (doc s') =
      alter_all teacher_mark (tab_fields (currentTab s) (inputs (doc s))) (inputs (doc s)).
Proof.
  intros Ht. rewrite (teacher_validate_eq s Ht). cbn zeta.
  eexists. split; [reflexivity|].
  destruct (forallb _ _); [|reflexivity]. now destruct (Js.index _ _).
Qed.

Lemma teacher_marks_exact s s' v i f' :
  Teacher.validateForm s = Return v s' -> tab_exists s ->
  inputs (doc s') !! i = Some f' -> in_tab (currentTab s) f' = true ->
  is_invalid f' = teacher_offending f'.
Proof.
  intros Hv Ht Hl Hc.
  destruct (teacher_inputs_after s Ht) as (s'' & Hv' & Hin).
  rewrite Hv in Hv'. injection Hv' as _ <-. rewrite Hin in Hl.
  eapply (alter_all_in (fun x => is_invalid x = teacher_offending x));
    [exact teacher_mark_exact | | exact Hl].
  eapply in_tab_fields_after; [|exact Hl|exact Hc].
  apply same_shape_alter_all, teacher_mark_shape.
Qed.

Lemma regform_mark_shape x : shape (regform_mark x) = shape x.
Proof. unfold regform_mark. destruct (regform_offending x); reflexivity. Qed.

Lemma regform_mark_keeps x : is_invalid x = true -> is_invalid (regform_mark x) = true.
Proof.
  unfold regform_mark. destruct (regform_offending x); [|easy].
  intros _. apply is_invalid_append.
Qed.

Lemma regform_inputs_after s v s' :
  RegForm.validateForm s = Return v s' ->
  inputs (doc s') =
    alter_all regform_mark (tab_inputs (currentTab s) (inputs (doc s))) (inputs (doc s)).
Proof.
  intros Hv. pose proof (regform_validate_returns s v s' Hv) as Ht.
  rewrite (regform_validate_eq s Ht) in Hv. cbn zeta in Hv.
  destruct (forallb _ _).
  - destruct (Js.index _ _); [|discriminate]. now injection Hv as _ <-.
  - now injection Hv as _ <-.
Qed.

Lemma iter_regform_mark_keeps n x :
  is_invalid x = true -> is_invalid (Nat.iter n regform_mark x) = true.
Proof.
  intros H. induction n as [|n IH]; [exact H|]. cbn [Nat.iter nat_rect].
  now apply regform_mark_keeps.
Qed.

Lemma regform_marks_stay s v s' i f :
  RegForm.validateForm s = Return v s' ->
  inputs (doc s) !! i = Some f -> is_invalid f = true ->
  at_index is_invalid (inputs (doc s')) i = true.
Proof.
  intros Hv Hl Hi. rewrite (regform_inputs_after s v s' Hv).
  unfold at_index. rewrite alter_all_lookup, Hl. cbn [fmap option_fmap option_map].
  now apply iter_regform_mark_keeps.
Qed.


(** ** The step indicator *)

Lemma remove_fixpoint t c :
  classList_remove t (classList_remove t c) = classList_remove t c.
Proof.
  unfold classList_remove at 1. rewrite tokens_remove.
  rewrite filter_differs_notin; [reflexivity|].
  rewrite List.filter_In, differs_true. tauto.
Qed.

Lemma remove_add_remove t c :
  token_ok t = true ->
  classList_remove t (classList_add t (classList_remove t c)) = classList_remove t c.
Proof.
  intros Ht. unfold classList_remove at 1. rewrite tokens_add by assumption.
  rewrite tokens_remove.
  assert (Hn : ~ In t (List.filter (differs t) (tokens c)))
    by (rewrite List.filter_In, differs_true; tauto).
  destruct (existsb _ _) eqn:E.
  - apply existsb_eqb_In in E. contradiction.
  - assert (Hd : differs t t = false) by (unfold differs; now rewrite String.eqb_refl).
    rewrite List.filter_app, (filter_differs_notin t _ Hn). cbn [List.filter].
    rewrite Hd. now rewrite app_nil_r.
Qed.

Lemma teacher_indicator_lookup n x0 i :
  (0 <= n)%Z ->
  teacher_indicator n x0 !! i =
  (if decide (i = Z.to_nat n)
   then (fun c => classList_add "active" (classList_remove "active" c))
   else classList_remove "active") <$> x0 !! i.
Proof.
  intros Hn. unfold teacher_indicator, Js.index. cbn zeta.
  destruct (Z.ltb_spec n 0); [lia|].
  destruct ((classList_remove "active" <$> x0) !! Z.to_nat n) as [y|] eqn:E.
  - rewrite list_lookup_alter, list_lookup_fmap.
    destruct (decide (Z.to_nat n = i)) as [<-|N].
    + rewrite decide_True by reflexivity. now destruct (x0 !! _).
    + rewrite decide_False by congruence. now rewrite list_lookup_fmap.
  - rewrite list_lookup_fmap. destruct (decide (i = Z.to_nat n)) as [->|N]; [|reflexivity].
    rewrite list_lookup_fmap in E. now destruct (x0 !! _).
Qed.

Lemma student_indicator_lookup n x0 i :
  (0 <= n)%Z -> Forall tidy x0 ->
  student_indicator n x0 !! i =
  (if decide (i = Z.to_nat n)
   then (fun c => replace_first " active" c ++ " active")
   else replace_first " active") <$> x0 !! i.
Proof.
  intros Hn Hx. unfold student_indicator, Js.index. cbn zeta.
  rewrite (unset_active_tidy _ Hx).
  destruct (Z.ltb_spec n 0); [lia|].
  destruct ((replace_first " active" <$> x0) !! Z.to_nat n) as [y|] eqn:E.
  - rewrite list_lookup_alter, list_lookup_fmap.
    destruct (decide (Z.to_nat n = i)) as [<-|N].
    + rewrite decide_True by reflexivity. now destruct (x0 !! _).
    + rewrite decide_False by congruence. now rewrite list_lookup_fmap.
  - rewrite list_lookup_fmap. destruct (decide (i = Z.to_nat n)) as [->|N]; [|reflexivity].
    rewrite list_lookup_fmap in E. now destruct (x0 !! _).
Qed.

Lemma teacher_indicator_only n x0 :
  (0 <= n)%Z -> only_active (Z.to_nat n) (teacher_indicator n x0).
Proof.
  intros Hn i c. rewrite (teacher_indicator_lookup n x0 i Hn).
  destruct (x0 !! i) as [c0|]; [|discriminate]. cbn [fmap option_fmap option_map].
  intros [= <-]. destruct (decide (i = Z.to_nat n)) as [E|N].
  - rewrite contains_add by reflexivity. cbn. tauto.
  - rewrite contains_remove. cbn. intuition discriminate.
Qed.

Lemma teacher_indicator_idem n x0 :
  (0 <= n)%Z -> teacher_indicator n (teacher_indicator n x0) = teacher_indicator n x0.
Proof.
  intros Hn. apply list_eq. intros i.
  rewrite (teacher_indicator_lookup n (teacher_indicator n x0) i Hn).
  rewrite (teacher_indicator_lookup n x0 i Hn).
  destruct (x0 !! i) as [c0|]; [|reflexivity]. cbn [fmap option_fmap option_map]. f_equal.
  destruct (decide (i = Z.to_nat n)).
  - now rewrite remove_add_remove.
  - apply remove_fixpoint.
Qed.

Lemma tidy_replace c : tidy c -> plain (replace_first " active" c) = true.
Proof.
  intros [H|(b & Hb & ->)].
  - now rewrite plain_replace.
  - now rewrite plain_app_replace.
Qed.

Lemma contains_active_suffix b : contains (b ++ " active") "active" = true.
Proof.
  change (b ++ " active") with (b ++ String " " "active").
  now rewrite contains_append.
Qed.

Lemma student_indicator_only n x0 :
  (0 <= n)%Z -> Forall tidy x0 -> only_active (Z.to_nat n) (student_indicator n x0).
Proof.
  intros Hn Hx i c. rewrite (student_indicator_lookup n x0 i Hn Hx).
  destruct (x0 !! i) as [c0|] eqn:E; [|discriminate]. cbn [fmap option_fmap option_map].
  assert (Ht : tidy c0) by (rewrite Forall_lookup in Hx; eauto).
  apply tidy_replace in Ht.
  intros [= <-]. destruct (decide (i = Z.to_nat n)) as [Ei|N].
  - rewrite contains_active_suffix. tauto.
  - rewrite (plain_not_active _ Ht). intuition discriminate.
Qed.

Lemma student_indicator_tidy n x0 :
  (0 <= n)%Z -> Forall tidy x0 -> Forall tidy (student_indicator n x0).
Proof.
  intros Hn Hx. apply Forall_lookup. intros i c.
  rewrite (student_indicator_lookup n x0 i Hn Hx).
  destruct (x0 !! i) as [c0|] eqn:E; [|discriminate]. cbn [fmap option_fmap option_map].
  assert (Ht : tidy c0) by (rewrite Forall_lookup in Hx; eauto).
  apply tidy_replace in Ht.
  intros [= <-]. destruct (decide (i = Z.to_nat n)); [right; eauto | now left].
Qed.

Lemma student_indicator_idem n x0 :
  (0 <= n)%Z -> Forall tidy x0 ->
  student_indicator n (student_indicator n x0) = student_indicator n x0.
Proof.
  intros Hn Hx. apply list_eq. intros i.
  rewrite (student_indicator_lookup n (student_indicator n x0) i Hn
             (student_indicator_tidy n x0 Hn Hx)).
  rewrite (student_indicator_lookup n x0 i Hn Hx).
  destruct (x0 !! i) as [c0|] eqn:E; [|reflexivity]. cbn [fmap option_fmap option_map]. f_equal.
  assert (Ht : tidy c0) by (rewrite Forall_lookup in Hx; eauto).
  apply tidy_replace in Ht.
  destruct (decide (i = Z.to_nat n)).
  - now rewrite plain_app_replace.
  - now apply plain_replace.
Qed.

Lemma indicator_length_teacher n x0 : length (teacher_indicator n x0) = length x0.
Proof.
  unfold teacher_indicator. cbn zeta. destruct (Js.index _ _);
    now rewrite ?length_alter, length_fmap.
Qed.

Lemma indicator_length_student n x0 :
  Forall tidy x0 -> length (student_indicator n x0) = length x0.
Proof.
  intros Hx. unfold student_indicator. cbn zeta. rewrite (unset_active_tidy _ Hx).
  destruct (Js.index _ _); now rewrite ?length_alter, length_fmap.
Qed.

(** ** Verdicts of [validateForm] *)

Lemma student_verdict s :
  tab_exists s ->
  exists v s', Student.validateForm s = Return v s' /\
    (v = false <-> offends (student_offending (inputs (doc s))) s).
Proof.
  intros Ht. destruct (student_inputs_after s Ht) as (s' & Hv & _).
  eexists _, s'. split; [exact Hv|]. apply verdict_false.
Qed.

Lemma teacher_verdict s :
  tab_exists s ->
  exists v s', Teacher.validateForm s = Return v s' /\
    (v = false <-> offends teacher_offending s).
Proof.
  intros Ht. destruct (teacher_inputs_after s Ht) as (s' & Hv & _).
  eexists _, s'. split; [exact Hv|]. apply verdict_false.
Qed.




Lemma group_checked_iff l n : group_checked l n = true <-> member_checked l n.
Proof.
  unfold group_checked, member_checked. rewrite existsb_exists. split.
  - intros (g & Hin & Hc). apply List.filter_In in Hin as [Hin Hm].
    apply list_elem_of_In, list_elem_of_lookup in Hin as [j Hj].
    unfold matches_input_name in Hm. apply andb_true_iff in Hm as [Hk Hn].
    destruct (nameAttr g) as [m|] eqn:En; [|discriminate].
    apply String.eqb_eq in Hn as ->. eauto 10.
  - intros (j & g & Hj & Hk & Hn & Hc). exists g. split; [|exact Hc].
    apply List.filter_In. split.
    + apply list_elem_of_In, list_elem_of_lookup. eauto.
    + unfold matches_input_name. now rewrite Hk, Hn, String.eqb_refl.
Qed.

(** C4, as amended. In the student wizard, on a step where only members
    of the required radio group named [n] can offend, and where the names
    of the required radio buttons hold no double quote, backslash, line
    break or NUL, [validateForm] succeeds if and only if some input of
    the document named [n] is checked, whichever it is and wherever it
    sits.  The teacher wizard has no rule for groups: it succeeds exactly
    when every required field of the step, radio buttons included, has a
    non-empty value. *)
Theorem radio_group_checked_as_a_whole :
  (forall s i r n,
     tab_exists s -> radio_names_plain s ->
     inputs (doc s) !! i = Some r -> in_tab (currentTab s) r = true ->
     required r = true -> type_of (kind r) = "radio" -> nameAttr r = Some n ->
     (forall j g, inputs (doc s) !! j = Some g -> in_tab (currentTab s) g = true ->
        student_offending (inputs (doc s)) g = true ->
        type_of (kind g) = "radio" /\ nameAttr g = Some n) ->
     ((exists s', Student.validateForm s = Return true s') <->
      member_checked (inputs (doc s)) n)) /\
  (forall s, tab_exists s ->
     exists v s', Teacher.validateForm s = Return v s' /\
       (v = true <->
        forall i f, inputs (doc s) !! i = Some f -> in_tab (currentTab s) f = true ->
                    required f = true -> value f <> "")).
Proof.
  split.
  - intros s i r n Ht _ Hl Hc Hreq Hradio Hname Hrest.
    destruct (student_verdict s Ht) as (v & s' & Hv & Hiff).
    rewrite <- group_checked_iff.
    assert (Hr : student_offending (inputs (doc s)) r = negb (group_checked (inputs (doc s)) n)).
    { unfold student_offending, name. now rewrite Hreq, Hradio, Hname. }
    split.
    + intros [s'' Hs'']. rewrite Hv in Hs''. injection Hs'' as -> _.
      destruct (group_checked (inputs (doc s)) n) eqn:Eg; [reflexivity|].
      assert (true = false) by (apply Hiff; exists i, r; now rewrite Hr). discriminate.
    + intros Hg. exists s'. rewrite Hv. f_equal. destruct v; [reflexivity|].
      destruct (proj1 Hiff eq_refl) as (j & g & Hj & Hcj & Hoj).
      destruct (Hrest j g Hj Hcj Hoj) as [Hrj Hnj].
      unfold student_offending, name in Hoj. rewrite Hrj, Hnj, Hg in Hoj.
      cbn in Hoj. now rewrite andb_false_r in Hoj.
  - intros s Ht. destruct (teacher_verdict s Ht) as (v & s' & Hv & Hiff).
    exists v, s'. split; [exact Hv|]. split.
    + intros -> i f Hl Hc Hreq He.
      assert (true = false); [|discriminate].
      apply Hiff. exists i, f. unfold teacher_offending. now rewrite Hreq, He.
    + intros H. destruct v; [reflexivity|].
      destruct (proj1 Hiff eq_refl) as (i & f & Hl & Hc & Ho).
      unfold teacher_offending in Ho. apply andb_true_iff in Ho as [Hreq He].
      apply String.eqb_eq in He. now elim (H i f Hl Hc Hreq).
Qed.

(** Against C4 as stated: the teacher wizard passes a required radio
    group none of whose members is checked. *)
Lemma unchecked_group_passes_teacher :
  tab_exists unchecked_titles_page /\
  Forall (fun f => required f = true /\ checked f = false)
         (inputs (doc unchecked_titles_page)) /\
  Teacher.validateForm unchecked_titles_page =
    Return true (page [radio "title" "Mr" true false 0; radio "title" "Ms" true false 0]
                      ["step active finish"] 0).
Proof.
  split; [unfold tab_exists; cbn; lia|]. split; [repeat constructor|]. reflexivity.
Qed.

(** C5, as amended. In the student and in the teacher wizard every call
    to [validateForm] resets the marks of the step before it checks: in
    the teacher wizard a field of the step is marked afterwards exactly
    when it offends; in the student wizard a field of the step that does
    not offend, and that no failing radio group of the step takes for a
    member, is unmarked afterwards.  So validating a step none of whose
    fields offends succeeds and leaves no field of the step marked
    invalid, whatever marks earlier attempts left.  The [regForm] wizard
    never removes a mark: a field marked invalid before [validateForm] is
    marked invalid after it.  For the student wizard the names of the
    required radio buttons of the step are taken to hold no double quote,
    backslash, line break or NUL, so that the selector built from a name
    selects the inputs of that name. *)
Theorem revalidation_resets_marks :
  (forall s v s' i f,
     Student.validateForm s = Return v s' -> tab_exists s -> radio_names_plain s ->
     inputs (doc s) !! i = Some f -> in_tab (currentTab s) f = true ->
     student_offending (inputs (doc s)) f = false ->
     (forall j g, j <> i -> inputs (doc s) !! j = Some g ->
        in_tab (currentTab s) g = true -> group_hits (inputs (doc s)) g f = false) ->
     unmarked_in s' i) /\
  (forall s v s' i f',
     Teacher.validateForm s = Return v s' -> tab_exists s ->
     inputs (doc s') !! i = Some f' -> in_tab (currentTab s) f' = true ->
     is_invalid f' = teacher_offending f') /\
  (forall s, tab_exists s -> radio_names_plain s ->
     ~ offends (student_offending (inputs (doc s))) s ->
     exists s', Student.validateForm s = Return true s' /\
                step_unmarked (currentTab s) s') /\
  (forall s, tab_exists s ->
     ~ offends teacher_offending s ->
     exists s', Teacher.validateForm s = Return true s' /\
                step_unmarked (currentTab s) s') /\
  (forall s v s' i f,
     RegForm.validateForm s = Return v s' ->
     inputs (doc s) !! i = Some f -> is_invalid f = true -> marked_in s' i).
Proof.
  split; [intros s v s' i f Hv Ht _; exact (student_resets_mark s s' v i f Hv Ht)|].
  split; [intros s v s'; exact (teacher_marks_exact s s' v)|].
  split; [|split].
  - intros s Ht _ Hno. destruct (student_verdict s Ht) as (v & s' & Hv & Hiff).
    destruct v; [|now elim Hno; apply Hiff].
    exists s'. split; [exact Hv|]. intros i f' Hl Hc.
    exact (student_success_clears s s' i f' Hv Ht Hl Hc).
  - intros s Ht Hno. destruct (teacher_verdict s Ht) as (v & s' & Hv & Hiff).
    destruct v; [|now elim Hno; apply Hiff].
    exists s'. split; [exact Hv|]. intros i f' Hl Hc.
    rewrite (teacher_marks_exact s s' true i f' Hv Ht Hl Hc).
    destruct (teacher_offending f') eqn:Eo; [|reflexivity].
    elim Hno. destruct (teacher_inputs_after s Ht) as (s'' & Hv' & Hin).
    rewrite Hv in Hv'. injection Hv' as _ <-.
    pose proof (same_shape_alter_all teacher_mark
                  (tab_fields (currentTab s) (inputs (doc s))) (inputs (doc s))
                  teacher_mark_shape) as Hs.
    rewrite <- Hin in Hs. pose proof (same_shape_lookup _ _ i Hs) as Hi.
    rewrite Hl in Hi. destruct (inputs (doc s) !! i) as [f|] eqn:El; [|discriminate].
    injection Hi as _ _ Hreq Hval _ Htab. exists i, f. split; [exact El|].
    unfold in_tab, teacher_offending in *. rewrite Htab, Hreq, Hval. now split.
  - intros s v s' i f Hv Hl Hi. exact (regform_marks_stay s v s' i f Hv Hl Hi).
Qed.

(** Against C5 as stated: in the [regForm] wizard the mark of a failed
    attempt outlives a passing one. *)
Lemma stale_mark_survives_regform :
  RegForm.validateForm name_missing_page =
    Return false (page [text_field true "" " invalid" 0] ["step active"] 0) /\
  RegForm.validateForm name_filled_page =
    Return true (page [text_field true "Alice" " invalid" 0] ["step active finish"] 0) /\
  marked_in (final (RegForm.validateForm name_filled_page)) 0.
Proof. repeat split; reflexivity. Qed.

Lemma contains_finish_suffix b : contains (b ++ " finish") "finish" = true.
Proof.
  change (b ++ " finish") with (b ++ String " " "finish").
  now rewrite contains_append.
Qed.

Lemma student_validate_steps s v s' :
  Student.validateForm s = Return v s' -> steps (doc s') = steps (doc s).
Proof. intros Hv. now destruct (student_validate_frame s v s' Hv) as ((_ & _ & H & _) & _). Qed.

(** C6, as amended. A successful [validateForm] marks the indicator entry
    of the current step finished in the teacher wizard (when the step and
    its entry exist) and in the [regForm] wizard; in the student wizard
    [validateForm] never changes the indicator. *)
Theorem success_marks_step_finished :
  (forall s s',
     Teacher.validateForm s = Return true s' ->
     tab_exists s -> (currentTab s < Z.of_nat (length (steps (doc s))))%Z ->
     finished (currentTab s) s') /\
  (forall s s',
     RegForm.validateForm s = Return true s' -> finished (currentTab s) s') /\
  (forall s v s',
     Student.validateForm s = Return v s' -> steps (doc s') = steps (doc s)).
Proof.
  split; [|split].
  - intros s s' Hv Ht Hlt. rewrite (teacher_validate_eq s Ht) in Hv. cbn zeta in Hv.
    destruct (forallb _ _); [|discriminate].
    destruct (index_Some (steps (doc s)) (currentTab s)) as [x Hx];
      [unfold tab_exists in Ht; lia|].
    rewrite Hx in Hv. injection Hv as <-. apply index_Some_inv in Hx as [_ Hx].
    unfold finished, mark_finished. project.
    rewrite list_lookup_alter_eq, Hx. eexists. split; [reflexivity|].
    now rewrite contains_add.
  - intros s s' Hv. pose proof (regform_validate_returns s true s' Hv) as Ht.
    rewrite (regform_validate_eq s Ht) in Hv. cbn zeta in Hv.
    destruct (forallb _ _); [|discriminate].
    destruct (Js.index (steps (doc s)) (currentTab s)) as [x|] eqn:Hx; [|discriminate].
    injection Hv as <-. apply index_Some_inv in Hx as [_ Hx].
    unfold finished, mark_finished. project.
    rewrite list_lookup_alter_eq, Hx. eexists. split; [reflexivity|].
    apply contains_finish_suffix.
  - exact student_validate_steps.
Qed.

(** Against C6 as stated: the student wizard validates a step and
    leaves its indicator entry as it was. *)
Lemma student_success_not_finished :
  Student.validateForm name_given_page = Return true name_given_page /\
  steps (doc name_given_page) !! 0%nat = Some "step active" /\
  contains "step active" "finish" = false.
Proof. repeat split; reflexivity. Qed.

(** One entry carries [active].  When the indicator has an entry at
    [n], [fixStepIndicator n] leaves exactly that entry carrying [active]
    and a second call changes nothing: in the teacher wizard always, in
    the student wizard when every class string of the indicator is free
    of the text [active] or is such a string followed by [" active"]
    (which then holds again after the call).  [showTab n] on an existing
    tab leaves the indicator as [fixStepIndicator n] does. *)
Lemma indicator_one_active :
  (forall s n,
     (0 <= n < Z.of_nat (length (steps (doc s))))%Z ->
     exists s', Teacher.fixStepIndicator n s = Return tt s' /\
       length (steps (doc s')) = length (steps (doc s)) /\
       only_active (Z.to_nat n) (steps (doc s')) /\
       Teacher.fixStepIndicator n s' = Return tt s') /\
  (forall s n,
     (0 <= n < Z.of_nat (length (steps (doc s))))%Z ->
     Forall tidy (steps (doc s)) ->
     exists s', Student.fixStepIndicator n s = Return tt s' /\
       length (steps (doc s')) = length (steps (doc s)) /\
       only_active (Z.to_nat n) (steps (doc s')) /\
       Student.fixStepIndicator n s' = Return tt s' /\
       Forall tidy (steps (doc s'))) /\
  (forall s n,
     (0 <= n < Z.of_nat (length (tabs (doc s))))%Z ->
     steps (doc (final (Teacher.showTab n s))) =
       steps (doc (final (Teacher.fixStepIndicator n s))) /\
     steps (doc (final (Student.showTab n s))) =
       steps (doc (final (Student.fixStepIndicator n s)))).
Proof.
  split; [|split].
  - intros s n Hn. rewrite teacher_fix_steps. eexists. split; [reflexivity|]. project.
    split; [apply indicator_length_teacher|]. split; [apply teacher_indicator_only; lia|].
    rewrite teacher_fix_steps. project. rewrite teacher_indicator_idem by lia.
    reflexivity.
  - intros s n Hn Ht. rewrite student_fix_steps. eexists. split; [reflexivity|]. project.
    split; [now apply indicator_length_student|].
    split; [apply student_indicator_only; [lia | assumption]|].
    split; [|apply student_indicator_tidy; [lia | assumption]].
    rewrite student_fix_steps. project. rewrite student_indicator_idem by (lia || assumption).
    reflexivity.
  - intros s n Hn. split.
    + destruct (showTab_in_range Teacher.fixStepIndicator teacher_indicator teacher_fix_steps n s Hn)
        as (s' & Hs & _ & _ & _ & _ & _ & _ & _ & Hst).
      unfold Teacher.showTab. rewrite Hs, teacher_fix_steps. now project.
    + destruct (showTab_in_range Student.fixStepIndicator student_indicator student_fix_steps n s Hn)
        as (s' & Hs & _ & _ & _ & _ & _ & _ & _ & Hst).
      unfold Student.showTab. rewrite Hs, student_fix_steps. now project.
Qed.

(** C7. The wizards on the indicator classes [active step] and [step],
    where the first entry carries [active] as the first token of its
    class.  [fixStepIndicator 1] of the student wizard, and [showTab 1]
    through it, leave both entries carrying [active]: the loop removes
    the text [" active"], which the class [active step] does not hold.
    The [regForm] wizard, whose loop is the same and is commented as
    removing the class from all steps, does the same.  The teacher
    wizard, whose loop goes through [classList], leaves the entry at 1
    alone carrying [active]. *)
Theorem two_active_entries_student :
  Student.fixStepIndicator 1 premarked_page =
    Return tt (page [] ["active step"; "step active"] 0) /\
  steps (doc (final (Student.showTab 1 premarked_page))) =
    ["active step"; "step active"] /\
  RegForm.fixStepIndicator 1 premarked_page =
    Return tt (page [] ["active step"; "step active"] 0) /\
  contains "active step" "active" = true /\
  contains "step active" "active" = true /\
  Teacher.fixStepIndicator 1 premarked_page =
    Return tt (page [] ["step"; "step active"] 0) /\
  contains "step" "active" = false.
Proof. repeat split; reflexivity. Qed.

(** ** Subject dropdowns *)
Lemma foldl_add_choice selects acc v :
  v ∈ foldl add_choice acc selects <->
  v ∈ acc \/ (v <> "" /\ exists sel, In (Some sel) selects /\ select_value sel = v).
Proof.
  revert acc. induction selects as [|x selects IH]; intros acc; cbn [foldl].
  - cbn. split; [auto | intros [H|(_ & sel & [] & _)]; exact H].
  - rewrite IH. destruct x as [sel0|]; cbn [add_choice In].
    + destruct (String.eqb_spec (select_value sel0) "") as [E|N].
      * split.
        -- intros [H|(Hv & sel & Hin & Hs)]; [now left | right; eauto].
        -- intros [H|(Hv & sel & [Hin|Hin] & Hs)]; [now left | | right; eauto].
           injection Hin as ->. congruence.
      * rewrite elem_of_union, elem_of_singleton. split.
        -- intros [[H| ->]|(Hv & sel & Hin & Hs)]; [now left | right | right; eauto].
           split; [assumption | eauto].
        -- intros [H|(Hv & sel & [Hin|Hin] & Hs)]; [left; now left | | right; eauto].
           injection Hin as ->. left. now right.
    + split.
      * intros [H|(Hv & sel & Hin & Hs)]; [now left | right; eauto].
      * intros [H|(Hv & sel & [Hin|Hin] & Hs)]; [now left | discriminate | right; eauto].
Qed.

Lemma selectedSubjects_spec selects v :
  v ∈ selectedSubjects selects <-> v <> "" /\ chosen_somewhere selects v.
Proof.
  unfold selectedSubjects. fold add_choice. rewrite foldl_add_choice.
  unfold chosen_somewhere. split.
  - intros [H|(Hv & sel & Hin & Hs)]; [now apply not_elem_of_empty in H|].
    split; [assumption|].
    apply list_elem_of_In, list_elem_of_lookup in Hin as [k Hk]. eauto.
  - intros (Hv & k & sel & Hk & Hs). right. split; [assumption|].
    exists sel. split; [|assumption]. apply list_elem_of_In, list_elem_of_lookup. eauto.
Qed.

Lemma find_update chosen cur os :
  List.find selected (update_option chosen cur <$> os) =
  update_option chosen cur <$> List.find selected os.
Proof.
  induction os as [|o os IH]; [reflexivity|]. cbn.
  destruct (selected o); [reflexivity | exact IH].
Qed.

Lemma select_value_update chosen cur sel :
  select_value {| options := update_option chosen cur <$> options sel |} = select_value sel.
Proof.
  unfold select_value. cbn [options]. rewrite find_update.
  now destruct (List.find selected (options sel)).
Qed.

(** C9. After [updateSubjectOptions], every dropdown shows the value it
    showed before, and an option of a dropdown is disabled if and only if
    its value is not empty, differs from the value its own dropdown shows
    and is the value that some dropdown of the group shows; so the empty
    option and the option a dropdown shows are never disabled. *)
Theorem option_disabled_iff_taken_elsewhere selects i sel :
  selects !! i = Some (Some sel) ->
  exists sel',
    updateSubjectOptions selects !! i = Some (Some sel') /\
    select_value sel' = select_value sel /\
    length (options sel') = length (options sel) /\
    forall j o, options sel !! j = Some o ->
      exists o', options sel' !! j = Some o' /\
        ovalue o' = ovalue o /\ selected o' = selected o /\
        (disabled o' = true <->
           ovalue o <> "" /\ ovalue o <> select_value sel /\
           chosen_somewhere selects (ovalue o)) /\
        (ovalue o = "" -> disabled o' = false) /\
        (ovalue o = select_value sel -> disabled o' = false).
Proof.
  intros Hi. unfold updateSubjectOptions. cbn zeta.
  rewrite list_lookup_fmap, Hi. cbn [fmap option_fmap option_map].
  eexists. split; [reflexivity|].
  split; [apply select_value_update|].
  cbn [options]. split; [apply length_fmap|].
  intros j o Hj. rewrite list_lookup_fmap, Hj. cbn [fmap option_fmap option_map].
  eexists. split; [reflexivity|]. cbn [ovalue selected disabled update_option].
  split; [reflexivity|]. split; [reflexivity|].
  destruct (String.eqb_spec (ovalue o) "") as [E|N]; cbn [orb].
  { repeat split; try tauto; try discriminate; intros [H _]; contradiction. }
  destruct (String.eqb_spec (ovalue o) (select_value sel)) as [E2|N2].
  { repeat split; try tauto; try discriminate; intros (_ & H & _); contradiction. }
  destruct (bool_decide_reflect (ovalue o ∈ selectedSubjects selects)) as [Hin|Hnin].
  - apply selectedSubjects_spec in Hin as [_ Hin]. repeat split; try assumption; contradiction.
  - repeat split; try discriminate; try contradiction.
    intros (_ & _ & Hc). elim Hnin. apply selectedSubjects_spec. now split.
Qed.

(** ** Date of birth *)

Lemma outside_iff age lo hi :
  js_lt age lo || js_gt age hi = true <-> outside age lo hi.
Proof.
  unfold outside, js_lt, js_gt. destruct age as [a|].
  - rewrite orb_true_iff, !Z.ltb_lt. split; [eauto|]. now intros (? & [= <-] & H).
  - split; [discriminate | now intros (? & ? & _)].
Qed.

Lemma validAges_Some y lo hi :
  validAges y = Some (lo, hi) <->
  (y = Some 12%Z /\ lo = 16%Z /\ hi = 17%Z) \/ (y = Some 13%Z /\ lo = 17%Z /\ hi = 18%Z).
Proof.
  unfold validAges. split.
  - destruct y as [[|p|p]|]; try discriminate.
    do 4 (destruct p; try discriminate); intros [= <- <-]; auto.
  - intros [(-> & -> & ->)|(-> & -> & ->)]; reflexivity.
Qed.

Lemma validAges_None y : validAges y = None <-> y <> Some 12%Z /\ y <> Some 13%Z.
Proof.
  destruct (validAges y) as [[lo hi]|] eqn:E.
  - apply validAges_Some in E. split; [discriminate|].
    intros [H1 H2]. destruct E as [(E & _)|(E & _)]; contradiction.
  - split; [|reflexivity]. intros _. split; intros ->; discriminate.
Qed.

(** [parseInt] skips a no-break space, an em space and U+FEFF as it
    skips a blank. *)
Lemma parseInt_skips_white_space :
  parseInt (Js.utf8 0xA0 ++ "13") = Some 13%Z /\
  parseInt (Js.utf8 0x2003 ++ Js.utf8 0xFEFF ++ " 12abc") = Some 12%Z /\
  parseInt ("x" ++ Js.utf8 0xA0 ++ "13") = None.
Proof. repeat split; vm_compute; reflexivity. Qed.

(** C10. [validateDateOfBirth] returns [true] and changes nothing when
    the [dob] input or a checked [yeargroup] input is missing.  When both
    are there, it throws a [TypeError] exactly when [parseInt] of the
    checked value is neither 12 nor 13; for 12 (ages 16 to 17) and 13
    (ages 17 to 18) it returns [false] with the [dob] input cleared when
    the computed age is a number outside the range, and [true] with
    nothing changed otherwise. *)
Theorem validateDateOfBirth_cases today parseDate p :
  (dob p = None \/ List.find rchecked (yeargroup p) = None ->
   validateDateOfBirth today parseDate p = Returned true p None) /\
  (forall v r,
     dob p = Some v -> List.find rchecked (yeargroup p) = Some r ->
     (validateDateOfBirth today parseDate p = TypeError <->
      parseInt (rvalue r) <> Some 12%Z /\ parseInt (rvalue r) <> Some 13%Z) /\
     (forall lo hi,
        (parseInt (rvalue r) = Some 12%Z /\ lo = 16%Z /\ hi = 17%Z) \/
        (parseInt (rvalue r) = Some 13%Z /\ lo = 17%Z /\ hi = 18%Z) ->
        (outside (age_of today (parseDate v)) lo hi ->
         exists alert,
           validateDateOfBirth today parseDate p =
             Returned false {| dob := Some ""; yeargroup := yeargroup p |} alert) /\
        (~ outside (age_of today (parseDate v)) lo hi ->
         validateDateOfBirth today parseDate p = Returned true p None))).
Proof.
  split.
  - unfold validateDateOfBirth. intros [-> | ->]; [reflexivity|]. now destruct (dob p).
  - intros v r Hd Hr. unfold validateDateOfBirth. rewrite Hd, Hr. split.
    + rewrite <- validAges_None.
      destruct (validAges (parseInt (rvalue r))) as [[lo hi]|]; [|tauto].
      split; [|discriminate]. now destruct (_ || _).
    + intros lo hi Hy. apply validAges_Some in Hy. rewrite Hy.
      pose proof (outside_iff (age_of today (parseDate v)) lo hi) as Ho.
      destruct (js_lt _ lo || js_gt _ hi).
      * split; [eauto|]. intros Hn. elim Hn. now apply Ho.
      * split; [|reflexivity]. intros H. apply Ho in H. discriminate.
Qed.

(** ** The theorems at work on the sample pages *)

Ltac plain_names :=
  unfold radio_names_plain;
  repeat (apply List.Forall_cons; [intros _ _ _; reflexivity|]); apply List.Forall_nil.

Lemma blocked_when_invalid_witness :
  Student.validateForm name_missing_page =
    Return false (final (Student.validateForm name_missing_page)) /\
  Student.nextPrev 1 name_missing_page =
    Return (Some false) (final (Student.validateForm name_missing_page)) /\
  Teacher.validateForm name_missing_page =
    Return false (final (Teacher.validateForm name_missing_page)) /\
  Teacher.nextPrev 1 name_missing_page =
    Return (Some false) (final (Teacher.validateForm name_missing_page)).
Proof.
  split; [reflexivity|]. split.
  - apply (proj1 blocked_when_invalid name_missing_page). reflexivity.
  - split; [reflexivity|].
    apply (proj1 (proj2 blocked_when_invalid) name_missing_page). reflexivity.
Defined.

Lemma two_step_regform_page : regform_page two_step_page.
Proof.
  split; [discriminate|]. split; [discriminate|]. split; [cbn; lia|].
  split; [|reflexivity].
  repeat constructor; apply step_marker_keeps.
  - exists [" active"]. split; [repeat constructor; auto | reflexivity].
  - exists []. split; [constructor | reflexivity].
Qed.

Lemma forward_until_submit_witness :
  regform_page two_step_page /\
  steps_forward Student.nextPrev two_step_page /\
  steps_forward RegForm.nextPrev two_step_page /\
  runs_forward 1 two_step_page (final (Student.nextPrev 1 two_step_page)) /\
  runs_forward 1 two_step_page (final (RegForm.nextPrev 1 two_step_page)).
Proof.
  destruct forward_until_submit as (H1 & H2 & H3 & H4).
  split; [exact two_step_regform_page|]. split; [|split; [|split]].
  - apply (H1 two_step_page (final (Student.validateForm two_step_page)));
      [reflexivity | tab_here | reflexivity].
  - apply (H3 two_step_page (final (RegForm.validateForm two_step_page)));
      [exact two_step_regform_page | tab_here | reflexivity].
  - apply H2; [reflexivity | tab_here | intros [] |].
    apply (forward_S _ _ 0%nat two_step_page (final (Student.nextPrev 1 two_step_page)));
      [|apply forward_O].
    apply (advances_intro Student.validateForm Student.nextPrev two_step_page
             (inputs (doc two_step_page)) (final (Student.validateForm two_step_page)));
      [intros [] | reflexivity].
  - apply H4; [exact two_step_regform_page | tab_here | intros [] |].
    apply (forward_S _ _ 0%nat two_step_page (final (RegForm.nextPrev 1 two_step_page)));
      [|apply forward_O].
    apply (advances_intro RegForm.validateForm RegForm.nextPrev two_step_page
             (inputs (doc two_step_page)) (final (RegForm.validateForm two_step_page)));
      [intros [] | reflexivity].
Defined.


(** A required field that holds only a no-break space is blank to the
    student wizard, which rejects and marks it, and filled to the teacher
    wizard, which passes it. *)
Lemma no_break_space_is_blank :
  blank (Js.utf8 0xA0) = true /\
  Student.validateForm name_nbsp_page =
    Return false (emit (Focus 0) (page [text_field true (Js.utf8 0xA0) "invalid" 0]
                                       ["step active"] 0)) /\
  Teacher.validateForm name_nbsp_page =
    Return true (page [text_field true (Js.utf8 0xA0) "" 0] ["step active finish"] 0).
Proof. repeat split; reflexivity. Qed.

Lemma radio_group_checked_as_a_whole_witness :
  tab_exists yeargroup_page /\ radio_names_plain yeargroup_page /\
  ((exists s', Student.validateForm yeargroup_page = Return true s') <->
   member_checked (inputs (doc yeargroup_page)) "yeargroup").
Proof.
  assert (Ht : tab_exists yeargroup_page) by tab_here.
  assert (Hp : radio_names_plain yeargroup_page) by plain_names.
  split; [exact Ht|]. split; [exact Hp|].
  apply (proj1 radio_group_checked_as_a_whole yeargroup_page 0%nat
           (radio "yeargroup" "12" true false 0) "yeargroup" Ht Hp);
    try reflexivity.
  intros [|[|j]] g Hl; cbn in Hl; [| |discriminate];
    injection Hl as <-; intros _ _; split; reflexivity.
Defined.

Lemma revalidation_resets_marks_witness :
  marked_in name_fixed_page 0 /\
  ~ offends (student_offending (inputs (doc name_fixed_page))) name_fixed_page /\
  exists s', Student.validateForm name_fixed_page = Return true s' /\
             step_unmarked (currentTab name_fixed_page) s'.
Proof.
  assert (Ht : tab_exists name_fixed_page) by (unfold tab_exists; vm_compute; split; [intros H; discriminate H | reflexivity]).
  assert (Hno : ~ offends (student_offending (inputs (doc name_fixed_page))) name_fixed_page).
  { intros (i & f & Hl & _ & Ho). destruct i as [|i]; vm_compute in Hl; [|discriminate].
    injection Hl as <-. discriminate Ho. }
  split; [reflexivity|]. split; [exact Hno|].
  apply (proj1 (proj2 (proj2 revalidation_resets_marks)) name_fixed_page Ht); [|exact Hno].
  unfold radio_names_plain.
  apply List.Forall_cons; [intros _ _ H; discriminate H | apply List.Forall_nil].
Defined.

Lemma success_marks_step_finished_witness :
  Teacher.validateForm name_given_page =
    Return true (final (Teacher.validateForm name_given_page)) /\
  finished (currentTab name_given_page) (final (Teacher.validateForm name_given_page)).
Proof.
  split; [reflexivity|].
  apply (proj1 success_marks_step_finished name_given_page);
    [reflexivity | tab_here | cbn; lia].
Defined.

Lemma currentTab_in_range_witness :
  (0 <= currentTab (final (Student.showTab 0 two_step_page))
     < Z.of_nat (length (tabs (doc (final (Student.showTab 0 two_step_page))))))%Z /\
  length (tabs (doc (final (Student.showTab 0 two_step_page)))) =
    length (tabs (doc two_step_page)).
Proof.
  apply (currentTab_in_range (doc two_step_page)).
  - discriminate.
  - reflexivity.
  - apply reach_init.
  - intros [H|[]]. discriminate H.
Defined.

Lemma option_disabled_iff_taken_elsewhere_witness :
  subject_group !! 3%nat = Some (Some (subject_menu "")) /\
  exists sel',
    updateSubjectOptions subject_group !! 3%nat = Some (Some sel') /\
    select_value sel' = select_value (subject_menu "") /\
    length (options sel') = length (options (subject_menu "")).
Proof.
  split; [reflexivity|].
  destruct (option_disabled_iff_taken_elsewhere subject_group 3 (subject_menu "") eq_refl)
    as (sel' & Hsel & Hval & Hlen & _).
  exists sel'. split; [exact Hsel|]. split; [exact Hval | exact Hlen].
Defined.

Lemma validateDateOfBirth_cases_witness :
  outside (age_of third_of_november (born_next_day "2010-11-04")) 17 18 /\
  exists alert,
    validateDateOfBirth third_of_november born_next_day year13_page =
      Returned false {| dob := Some ""; yeargroup := yeargroup year13_page |} alert.
Proof.
  assert (Ho : outside (age_of third_of_november (born_next_day "2010-11-04")) 17 18).
  { exists 15%Z. split; [reflexivity | left; reflexivity]. }
  split; [exact Ho|].
  apply (proj1 (proj2 (proj2 (validateDateOfBirth_cases third_of_november born_next_day
                                 year13_page)
                         "2010-11-04" {| rvalue := "13"; rchecked := true |}
                         eq_refl eq_refl) 17%Z 18%Z
                  (or_intror (conj eq_refl (conj eq_refl eq_refl))))).
  exact Ho.
Defined.

Lemma indicator_one_active_witness :
  Forall tidy (steps (doc two_step_page)) /\
  exists s', Student.fixStepIndicator 1 two_step_page = Return tt s' /\
    only_active 1 (steps (doc s')) /\
    Student.fixStepIndicator 1 s' = Return tt s'.
Proof.
  assert (Ht : Forall tidy (steps (doc two_step_page))).
  { constructor; [right; exists "step"; split; reflexivity|].
    constructor; [left; reflexivity | constructor]. }
  split; [exact Ht|].
  destruct (proj1 (proj2 indicator_one_active) two_step_page 1%Z) as (s' & H1 & _ & H2 & H3 & _).
  - cbn. lia.
  - exact Ht.
  - exists s'. split; [exact H1|]. split; [exact H2 | exact H3].
Defined.

(** * Further properties *)

(** ** Display and navigation *)

Lemma hide_all_but_shows_only n t :
  (0 <= n)%Z -> shows_only n (hide_all_but n t).
Proof.
  intros Hn i d. unfold hide_all_but.
  destruct (decide (i = Z.to_nat n)) as [->|N].
  - intros H. assert (Hlt : (Z.to_nat n < length ((fun _ : string => "none") <$> t))%nat).
    { apply lookup_lt_Some in H. now rewrite length_insert in H. }
    rewrite list_lookup_insert_eq in H by assumption. congruence.
  - rewrite list_lookup_insert_ne by congruence. rewrite list_lookup_fmap.
    destruct (t !! i); cbn; congruence.
Qed.

Lemma hide_all_but_length n t : length (hide_all_but n t) = length t.
Proof. unfold hide_all_but. now rewrite length_insert, length_fmap. Qed.

Lemma hide_all_but_again n m t :
  hide_all_but n (hide_all_but m t) = hide_all_but n t.
Proof.
  unfold hide_all_but. f_equal. apply list_eq. intros i.
  rewrite !list_lookup_fmap.
  destruct (decide (i = Z.to_nat m)) as [->|N].
  - destruct (decide (Z.to_nat m < length ((fun _ : string => "none") <$> t))%nat) as [H|H].
    + rewrite list_lookup_insert_eq by assumption. rewrite length_fmap in H.
      destruct (lookup_lt_is_Some_2 t (Z.to_nat m) H) as [x ->]. reflexivity.
    + rewrite list_insert_ge by lia. rewrite list_lookup_fmap.
      destruct (t !! Z.to_nat m); reflexivity.
  - rewrite list_lookup_insert_ne by congruence.
    rewrite list_lookup_fmap. destruct (t !! i); reflexivity.
Qed.

Lemma showTab_displayed fx ind
  (Hfix : forall n s, fx n s = Return tt (set_steps (ind n (steps (doc s))) s)) n s :
  (0 <= n < Z.of_nat (length (tabs (doc s))))%Z ->
  exists s', Wizard.showTab fx n s = Return tt s' /\ displayed n s s'.
Proof.
  intros Hn.
  destruct (showTab_in_range fx ind Hfix n s Hn)
    as (s' & Hs & _ & _ & Htabs & Hprev & Hnext & _ & _ & _).
  exists s'. split; [exact Hs|]. unfold displayed. rewrite Htabs.
  split; [apply hide_all_but_shows_only; lia|].
  split; [apply hide_all_but_length|].
  split; assumption.
Qed.

(** X1. In the student and the teacher wizard, showTab(n) on an existing tab n
    returns and leaves tab n displayed as 'block' and every other tab as 'none';
    a Previous button that is on the page stays on the page and is hidden
    exactly when n is 0, a Next button that is on the page stays on the page and
    reads 'Submit' exactly when n is the last tab and 'Next' otherwise, and a
    button that is missing stays missing without an error. *)
Theorem showTab_display :
  forall s n, (0 <= n < Z.of_nat (length (tabs (doc s))))%Z ->
    (exists s', Student.showTab n s = Return tt s' /\ displayed n s s') /\
    (exists s', Teacher.showTab n s = Return tt s' /\ displayed n s s').
Proof.
  intros s n Hn. split.
  - exact (showTab_displayed Student.fixStepIndicator student_indicator student_fix_steps n s Hn).
  - exact (showTab_displayed Teacher.fixStepIndicator teacher_indicator teacher_fix_steps n s Hn).
Qed.

Lemma hide_all_but_insert n i v t :
  hide_all_but n (<[i := v]> t) = hide_all_but n t.
Proof.
  unfold hide_all_but. f_equal. apply list_eq. intros j.
  rewrite !list_lookup_fmap.
  destruct (decide (j = i)) as [->|N].
  - destruct (decide (i < length t)%nat).
    + rewrite list_lookup_insert_eq by assumption.
      destruct (lookup_lt_is_Some_2 t i) as [x ->]; [assumption | reflexivity].
    + now rewrite list_insert_ge by lia.
  - now rewrite list_lookup_insert_ne by congruence.
Qed.

Section Back.
Variable validateForm : M bool.
Variable fixStepIndicator : Z -> M unit.
Variable indicator : Z -> list string -> list string.
Hypothesis fix_steps : forall n s,
  fixStepIndicator n s = Return tt (set_steps (indicator n (steps (doc s))) s).

Lemma nextPrev_backward_shown s :
  (1 <= currentTab s < Z.of_nat (length (tabs (doc s))))%Z ->
  exists s',
    Wizard.nextPrev validateForm fixStepIndicator (-1) s = Return None s' /\
    currentTab s' = (currentTab s - 1)%Z /\
    tabs (doc s') = hide_all_but (currentTab s - 1) (tabs (doc s)) /\
    inputs (doc s') = inputs (doc s) /\
    steps (doc s') = indicator (currentTab s - 1) (steps (doc s)) /\
    log s' = (log s ++ [ShowTab (currentTab s - 1)])%list.
Proof.
  intros Hc. unfold Wizard.nextPrev. change (-1 =? 1)%Z with false. run_M.
  destruct (index_Some (tabs (doc s)) (currentTab s)) as [x ->]; [lia|]. project.
  rewrite length_insert.
  destruct (Z.leb_spec (Z.of_nat (length (tabs (doc s)))) (currentTab s + -1)); [lia|].
  match goal with |- context [Wizard.showTab fixStepIndicator ?n ?st] =>
    destruct (showTab_in_range fixStepIndicator indicator fix_steps n st)
      as (s' & -> & Hct & Hlog & Htabs & _ & _ & Hin & _ & Hsteps)
  end.
  { project. rewrite length_insert. lia. }
  revert Hct Hlog Htabs Hin Hsteps. project. intros.
  exists s'. split; [reflexivity|].
  replace (currentTab s - 1)%Z with (currentTab s + -1)%Z by lia.
  repeat split; try assumption.
  rewrite Htabs. apply hide_all_but_insert.
Qed.

(** Previous on the first step. *)
Lemma nextPrev_backward_at_0 s :
  currentTab s = 0%Z -> tabs (doc s) <> [] ->
  exists s',
    Wizard.nextPrev validateForm fixStepIndicator (-1) s = Throw s' /\
    currentTab s' = (-1)%Z /\
    tabs (doc s') = (fun _ => "none") <$> tabs (doc s) /\
    inputs (doc s') = inputs (doc s) /\ steps (doc s') = steps (doc s) /\
    prevBtn (doc s') = prevBtn (doc s) /\ nextBtn (doc s') = nextBtn (doc s) /\
    form (doc s') = form (doc s) /\
    log s' = (log s ++ [ShowTab (-1)])%list.
Proof.
  intros Hc Hne. destruct s as [d c l]. cbn [currentTab doc log] in *. subst c.
  assert (Hlen : (0 < length (tabs d))%nat).
  { destruct (tabs d); [congruence | cbn [length]; lia]. }
  unfold Wizard.nextPrev. change (-1 =? 1)%Z with false. run_M. project.
  destruct (index_Some (tabs d) 0) as [x ->]; [lia|].
  project. rewrite length_insert.
  destruct (Z.leb_spec (Z.of_nat (length (tabs d))) (0 + -1)); [lia|].
  unfold Wizard.showTab. run_M. project. rewrite length_insert.
  destruct (Nat.eqb_spec (length (tabs d)) 0) as [E|_]; [lia|].
  cbn. eexists. split; [reflexivity|]. project.
  repeat split; try reflexivity.
  apply list_eq. intros j. rewrite !list_lookup_fmap.
  destruct (decide (j = 0%nat)) as [->|N].
  - destruct (tabs d); [cbn in Hlen; lia | reflexivity].
  - change (Z.to_nat 0) with 0%nat. now rewrite list_lookup_insert_ne by congruence.
Qed.

End Back.

Lemma showTab_display_witness :
  exists s', Student.showTab 1 two_step_page = Return tt s' /\ displayed 1 two_step_page s'.
Proof.
  apply (showTab_display two_step_page 1). vm_compute. split; congruence.
Defined.

(** X2. On a page with at least one tab and with the form, in every state of the
    student wizard that a user can bring about and in which the form has not
    been submitted, the current tab is displayed and every other tab is hidden. *)
Theorem one_tab_visible d s :
  tabs d <> [] -> form d = true -> reachable d s -> active s ->
  shows_only (currentTab s) (tabs (doc s)).
Proof.
  intros Hne Hf Hr. induction Hr as [|s l Hr IH|s Hr IH Ha|s Hr IH Ha Hp]; intros Hact.
  - destruct (showTab_in_range Student.fixStepIndicator student_indicator student_fix_steps 0
                {| doc := d; currentTab := 0; log := [] |})
      as (s' & Hs & Hc & _ & Htabs & _).
    { project. destruct (tabs d); [congruence | cbn [length]; lia]. }
    unfold Student.showTab. rewrite Hs. cbn [final]. rewrite Hc, Htabs. project.
    now apply hide_all_but_shows_only.
  - exact (IH Hact).
  - destruct (reachable_inv d s Hne Hf Hr) as (Hlen & Hform & Hinv).
    destruct (Hinv Ha) as [Ht _].
    destruct (student_validate_returns s) as (v & s1 & Hv).
    destruct (student_validate_frame s v s1 Hv) as ((Hc1 & Ht1 & _ & _ & _ & Hf1) & _ & _).
    revert Hact. unfold Student.nextPrev. destruct v.
    + destruct (nextPrev_forward Student.validateForm Student.fixStepIndicator
                  student_indicator student_fix_steps s s1 Hv)
        as (s' & Hnp & Hc' & _ & _ & _ & Hlog & Hshown).
      { rewrite Hc1, Ht1. exact Ht. }
      rewrite Hnp. cbn [final]. intros Hact.
      destruct (Z.ltb_spec (currentTab s1 + 1) (Z.of_nat (length (tabs (doc s1))))) as [Hlt|Hge].
      * destruct (Hshown eq_refl) as [-> _]. rewrite Hc'.
        apply hide_all_but_shows_only. rewrite Hc1. unfold tab_exists in Ht. lia.
      * exfalso. apply Hact. rewrite Hlog, Hf1, Hform, in_app_iff. right. now left.
    + rewrite (nextPrev_blocked Student.validateForm Student.fixStepIndicator s s1 Hv).
      cbn [final]. intros _. rewrite Hc1, Ht1. exact (IH Ha).
  - destruct (reachable_inv d s Hne Hf Hr) as (Hlen & Hform & Hinv).
    destruct (Hinv Ha) as [Ht Hz]. destruct Hp as (v & Hv & Hnone).
    assert (Hc : (1 <= currentTab s < Z.of_nat (length (tabs (doc s))))%Z).
    { unfold tab_exists in Ht. destruct (Z.eq_dec (currentTab s) 0%Z) as [E|N]; [|lia].
      exfalso. apply Hnone. now apply Hz. }
    destruct (nextPrev_backward_shown Student.validateForm Student.fixStepIndicator
                student_indicator student_fix_steps s Hc)
      as (s' & Hnp & Hc' & Htabs & _).
    revert Hact. unfold Student.nextPrev. rewrite Hnp. cbn [final]. intros _.
    rewrite Hc', Htabs. apply hide_all_but_shows_only. lia.
Qed.

Lemma one_tab_visible_witness :
  shows_only (currentTab (final (Student.showTab 0 two_step_page)))
             (tabs (doc (final (Student.showTab 0 two_step_page)))).
Proof.
  apply (one_tab_visible (doc two_step_page)).
  - discriminate.
  - reflexivity.
  - apply reach_init.
  - intros [H|[]]. discriminate H.
Defined.

Section Guarded.
Variable fixStepIndicator : Z -> M unit.
Variable indicator : Z -> list string -> list string.
Hypothesis fix_steps : forall n s,
  fixStepIndicator n s = Return tt (set_steps (indicator n (steps (doc s))) s).

Lemma showTab_no_tabs n s :
  tabs (doc s) = [] -> Wizard.showTab fixStepIndicator n s = Return tt (emit (ShowTab n) s).
Proof.
  intros E. unfold Wizard.showTab. run_M. project. now rewrite E.
Qed.

Lemma showTab_missing n s :
  tabs (doc s) <> [] -> ~ (0 <= n < Z.of_nat (length (tabs (doc s))))%Z ->
  Wizard.showTab fixStepIndicator n s =
  Throw (set_tabs ((fun _ => "none") <$> tabs (doc s)) (emit (ShowTab n) s)).
Proof.
  intros Hne Hn. unfold Wizard.showTab. run_M. project.
  destruct (Nat.eqb_spec (length (tabs (doc s))) 0) as [E|_].
  { destruct (tabs (doc s)); [congruence | discriminate E]. }
  now rewrite (index_None _ _ Hn).
Qed.

Lemma showTab_guarded : guarded_showTab (Wizard.showTab fixStepIndicator).
Proof.
  intros n s.
  destruct (decide (tabs (doc s) = [])) as [E|Hne].
  { rewrite (showTab_no_tabs n s E). split; [|split].
    - split; [intros [s' H]; discriminate H | intros [H _]; congruence].
    - intros s' H. discriminate H.
    - intros _. eexists. split; [reflexivity|]. now split. }
  destruct (decide (0 <= n < Z.of_nat (length (tabs (doc s))))%Z) as [Hn|Hn].
  { destruct (showTab_in_range fixStepIndicator indicator fix_steps n s Hn) as (s1 & Hs & _).
    rewrite Hs. split; [|split].
    - split; [intros [s' H]; discriminate H | intros [_ H]; contradiction].
    - intros s' H. discriminate H.
    - intros E. contradiction. }
  rewrite (showTab_missing n s Hne Hn). split; [|split].
  - split; [now intros _ | intros _; eexists; reflexivity].
  - intros s' H. injection H as <-. project. split; [|split; [|split]].
    + intros i d. rewrite list_lookup_fmap. destruct (tabs (doc s) !! i); cbn; congruence.
    + apply length_fmap.
    + unfold only_tabs_differ. now project.
    + reflexivity.
  - intros E. contradiction.
Qed.

End Guarded.

(** X3. The student and the teacher showTab(n) throw exactly when the page has
    tabs and tab n is not among them, and then every tab has been hidden and
    nothing else has changed; on a page without tabs they return and leave the
    document as it is. *)
Theorem showTab_guards_its_page :
  guarded_showTab Student.showTab /\ guarded_showTab Teacher.showTab.
Proof.
  split.
  - exact (showTab_guarded Student.fixStepIndicator student_indicator student_fix_steps).
  - exact (showTab_guarded Teacher.fixStepIndicator teacher_indicator teacher_fix_steps).
Qed.

Lemma index_is_Some {A} (xs : list A) n :
  is_Some (Js.index xs n) <-> (0 <= n < Z.of_nat (length xs))%Z.
Proof.
  split.
  - intros [x Hx]. now apply index_Some_inv in Hx.
  - intros H. destruct (index_Some xs n H) as [x Hx]. now exists x.
Qed.

Lemma regform_fix_outcome n s :
  let x := unset_active (steps (doc s)) in
  RegForm.fixStepIndicator n s =
  if decide (0 <= n < Z.of_nat (length x))%Z
  then Return tt (set_steps (alter (fun c => c ++ " active") (Z.to_nat n) x) s)
  else Throw (set_steps x s).
Proof.
  intros x. unfold RegForm.fixStepIndicator. fold x.
  destruct (decide _) as [H|H].
  - now destruct (index_Some x n) as [c ->].
  - now rewrite index_None.
Qed.

(** X4. The regForm showTab(n) returns exactly when tab n and both buttons
    exist and the collection of the step markers still has an entry n once
    the loop of fixStepIndicator has run over it; when tab n exists it is set
    to 'block' even if the call then throws, no other tab display is touched,
    and without tab n nothing is changed.  The loop never makes the collection
    longer, and leaves it as long as it was when the wizard takes none of the
    markers out of it. *)
Theorem regform_showTab_needs_its_page n s :
  ((exists s', RegForm.showTab n s = Return tt s') <->
     (0 <= n < Z.of_nat (length (tabs (doc s))))%Z /\
     prevBtn (doc s) <> None /\ nextBtn (doc s) <> None /\
     (n < Z.of_nat (length (unset_active (steps (doc s)))))%Z) /\
  ((0 <= n < Z.of_nat (length (tabs (doc s))))%Z ->
     tabs (doc (final (RegForm.showTab n s))) = <[Z.to_nat n := "block"]> (tabs (doc s))) /\
  (~ (0 <= n < Z.of_nat (length (tabs (doc s))))%Z ->
     RegForm.showTab n s = Throw (emit (ShowTab n) s)) /\
  (length (unset_active (steps (doc s))) <= length (steps (doc s)))%nat /\
  (Forall keeps_step (steps (doc s)) ->
     length (unset_active (steps (doc s))) = length (steps (doc s))).
Proof.
  assert (Hlen : (length (unset_active (steps (doc s))) <= length (steps (doc s)))%nat /\
                 (Forall keeps_step (steps (doc s)) ->
                  length (unset_active (steps (doc s))) = length (steps (doc s)))).
  { split; [apply unset_active_length|].
    intros Hk. now rewrite (unset_active_keeps _ Hk), length_fmap. }
  unfold RegForm.showTab. run_M. project.
  destruct (decide (0 <= n < Z.of_nat (length (tabs (doc s))))%Z) as [Hn|Hn].
  2:{ rewrite (index_None _ _ Hn). split; [|split; [|split; [|exact Hlen]]].
      - split; [intros [s' H]; discriminate H | intros [H _]; contradiction].
      - intros H; contradiction.
      - reflexivity. }
  destruct (index_Some _ _ Hn) as [x ->]. project.
  destruct (prevBtn (doc s)) as [p|] eqn:Hp.
  2:{ split; [|split; [|split; [|exact Hlen]]].
      - split; [intros [s' H]; discriminate H | intros (_ & H & _); congruence].
      - reflexivity.
      - intros H; contradiction. }
  project. destruct (nextBtn (doc s)) as [q|] eqn:Hq.
  2:{ split; [|split; [|split; [|exact Hlen]]].
      - split; [intros [s' H]; discriminate H | intros (_ & _ & H & _); congruence].
      - reflexivity.
      - intros H; contradiction. }
  project. rewrite regform_fix_outcome. project.
  destruct (decide (0 <= n < Z.of_nat (length (unset_active (steps (doc s)))))%Z) as [Hs|Hs].
  - split; [|split; [|split; [|exact Hlen]]].
    + split; [intros _ | intros _; eexists; reflexivity].
      repeat split; try congruence; lia.
    + reflexivity.
    + intros H; contradiction.
  - split; [|split; [|split; [|exact Hlen]]].
    + split; [intros [s' H]; discriminate H | intros (_ & _ & _ & H); lia].
    + reflexivity.
    + intros H; contradiction.
Qed.

Lemma regform_showTab_needs_its_page_witness :
  (exists s', RegForm.showTab 1 two_step_page = Return tt s') /\
  ~ (exists s', RegForm.showTab 1 lost_marker_page = Return tt s') /\
  tabs (doc (final (RegForm.showTab 1 lost_marker_page))) =
  <[1%nat := "block"]> (tabs (doc lost_marker_page)).
Proof.
  split; [|split].
  - apply (proj1 (regform_showTab_needs_its_page 1 two_step_page)).
    vm_compute. repeat split; congruence.
  - intros H. apply (proj1 (regform_showTab_needs_its_page 1 lost_marker_page)) in H.
    destruct H as (_ & _ & _ & H). vm_compute in H. discriminate H.
  - apply (regform_showTab_needs_its_page 1 lost_marker_page). vm_compute. split; congruence.
Defined.

(** Previous on the first step *)
Lemma regform_backward_at_0 s :
  currentTab s = 0%Z -> tabs (doc s) <> [] ->
  exists s', RegForm.nextPrev (-1) s = Throw s' /\ currentTab s' = (-1)%Z /\
    tabs (doc s') = <[0%nat := "none"]> (tabs (doc s)) /\
    only_tabs_differ s s' /\ log s' = (log s ++ [ShowTab (-1)])%list.
Proof.
  intros Hc Hne. destruct s as [d c l]. cbn [currentTab doc log] in *. subst c.
  assert (Hlen : (0 < length (tabs d))%nat).
  { destruct (tabs d); [congruence | cbn [length]; lia]. }
  unfold RegForm.nextPrev. change (-1 =? 1)%Z with false. run_M. project.
  destruct (index_Some (tabs d) 0) as [x ->]; [lia|].
  project. rewrite length_insert.
  destruct (Z.leb_spec (Z.of_nat (length (tabs d))) (0 + -1)); [lia|].
  unfold RegForm.showTab. run_M. project.
  cbn. eexists. split; [reflexivity|]. project.
  repeat split; reflexivity.
Qed.

Lemma falls_off_shared validateForm fixStepIndicator :
  falls_off_the_front (Wizard.nextPrev validateForm fixStepIndicator).
Proof.
  intros s Hc Hne.
  destruct (nextPrev_backward_at_0 validateForm fixStepIndicator s Hc Hne)
    as (s' & Hs & Hc' & Ht & Hi & Hst & Hp & Hn & Hf & Hlog).
  exists s'. split; [exact Hs|]. split; [exact Hc'|]. split; [|split; [|split]].
  - intros i d. rewrite Ht, list_lookup_fmap. destruct (tabs (doc s) !! i); cbn; congruence.
  - rewrite Ht. apply length_fmap.
  - unfold only_tabs_differ. repeat split; assumption.
  - rewrite Hlog, calls_app. reflexivity.
Qed.

(** X5. On a page with at least one tab, nextPrev(-1) on step 0 throws in all
    three wizards and leaves currentTab at -1: in the student and the teacher
    wizard with every tab hidden, in the regForm wizard with tab 0 hidden;
    fields, indicator and buttons are untouched. *)
Theorem previous_on_first_step_throws :
  falls_off_the_front Student.nextPrev /\ falls_off_the_front Teacher.nextPrev /\
  (forall s, currentTab s = 0%Z -> tabs (doc s) <> [] ->
     exists s', RegForm.nextPrev (-1) s = Throw s' /\ currentTab s' = (-1)%Z /\
       tabs (doc s') = <[0%nat := "none"]> (tabs (doc s)) /\
       only_tabs_differ s s' /\ log s' = (log s ++ [ShowTab (-1)])%list).
Proof.
  split; [|split].
  - apply falls_off_shared.
  - apply falls_off_shared.
  - exact regform_backward_at_0.
Qed.

Lemma previous_on_first_step_throws_witness :
  exists s', Student.nextPrev (-1) two_step_page = Throw s' /\ currentTab s' = (-1)%Z /\
    all_hidden (tabs (doc s')).
Proof.
  destruct previous_on_first_step_throws as [H _].
  destruct (H two_step_page eq_refl) as (s' & Hs & Hc & Hh & _).
  - discriminate.
  - exists s'. split; [exact Hs|]. split; [exact Hc | exact Hh].
Defined.

Lemma token_ok_active : token_ok "active" = true.
Proof. reflexivity. Qed.

Lemma teacher_indicator_last n m x :
  (0 <= n)%Z -> (0 <= m)%Z ->
  teacher_indicator n (teacher_indicator m x) = teacher_indicator n x.
Proof.
  intros Hn Hm. apply list_eq. intros i.
  rewrite !teacher_indicator_lookup by assumption.
  destruct (x !! i) as [c|]; [cbn [fmap option_fmap option_map]|reflexivity].
  f_equal.
  assert (E : classList_remove "active"
                ((if decide (i = Z.to_nat m)
                  then fun c => classList_add "active" (classList_remove "active" c)
                  else classList_remove "active") c) = classList_remove "active" c).
  { destruct (decide (i = Z.to_nat m)).
    - apply remove_add_remove. reflexivity.
    - apply remove_fixpoint. }
  destruct (decide (i = Z.to_nat n)); now rewrite E.
Qed.

Lemma student_indicator_last n m x :
  (0 <= n)%Z -> (0 <= m)%Z -> Forall tidy x ->
  student_indicator n (student_indicator m x) = student_indicator n x.
Proof.
  intros Hn Hm Hx. apply list_eq. intros i.
  rewrite (student_indicator_lookup n (student_indicator m x) i Hn
             (student_indicator_tidy m x Hm Hx)).
  rewrite !student_indicator_lookup by assumption.
  destruct (x !! i) as [c|] eqn:Hc; [cbn [fmap option_fmap option_map]|reflexivity].
  f_equal.
  assert (Ht : tidy c).
  { exact (Forall_lookup_1 _ _ _ _ Hx Hc). }
  pose proof (tidy_replace c Ht) as Hp.
  assert (E : replace_first " active"
                ((if decide (i = Z.to_nat m)
                  then fun c => replace_first " active" c ++ " active"
                  else replace_first " active") c) = replace_first " active" c).
  { destruct (decide (i = Z.to_nat m)).
    - now apply plain_app_replace.
    - now apply plain_replace. }
  destruct (decide (i = Z.to_nat n)); now rewrite E.
Qed.

Section Last.
Variable fixStepIndicator : Z -> M unit.
Variable indicator : Z -> list string -> list string.
Hypothesis fix_steps : forall n s,
  fixStepIndicator n s = Return tt (set_steps (indicator n (steps (doc s))) s).

Lemma showTab_doc n s :
  (0 <= n < Z.of_nat (length (tabs (doc s))))%Z ->
  exists s', Wizard.showTab fixStepIndicator n s = Return tt s' /\
    currentTab s' = currentTab s /\ log s' = (log s ++ [ShowTab n])%list /\
    doc s' =
      {| tabs := hide_all_but n (tabs (doc s)); inputs := inputs (doc s);
         steps := indicator n (steps (doc s));
         prevBtn := (fun _ => if (n =? 0)%Z then "none" else "inline") <$> prevBtn (doc s);
         nextBtn := (fun _ => if (n =? Z.of_nat (length (tabs (doc s))) - 1)%Z
                              then "Submit" else "Next") <$> nextBtn (doc s);
         form := form (doc s) |}.
Proof.
  intros Hn.
  destruct (showTab_in_range fixStepIndicator indicator fix_steps n s Hn)
    as (s' & Hs & Hc & Hlog & Ht & Hp & Hnx & Hi & Hf & Hst).
  exists s'. split; [exact Hs|]. split; [exact Hc|]. split; [exact Hlog|].
  destruct s' as [[t i st p nx f] c l]. cbn in *. congruence.
Qed.

Lemma showTab_last n m s :
  (0 <= n < Z.of_nat (length (tabs (doc s))))%Z ->
  (0 <= m < Z.of_nat (length (tabs (doc s))))%Z ->
  indicator n (indicator m (steps (doc s))) = indicator n (steps (doc s)) ->
  doc (final (Wizard.showTab fixStepIndicator n
                (final (Wizard.showTab fixStepIndicator m s)))) =
  doc (final (Wizard.showTab fixStepIndicator n s)).
Proof.
  intros Hn Hm Hind.
  destruct (showTab_doc m s Hm) as (s1 & -> & _ & _ & H1). cbn [final].
  destruct (showTab_doc n s1) as (s2 & -> & _ & _ & H2).
  { rewrite H1. cbn [tabs]. now rewrite hide_all_but_length. }
  destruct (showTab_doc n s Hn) as (s3 & -> & _ & _ & H3). cbn [final].
  rewrite H2, H3, H1. cbn [tabs inputs steps prevBtn nextBtn form].
  rewrite hide_all_but_again, hide_all_but_length, Hind.
  f_equal.
  - now destruct (prevBtn (doc s)).
  - now destruct (nextBtn (doc s)).
Qed.

End Last.

(** X6. What showTab leaves on the page depends only on the last tab shown:
    showTab(m) followed by showTab(n) leaves the same document as showTab(n)
    alone, in the teacher wizard for every indicator state and in the student
    wizard when every indicator class is free of the text 'active' or ends in
    one ' active'. *)
Theorem showTab_last_wins n m s :
  (0 <= n < Z.of_nat (length (tabs (doc s))))%Z ->
  (0 <= m < Z.of_nat (length (tabs (doc s))))%Z ->
  doc (final (Teacher.showTab n (final (Teacher.showTab m s)))) =
    doc (final (Teacher.showTab n s)) /\
  (Forall tidy (steps (doc s)) ->
   doc (final (Student.showTab n (final (Student.showTab m s)))) =
     doc (final (Student.showTab n s))).
Proof.
  intros Hn Hm. split.
  - apply (showTab_last Teacher.fixStepIndicator teacher_indicator teacher_fix_steps);
      [assumption | assumption |].
    apply teacher_indicator_last; lia.
  - intros Ht.
    apply (showTab_last Student.fixStepIndicator student_indicator student_fix_steps);
      [assumption | assumption |].
    apply student_indicator_last; [lia | lia | assumption].
Qed.

Lemma showTab_last_wins_witness :
  doc (final (Teacher.showTab 0 (final (Teacher.showTab 1 two_step_page)))) =
    doc (final (Teacher.showTab 0 two_step_page)).
Proof.
  destruct (showTab_last_wins 0 1 two_step_page) as [H _].
  - vm_compute. split; congruence.
  - vm_compute. split; congruence.
  - exact H.
Defined.

Section Moves.
Variable validateForm : M bool.
Variable fixStepIndicator : Z -> M unit.
Variable indicator : Z -> list string -> list string.
Hypothesis fix_steps : forall n s,
  fixStepIndicator n s = Return tt (set_steps (indicator n (steps (doc s))) s).

(** Past the validation, [nextPrev n] leaves the page as
    [showTab (currentTab + n)] alone would. *)
Lemma nextPrev_moves n s s1 :
  (if (n =? 1)%Z then validateForm s = Return true s1 else s1 = s) ->
  (0 <= currentTab s1 + n < Z.of_nat (length (tabs (doc s1))))%Z ->
  exists s',
    Wizard.nextPrev validateForm fixStepIndicator n s = Return None s' /\
    currentTab s' = (currentTab s1 + n)%Z /\
    doc s' = doc (final (Wizard.showTab fixStepIndicator (currentTab s1 + n) s1)) /\
    log s' = (log s1 ++ [ShowTab (currentTab s1 + n)])%list.
Proof.
  intros Hv Hn.
  assert (Hgo : Wizard.nextPrev validateForm fixStepIndicator n s =
    (s0 ← get;
     match Js.index (tabs (doc s0)) (currentTab s0) with
     | Some _ => modify (set_tabs (<[Z.to_nat (currentTab s0) := "none"]> (tabs (doc s0))))
     | None => mret tt
     end;;
     modify (fun s => set_currentTab (currentTab s + n) s);;
     s2 ← get;
     if (Z.of_nat (length (tabs (doc s2))) <=? currentTab s2)%Z then
       (if form (doc s2) then modify (emit Submit) else mret tt);;
       mret (Some false)
     else
       Wizard.showTab fixStepIndicator (currentTab s2);;
       mret None) s1).
  { unfold Wizard.nextPrev. destruct (n =? 1)%Z.
    - run_M. rewrite Hv. reflexivity.
    - subst s1. reflexivity. }
  rewrite Hgo. clear Hgo Hv. run_M.
  destruct (showTab_doc fixStepIndicator indicator fix_steps _ s1 Hn)
    as (s3 & E3 & Hc3 & Hl3 & Hd3).
  rewrite E3. cbn [final]. rewrite Hd3.
  destruct (Js.index (tabs (doc s1)) (currentTab s1)); project.
  - rewrite length_insert.
    destruct (Z.leb_spec (Z.of_nat (length (tabs (doc s1)))) (currentTab s1 + n)); [lia|].
    match goal with |- context [Wizard.showTab fixStepIndicator ?k ?st] =>
      destruct (showTab_doc fixStepIndicator indicator fix_steps k st)
        as (s' & -> & Hc & Hl & Hd)
    end.
    { project. rewrite length_insert. lia. }
    revert Hc Hl Hd. project. rewrite length_insert, hide_all_but_insert. intros.
    exists s'. repeat split; assumption.
  - destruct (Z.leb_spec (Z.of_nat (length (tabs (doc s1)))) (currentTab s1 + n)); [lia|].
    match goal with |- context [Wizard.showTab fixStepIndicator ?k ?st] =>
      destruct (showTab_doc fixStepIndicator indicator fix_steps k st)
        as (s' & -> & Hc & Hl & Hd)
    end.
    { project. lia. }
    revert Hc Hl Hd. project. intros.
    exists s'. repeat split; assumption.
Qed.

End Moves.

(** X7. In the student and the teacher wizard a nextPrev(n) that is not blocked
    by validation and lands on an existing step returns undefined, adds n to
    currentTab and leaves the document exactly as showTab of the new step would,
    applied to the page the validation left; this also holds when the step it
    leaves does not exist. *)
Theorem nextPrev_lands_like_showTab :
  lands_like_showTab Student.validateForm Student.showTab Student.nextPrev /\
  lands_like_showTab Teacher.validateForm Teacher.showTab Teacher.nextPrev.
Proof.
  split; intros n s s1.
  - exact (nextPrev_moves Student.validateForm Student.fixStepIndicator student_indicator
             student_fix_steps n s s1).
  - exact (nextPrev_moves Teacher.validateForm Teacher.fixStepIndicator teacher_indicator
             teacher_fix_steps n s s1).
Qed.

Lemma nextPrev_lands_like_showTab_witness :
  exists s',
    Student.nextPrev (-1) (set_currentTab 1 two_step_page) = Return None s' /\
    currentTab s' = 0%Z /\
    doc s' = doc (final (Student.showTab 0 (set_currentTab 1 two_step_page))).
Proof.
  destruct nextPrev_lands_like_showTab as [H _].
  destruct (H (-1)%Z (set_currentTab 1 two_step_page) (set_currentTab 1 two_step_page))
    as (s' & Hs & Hc & Hd & _).
  - reflexivity.
  - vm_compute. split; congruence.
  - exists s'. split; [exact Hs|]. split; [exact Hc | exact Hd].
Defined.

Lemma teacher_validate_nav s v s1 :
  Teacher.validateForm s = Return v s1 ->
  currentTab s1 = currentTab s /\ tabs (doc s1) = tabs (doc s) /\
  prevBtn (doc s1) = prevBtn (doc s) /\ nextBtn (doc s1) = nextBtn (doc s) /\
  form (doc s1) = form (doc s) /\ log s1 = log s.
Proof.
  unfold Teacher.validateForm.
  destruct (Js.index (tabs (doc s)) (currentTab s)).
  2:{ intros H. injection H as _ <-. repeat split. }
  destruct (fold_left _ _ _) as [l valid]. project.
  destruct valid; [destruct (Js.index (steps (doc s)) (currentTab s))|];
    intros H; injection H as _ <-; repeat split.
Qed.

Section RoundTrip.
Variable validateForm : M bool.
Variable fixStepIndicator : Z -> M unit.
Variable indicator : Z -> list string -> list string.
Hypothesis fix_steps : forall n s,
  fixStepIndicator n s = Return tt (set_steps (indicator n (steps (doc s))) s).

Lemma showTab_doc_only n s s' :
  doc s = doc s' ->
  (0 <= n < Z.of_nat (length (tabs (doc s))))%Z ->
  doc (final (Wizard.showTab fixStepIndicator n s)) =
  doc (final (Wizard.showTab fixStepIndicator n s')).
Proof.
  intros E Hn.
  destruct (showTab_doc fixStepIndicator indicator fix_steps n s Hn) as (t & -> & _ & _ & Hd).
  destruct (showTab_doc fixStepIndicator indicator fix_steps n s') as (t' & -> & _ & _ & Hd').
  { now rewrite <- E. }
  cbn [final]. now rewrite Hd, Hd', E.
Qed.

Lemma round_trip s s1 :
  validateForm s = Return true s1 ->
  currentTab s1 = currentTab s -> tabs (doc s1) = tabs (doc s) ->
  calls (log s1) = calls (log s) ->
  tab_exists s -> (currentTab s + 1 < Z.of_nat (length (tabs (doc s))))%Z ->
  indicator (currentTab s) (indicator (currentTab s + 1) (steps (doc s1))) =
    indicator (currentTab s) (steps (doc s1)) ->
  there_and_back validateForm (Wizard.showTab fixStepIndicator)
    (Wizard.nextPrev validateForm fixStepIndicator) s.
Proof.
  intros Hv Hc Ht Hl He Hlt Hind. unfold tab_exists in He.
  destruct (nextPrev_moves validateForm fixStepIndicator indicator fix_steps 1 s s1 Hv)
    as (s2 & E2 & Hc2 & Hd2 & Hl2).
  { rewrite Hc, Ht. lia. }
  assert (Hlen : length (tabs (doc s2)) = length (tabs (doc s))).
  { rewrite Hd2.
    destruct (showTab_doc fixStepIndicator indicator fix_steps (currentTab s1 + 1) s1)
      as (t & -> & _ & _ & Hd); [rewrite Hc, Ht; lia|].
    cbn [final]. rewrite Hd. cbn [tabs]. now rewrite hide_all_but_length, Ht. }
  destruct (nextPrev_moves validateForm fixStepIndicator indicator fix_steps (-1) s2 s2 eq_refl)
    as (s3 & E3 & Hc3 & Hd3 & Hl3).
  { rewrite Hlen, Hc2, Hc. lia. }
  exists s1, s2, s3. split; [exact Hv|]. split; [exact E2|]. split; [exact E3|].
  assert (Hback : (currentTab s2 + -1 = currentTab s)%Z) by lia.
  rewrite Hback in *. split; [lia|]. split.
  - rewrite Hd3.
    rewrite (showTab_doc_only (currentTab s) s2
               (final (Wizard.showTab fixStepIndicator (currentTab s1 + 1) s1))).
    + rewrite Hc.
      apply (showTab_last fixStepIndicator indicator fix_steps); rewrite ?Ht; try lia.
      exact Hind.
    + exact Hd2.
    + rewrite Hlen. lia.
  - rewrite Hl3, Hl2, !calls_app, Hl, Hc, <- app_assoc. reflexivity.
Qed.

End RoundTrip.

(** X8. A passing Next followed by Previous brings the wizard back to the step
    it started from, with the document as a fresh showTab of that step on the
    page the validation left, and with exactly the two showTab calls in between;
    Previous does not validate. Teacher wizard: always; student wizard: when the
    indicator classes are tidy. *)
Theorem next_then_previous s :
  tab_exists s -> (currentTab s + 1 < Z.of_nat (length (tabs (doc s))))%Z ->
  (forall s1, Teacher.validateForm s = Return true s1 ->
     there_and_back Teacher.validateForm Teacher.showTab Teacher.nextPrev s) /\
  (forall s1, Student.validateForm s = Return true s1 -> Forall tidy (steps (doc s)) ->
     there_and_back Student.validateForm Student.showTab Student.nextPrev s).
Proof.
  intros He Hlt. split.
  - intros s1 Hv.
    destruct (teacher_validate_nav s true s1 Hv) as (Hc & Ht & _ & _ & _ & Hl).
    apply (round_trip Teacher.validateForm Teacher.fixStepIndicator teacher_indicator
             teacher_fix_steps s s1); try assumption.
    + now rewrite Hl.
    + unfold tab_exists in He. apply teacher_indicator_last; lia.
  - intros s1 Hv Htidy.
    destruct (student_validate_frame s true s1 Hv) as ((Hc & Ht & Hst & _) & Hl & _).
    apply (round_trip Student.validateForm Student.fixStepIndicator student_indicator
             student_fix_steps s s1); try assumption.
    unfold tab_exists in He. rewrite Hst. apply student_indicator_last; [lia | lia | assumption].
Qed.

Lemma next_then_previous_witness :
  there_and_back Teacher.validateForm Teacher.showTab Teacher.nextPrev two_step_page.
Proof.
  destruct (next_then_previous two_step_page) as [H _].
  - vm_compute. split; congruence.
  - vm_compute. reflexivity.
  - apply (H (final (Teacher.validateForm two_step_page))). reflexivity.
Defined.

Lemma teacher_validate_no_tab s :
  ~ tab_exists s -> Teacher.validateForm s = Return true s.
Proof.
  intros H. unfold Teacher.validateForm. now rewrite (index_None _ _ H).
Qed.

Section PastTheEnd.
Variable validateForm : M bool.
Variable fixStepIndicator : Z -> M unit.
Hypothesis no_tab : forall s, ~ tab_exists s -> validateForm s = Return true s.

Lemma nextPrev_off_the_end :
  runs_off_the_end validateForm (Wizard.nextPrev validateForm fixStepIndicator).
Proof.
  split.
  - intros s s1 Hv Hc Hne.
    assert (Hlen : (0 < length (tabs (doc s1)))%nat).
    { destruct (tabs (doc s1)); [congruence | cbn [length]; lia]. }
    unfold Wizard.nextPrev. change (1 =? 1)%Z with true. run_M. rewrite Hv. cbn [negb].
    destruct (index_Some (tabs (doc s1)) (currentTab s1)) as [x ->]; [lia|]. project.
    rewrite length_insert.
    destruct (Z.leb_spec (Z.of_nat (length (tabs (doc s1)))) (currentTab s1 + 1)); [|lia].
    unfold only_tabs_differ.
    destruct (form (doc s1)) eqn:Hf; eexists; (split; [reflexivity|]); project;
      rewrite ?Hf, ?app_nil_r; repeat split; lia.
  - intros s Hc.
    unfold Wizard.nextPrev. change (1 =? 1)%Z with true. run_M.
    rewrite no_tab by (unfold tab_exists; lia). cbn [negb].
    rewrite index_None by lia. project.
    destruct (Z.leb_spec (Z.of_nat (length (tabs (doc s)))) (currentTab s + 1)); [|lia].
    destruct (form (doc s)); reflexivity.
Qed.

End PastTheEnd.

(** X9. In the student and the teacher wizard a passing Next on the last step
    hides that step, sets currentTab to the number of tabs, shows no tab and
    calls form.submit() only if a form is found; once currentTab is at or past
    the number of tabs every further nextPrev(1) skips validation, adds one to
    currentTab and submits again. *)
Theorem next_runs_off_the_end :
  runs_off_the_end Student.validateForm Student.nextPrev /\
  runs_off_the_end Teacher.validateForm Teacher.nextPrev.
Proof.
  split.
  - exact (nextPrev_off_the_end Student.validateForm Student.fixStepIndicator
             student_validate_no_tab).
  - exact (nextPrev_off_the_end Teacher.validateForm Teacher.fixStepIndicator
             teacher_validate_no_tab).
Qed.

Lemma next_runs_off_the_end_witness :
  Student.nextPrev 1 (set_currentTab 2 two_step_page) =
  Return (Some false) (emit Submit (set_currentTab 3 (set_currentTab 2 two_step_page))).
Proof.
  destruct next_runs_off_the_end as [[_ H] _].
  apply (H (set_currentTab 2 two_step_page)). vm_compute. congruence.
Defined.

(** X10. In the regForm wizard validateForm, nextPrev(1) and nextPrev(-1) throw
    without changing anything when currentTab is not the index of a tab, and a
    passing Next on the last step throws instead of submitting when the form
    regForm is missing. *)
Theorem regform_off_range_throws :
  (forall s, ~ tab_exists s ->
     RegForm.validateForm s = Throw s /\ RegForm.nextPrev 1 s = Throw s /\
     RegForm.nextPrev (-1) s = Throw s) /\
  (forall s s1,
     RegForm.validateForm s = Return true s1 ->
     currentTab s1 = (Z.of_nat (length (tabs (doc s1))) - 1)%Z -> form (doc s1) = false ->
     exists s', RegForm.nextPrev 1 s = Throw s' /\
       currentTab s' = Z.of_nat (length (tabs (doc s1))) /\ log s' = log s1).
Proof.
  split.
  - intros s H.
    assert (Hv : RegForm.validateForm s = Throw s).
    { unfold RegForm.validateForm. now rewrite (index_None _ _ H). }
    split; [exact Hv|]. split.
    + unfold RegForm.nextPrev. change (1 =? 1)%Z with true. run_M. now rewrite Hv.
    + unfold RegForm.nextPrev. change (-1 =? 1)%Z with false. run_M.
      now rewrite (index_None _ _ H).
  - intros s s1 Hv Hc Hf.
    destruct (regform_validate_frame s s1 Hv) as (He & Hc1 & Ht1 & _).
    unfold tab_exists in He.
    unfold RegForm.nextPrev. change (1 =? 1)%Z with true. run_M. rewrite Hv. cbn [negb].
    destruct (index_Some (tabs (doc s1)) (currentTab s1)) as [x ->].
    { rewrite Hc1, Ht1. lia. }
    project. rewrite length_insert.
    destruct (Z.leb_spec (Z.of_nat (length (tabs (doc s1)))) (currentTab s1 + 1)); [|lia].
    rewrite Hf. eexists. split; [reflexivity|]. project. split; [lia | reflexivity].
Qed.

Lemma regform_off_range_throws_witness :
  RegForm.nextPrev 1 (set_currentTab 2 two_step_page) = Throw (set_currentTab 2 two_step_page).
Proof.
  destruct regform_off_range_throws as [H _].
  apply (H (set_currentTab 2 two_step_page)). vm_compute. intros [_ E]. discriminate E.
Defined.

(** ** Validation, field by field *)

Lemma alter_all_scanned (p : Field -> bool) (g : Field -> Field) (l : list Field) :
  alter_all g (indices_from p 0 l) l = (fun f => if p f then g f else f) <$> l.
Proof.
  apply list_eq. intros i. rewrite list_lookup_fmap.
  destruct (at_index p l i) eqn:E.
  - rewrite alter_all_once; [| apply NoDup_indices_from | now apply In_indices_from_0].
    unfold at_index in E. destruct (l !! i); [cbn; now rewrite E | discriminate].
  - rewrite alter_all_notin.
    + unfold at_index in E. destruct (l !! i); [cbn; now rewrite E | reflexivity].
    + rewrite In_indices_from_0. congruence.
Qed.

(** X11. validateForm changes the field list pointwise and only inside the
    current step: the teacher wizard replaces the class of each field of the
    step by the class with 'invalid' removed and, if the field is required and
    empty, added again; the regForm wizard appends ' invalid' to the class of
    each empty input element of the step; every other field, and everything but
    the class, is left as it was. *)
Theorem validation_rewrites_its_step_only :
  (forall s v s', Teacher.validateForm s = Return v s' ->
     marks_pointwise in_tab teacher_mark s s' \/ (~ tab_exists s /\ s' = s)) /\
  (forall s v s', RegForm.validateForm s = Return v s' ->
     marks_pointwise (fun c f => in_tab c f && is_input_tag (kind f)) regform_mark s s').
Proof.
  split.
  - intros s v s' H.
    destruct (decide (tab_exists s)) as [He|He].
    + left. destruct (teacher_inputs_after s He) as (s1 & Hs & Hi).
      rewrite Hs in H. injection H as _ <-.
      unfold marks_pointwise. rewrite Hi. apply alter_all_scanned.
    + right. split; [exact He|]. rewrite (teacher_validate_no_tab s He) in H. congruence.
  - intros s v s' H. unfold marks_pointwise.
    rewrite (regform_inputs_after s v s' H). apply alter_all_scanned.
Qed.

Lemma validation_rewrites_its_step_only_witness :
  marks_pointwise (fun c f => in_tab c f && is_input_tag (kind f)) regform_mark
    name_missing_page (final (RegForm.validateForm name_missing_page)).
Proof.
  destruct validation_rewrites_its_step_only as [_ H].
  apply (H name_missing_page false). reflexivity.
Defined.

Lemma add_fixpoint t c :
  token_ok t = true -> classList_add t (classList_add t c) = classList_add t c.
Proof.
  intros Ht. unfold classList_add at 1 3. rewrite (tokens_add t c Ht).
  destruct (existsb (String.eqb t) (tokens c)) eqn:E.
  - now rewrite E.
  - assert (Hin : existsb (String.eqb t) (tokens c ++ [t]) = true).
    { rewrite existsb_app. cbn. rewrite String.eqb_refl. now rewrite orb_true_r. }
    now rewrite Hin.
Qed.

Lemma indices_from_shape (p : Field -> bool) k l l' :
  (forall f f', shape f = shape f' -> p f = p f') ->
  same_shape l l' -> indices_from p k l = indices_from p k l'.
Proof.
  intros Hp. revert k l'. induction l as [|f l IH]; intros k [|f' l'] H; try discriminate H.
  - reflexivity.
  - unfold same_shape in H. rewrite !fmap_cons in H.
    assert (Hf : shape f = shape f') by congruence.
    assert (Hl : same_shape l l') by (unfold same_shape; congruence).
    cbn. rewrite (Hp f f' Hf), (IH (S k) l' Hl). reflexivity.
Qed.

Lemma in_tab_shape c f f' : shape f = shape f' -> in_tab c f = in_tab c f'.
Proof.
  intros H. unfold in_tab.
  assert (tabOf f = tabOf f') as -> by exact (f_equal tabOf H). reflexivity.
Qed.

Lemma teacher_offending_shape f f' :
  shape f = shape f' -> teacher_offending f = teacher_offending f'.
Proof.
  intros H. unfold teacher_offending.
  assert (required f = required f') as -> by exact (f_equal required H).
  assert (value f = value f') as -> by exact (f_equal value H). reflexivity.
Qed.

Lemma teacher_mark_idem f : teacher_mark (teacher_mark f) = teacher_mark f.
Proof.
  unfold teacher_mark at 1.
  rewrite (teacher_offending_shape (teacher_mark f) f (teacher_mark_shape f)).
  unfold teacher_mark.
  destruct (teacher_offending f); destruct f as [k n r v c cl t];
    unfold Wizard.add_invalid, Wizard.remove_invalid, map_className, set_className;
    cbn [kind nameAttr required value checked className tabOf]; f_equal.
  - now rewrite remove_add_remove.
  - apply remove_fixpoint.
Qed.

Lemma forallb_pointwise {A} (p q : A -> bool) l :
  (forall x, p x = q x) -> forallb p l = forallb q l.
Proof.
  intros H. induction l as [|x l IH]; [reflexivity|]. cbn. now rewrite H, IH.
Qed.

(** X12. Calling the teacher validateForm again on the state it has just left
    returns the same verdict and changes nothing. *)
Theorem teacher_validation_is_stable s v s' :
  Teacher.validateForm s = Return v s' -> Teacher.validateForm s' = Return v s'.
Proof.
  intros H.
  destruct (decide (tab_exists s)) as [He|He].
  2:{ rewrite (teacher_validate_no_tab s He) in H. injection H as <- <-.
      now apply teacher_validate_no_tab. }
  destruct (teacher_validate_nav s v s' H) as (Hc & Ht & _).
  assert (He' : tab_exists s') by (unfold tab_exists in *; now rewrite Hc, Ht).
  pose proof (teacher_validate_eq s He) as E. cbv zeta in E. rewrite E in H. clear E.
  injection H as Hv Hs'.
  set (l := inputs (doc s)) in *. set (idxs := tab_fields (currentTab s) l) in *.
  set (l' := alter_all teacher_mark idxs l) in *.
  assert (Hsh : same_shape l l') by (apply same_shape_alter_all, teacher_mark_shape).
  assert (Hin : inputs (doc s') = l').
  { rewrite <- Hs'. destruct (forallb _ idxs); [destruct (Js.index _ _)|]; reflexivity. }
  assert (Hidx : tab_fields (currentTab s') (inputs (doc s')) = idxs).
  { rewrite Hin, Hc. unfold idxs, tab_fields. symmetry.
    apply indices_from_shape; [apply in_tab_shape | exact Hsh]. }
  assert (Hval : forallb (fun i => negb (at_index teacher_offending (inputs (doc s')) i)) idxs = v).
  { rewrite <- Hv, Hin. apply forallb_pointwise. intros i. f_equal. symmetry.
    apply at_index_shape; [exact Hsh | apply teacher_offending_shape]. }
  assert (Hfix : alter_all teacher_mark idxs l' = l').
  { unfold l', idxs, tab_fields. rewrite alter_all_scanned.
    rewrite (indices_from_shape (in_tab (currentTab s)) 0 l
               ((fun f => if in_tab (currentTab s) f then teacher_mark f else f) <$> l)).
    - rewrite alter_all_scanned, <- list_fmap_compose. apply list_fmap_ext.
      intros i f _. cbn.
      destruct (in_tab (currentTab s) f) eqn:Ef.
      + rewrite (in_tab_shape _ (teacher_mark f) f (teacher_mark_shape f)), Ef.
        apply teacher_mark_idem.
      + now rewrite Ef.
    - apply in_tab_shape.
    - rewrite <- alter_all_scanned. exact Hsh. }
  pose proof (teacher_validate_eq s' He') as E. cbv zeta in E. rewrite E. clear E.
  rewrite Hidx, Hval, Hin, Hfix, Hc.
  destruct v.
  - rewrite Hv in Hs'.
    destruct (Js.index (steps (doc s)) (currentTab s)) as [x|] eqn:Hx.
    + subst s'. unfold mark_finished. project.
      destruct (index_Some_inv _ _ _ Hx) as [Hr Hlk].
      destruct (index_Some (alter (classList_add "finish") (Z.to_nat (currentTab s)) (steps (doc s)))
                  (currentTab s)) as [y ->].
      { now rewrite length_alter. }
      unfold set_steps, set_inputs. project.
      rewrite list_alter_alter_eq.
      rewrite (list_alter_ext (classList_add "finish" ∘ classList_add "finish")
                 (classList_add "finish") (steps (doc s)) (steps (doc s))); [reflexivity| |reflexivity].
      intros c _. cbn. now apply add_fixpoint.
    + subst s'. project. rewrite Hx. unfold set_inputs. project. reflexivity.
  - rewrite Hv in Hs'. subst s'. unfold set_inputs. project. reflexivity.
Qed.

Lemma teacher_validation_is_stable_witness :
  Teacher.validateForm (final (Teacher.validateForm name_missing_page)) =
  Return false (final (Teacher.validateForm name_missing_page)).
Proof.
  apply (teacher_validation_is_stable name_missing_page). reflexivity.
Defined.

(** *** The finish mark stays *)

Lemma finished_steps c s s' :
  (forall i cls, steps (doc s) !! i = Some cls -> contains cls "finish" = true ->
     exists cls', steps (doc s') !! i = Some cls' /\ contains cls' "finish" = true) ->
  finished c s -> finished c s'.
Proof. intros H (cls & Hl & Hc). exact (H _ _ Hl Hc). Qed.

Lemma teacher_indicator_keeps_finish n x i cls :
  x !! i = Some cls -> contains cls "finish" = true ->
  exists cls', teacher_indicator n x !! i = Some cls' /\ contains cls' "finish" = true.
Proof.
  intros Hl Hc. unfold teacher_indicator.
  assert (Hr : (classList_remove "active" <$> x) !! i = Some (classList_remove "active" cls)).
  { now rewrite list_lookup_fmap, Hl. }
  assert (Hcr : contains (classList_remove "active" cls) "finish" = true).
  { rewrite contains_remove, Hc. reflexivity. }
  destruct (Js.index _ n); [|eauto].
  destruct (decide (i = Z.to_nat n)) as [->|N].
  - rewrite list_lookup_alter_eq, Hr. cbn. eexists. split; [reflexivity|].
    rewrite contains_add by reflexivity. rewrite Hcr. apply orb_true_r.
  - rewrite list_lookup_alter_ne by congruence. eauto.
Qed.

Lemma teacher_validate_keeps_finish s c :
  finished c s -> finished c (final (Teacher.validateForm s)).
Proof.
  apply finished_steps. intros i cls Hl Hc.
  unfold Teacher.validateForm.
  destruct (Js.index (tabs (doc s)) (currentTab s)); [|cbn [final]; eauto].
  destruct (fold_left _ _ _) as [l valid]. project.
  destruct valid; [destruct (Js.index (steps (doc s)) (currentTab s))|]; project; eauto.
  destruct (decide (i = Z.to_nat (currentTab s))) as [->|N].
  - rewrite list_lookup_alter_eq, Hl. cbn. eexists. split; [reflexivity|].
    rewrite contains_add by reflexivity. rewrite Hc. apply orb_true_r.
  - rewrite list_lookup_alter_ne by congruence. eauto.
Qed.

Lemma teacher_showTab_steps n s :
  steps (doc (final (Teacher.showTab n s))) = steps (doc s) \/
  steps (doc (final (Teacher.showTab n s))) = teacher_indicator n (steps (doc s)).
Proof.
  unfold Teacher.showTab.
  destruct (decide (tabs (doc s) = [])) as [E|Hne].
  { rewrite (showTab_no_tabs _ n s E). now left. }
  destruct (decide (0 <= n < Z.of_nat (length (tabs (doc s))))%Z) as [Hn|Hn].
  - destruct (showTab_in_range Teacher.fixStepIndicator teacher_indicator teacher_fix_steps n s Hn)
      as (s' & -> & _ & _ & _ & _ & _ & _ & _ & Hst).
    now right.
  - rewrite (showTab_missing _ n s Hne Hn). now left.
Qed.

Lemma teacher_showTab_keeps_finish n s c :
  finished c s -> finished c (final (Teacher.showTab n s)).
Proof.
  apply finished_steps. intros i cls Hl Hc.
  destruct (teacher_showTab_steps n s) as [-> | ->]; [eauto|].
  exact (teacher_indicator_keeps_finish n _ i cls Hl Hc).
Qed.

Lemma finished_same_steps c s s' :
  steps (doc s') = steps (doc s) -> finished c s -> finished c s'.
Proof. unfold finished. now intros ->. Qed.

Lemma teacher_nextPrev_keeps_finish n s c :
  finished c s -> finished c (final (Teacher.nextPrev n s)).
Proof.
  intros Hf.
  assert (Hgo : forall s1, finished c s1 ->
    finished c (final (
     (s0 ← get;
      match Js.index (tabs (doc s0)) (currentTab s0) with
      | Some _ => modify (set_tabs (<[Z.to_nat (currentTab s0) := "none"]> (tabs (doc s0))))
      | None => mret tt
      end;;
      modify (fun s => set_currentTab (currentTab s + n) s);;
      s2 ← get;
      if (Z.of_nat (length (tabs (doc s2))) <=? currentTab s2)%Z then
        (if form (doc s2) then modify (emit Submit) else mret tt);;
        mret (Some false)
      else
        Wizard.showTab Teacher.fixStepIndicator (currentTab s2);;
        mret None) s1))).
  { intros s1 H1. run_M.
    set (s2 := match Js.index (tabs (doc s1)) (currentTab s1) with
               | Some _ => set_tabs (<[Z.to_nat (currentTab s1) := "none"]> (tabs (doc s1))) s1
               | None => s1 end).
    assert (H2 : finished c (set_currentTab (currentTab s2 + n) s2)).
    { apply (finished_same_steps c s1); [|exact H1].
      unfold s2. destruct (Js.index _ _); reflexivity. }
    assert (E : forall A (k : unit -> M A),
      match (match Js.index (tabs (doc s1)) (currentTab s1) with
             | Some _ => fun s => Return tt (set_tabs (<[Z.to_nat (currentTab s1) := "none"]> (tabs (doc s1))) s)
             | None => fun s => Return tt s
             end) s1 with
      | Return v s' => k v s'
      | Throw s' => Throw s'
      end = k tt s2).
    { intros A k. unfold s2. destruct (Js.index _ _); reflexivity. }
    rewrite E. clear E.
    set (s3 := set_currentTab (currentTab s2 + n) s2) in *.
    change (currentTab s2 + n)%Z with (currentTab s3).
    change (tabs (doc s2)) with (tabs (doc s3)).
    change (form (doc s2)) with (form (doc s3)).
    destruct (Z.of_nat (length (tabs (doc s3))) <=? currentTab s3)%Z.
    - destruct (form (doc s3)); cbn [final]; exact H2.
    - pose proof (teacher_showTab_keeps_finish (currentTab s3) s3 c H2) as H3.
      unfold Teacher.showTab in H3.
      destruct (Wizard.showTab Teacher.fixStepIndicator (currentTab s3) s3); exact H3. }
  unfold Teacher.nextPrev, Wizard.nextPrev. destruct (n =? 1)%Z.
  - run_M. pose proof (teacher_validate_keeps_finish s c Hf) as Hv.
    destruct (Teacher.validateForm s) as [v s1|s1]; cbn [final] in Hv; [|exact Hv].
    destruct v; cbn [negb]; [|exact Hv].
    exact (Hgo s1 Hv).
  - exact (Hgo s Hf).
Qed.

(** X14. In the teacher wizard an indicator entry that carries 'finish' keeps it
    through validateForm, fixStepIndicator, showTab and nextPrev, whatever their
    arguments and outcome. *)
Theorem teacher_finish_mark_stays c s :
  finished c s ->
  finished c (final (Teacher.validateForm s)) /\
  (forall n, finished c (final (Teacher.fixStepIndicator n s)) /\
             finished c (final (Teacher.showTab n s)) /\
             finished c (final (Teacher.nextPrev n s))).
Proof.
  intros Hf. split; [now apply teacher_validate_keeps_finish|].
  intros n. split; [|split].
  - revert Hf. apply finished_steps. intros i cls Hl Hc.
    rewrite teacher_fix_steps. cbn [final]. project.
    exact (teacher_indicator_keeps_finish n _ i cls Hl Hc).
  - now apply teacher_showTab_keeps_finish.
  - now apply teacher_nextPrev_keeps_finish.
Qed.

Lemma teacher_finish_mark_stays_witness :
  finished 0 (final (Teacher.nextPrev 1 (final (Teacher.validateForm two_step_page)))).
Proof.
  apply (teacher_finish_mark_stays 0 (final (Teacher.validateForm two_step_page))).
  eexists. split; reflexivity.
Defined.

Lemma same_shape_Some l l' i f :
  same_shape l l' -> l !! i = Some f -> exists f', l' !! i = Some f' /\ shape f = shape f'.
Proof.
  intros H Hl. pose proof (same_shape_lookup l l' i H) as E. rewrite Hl in E.
  destruct (l' !! i) as [f'|]; [|discriminate E]. exists f'. split; [reflexivity|].
  cbn in E. congruence.
Qed.

Lemma matches_shape n f f' :
  shape f = shape f' -> matches_input_name n f = matches_input_name n f'.
Proof.
  intros H. unfold matches_input_name.
  assert (kind f = kind f') as -> by exact (f_equal kind H).
  assert (nameAttr f = nameAttr f') as -> by exact (f_equal nameAttr H). reflexivity.
Qed.

Lemma name_shape f f' : shape f = shape f' -> name f = name f'.
Proof.
  intros H. unfold name.
  assert (nameAttr f = nameAttr f') as -> by exact (f_equal nameAttr H). reflexivity.
Qed.

Lemma student_check_group l0 l v a g i f :
  same_shape l0 l -> a <> i -> l0 !! a = Some g -> l0 !! i = Some f ->
  group_hits l0 g f = true ->
  at_index is_invalid (fst (Student.check_field (l, v) a)) i = true.
Proof.
  intros Hsh Hne Ha Hi Hg.
  destruct (same_shape_Some l0 l a g Hsh Ha) as (g' & Ha' & Sg).
  destruct (same_shape_Some l0 l i f Hsh Hi) as (f' & Hi' & Sf).
  unfold group_hits in Hg. apply andb_true_iff in Hg as [Hg Hm].
  apply andb_true_iff in Hg as [Ho Hr].
  rewrite (student_check_cases l v a g' Ha'). cbv zeta.
  rewrite <- (student_offending_shape l0 l g g' Hsh Sg), Ho.
  assert (kind g = kind g') as Hk by exact (f_equal kind Sg).
  rewrite <- Hk, Hr. cbn [fst]. unfold at_index.
  rewrite list_lookup_fmap, list_lookup_alter_ne by congruence. rewrite Hi'. cbn.
  rewrite <- (name_shape g g' Sg), <- (matches_shape (name g) f f' Sf), Hm.
  apply is_invalid_add.
Qed.

Lemma student_loop_group_marks l0 idxs l v a g i f :
  same_shape l0 l -> In a idxs -> ~ In i idxs -> l0 !! a = Some g -> l0 !! i = Some f ->
  group_hits l0 g f = true ->
  at_index is_invalid (fst (fold_left Student.check_field idxs (l, v))) i = true.
Proof.
  intros Hsh Hin Hni Ha Hi Hg. revert l v Hsh Hin Hni.
  induction idxs as [|b rest IH]; intros l v Hsh Hin Hni; [destruct Hin|].
  cbn [fold_left].
  destruct (Student.check_field (l, v) b) as [l1 v1] eqn:E.
  assert (Hsh1 : same_shape l0 l1).
  { eapply same_shape_trans; [exact Hsh|].
    pose proof (student_check_shape l v b) as H. now rewrite E in H. }
  destruct (Nat.eq_dec b a) as [->|Hba].
  - apply student_loop_keeps; [intros H; apply Hni; now right|].
    pose proof (student_check_group l0 l v a g i f Hsh) as H. rewrite E in H.
    apply H; try assumption. intros ->. apply Hni. now left.
  - apply IH; [exact Hsh1 | | intros H; apply Hni; now right].
    destruct Hin as [H|H]; [congruence | exact H].
Qed.

(** X15. The student validateForm reaches fields outside the current step only
    through radio groups: an input of another step that carries the name of a
    required radio button of the current step whose group has no checked member
    ends up marked invalid, and a field of another step that no such radio
    button names is left exactly as it was.  The names of the required radio
    buttons of the step are taken to hold no double quote, backslash, line
    break or NUL, so that the selector built from a name selects the inputs of
    that name. *)
Theorem student_fields_outside_the_step s v s' i f :
  Student.validateForm s = Return v s' -> tab_exists s -> radio_names_plain s ->
  inputs (doc s) !! i = Some f -> in_tab (currentTab s) f = false ->
  ((exists a g, inputs (doc s) !! a = Some g /\ in_tab (currentTab s) g = true /\
                group_hits (inputs (doc s)) g f = true) ->
   marked_in s' i) /\
  ((forall a g, inputs (doc s) !! a = Some g -> in_tab (currentTab s) g = true ->
                group_hits (inputs (doc s)) g f = false) ->
   inputs (doc s') !! i = Some f).
Proof.
  intros Hv He _ Hi Ht.
  destruct (student_inputs_after s He) as (s1 & Hs & Hin).
  rewrite Hs in Hv. injection Hv as _ <-.
  assert (Hni : ~ In i (tab_fields (currentTab s) (inputs (doc s)))).
  { rewrite In_tab_fields. unfold at_index. rewrite Hi, Ht. discriminate. }
  split.
  - intros (a & g & Ha & Hg & Hh). unfold marked_in. rewrite Hin.
    apply (student_loop_group_marks (inputs (doc s)) _ _ _ a g i f); try assumption.
    + apply same_shape_refl.
    + rewrite In_tab_fields. unfold at_index. now rewrite Ha.
  - intros Hno. rewrite Hin, <- Hi.
    apply (student_loop_untouched (inputs (doc s)) _ _ _ i f); try assumption.
    + apply same_shape_refl.
    + intros a g Ha Hg. apply (Hno a g Hg).
      apply In_tab_fields in Ha. unfold at_index in Ha. now rewrite Hg in Ha.
Qed.

Import Cases.

Lemma student_fields_outside_the_step_witness :
  radio_names_plain split_group_page /\
  marked_in (final (Student.validateForm split_group_page)) 1.
Proof.
  assert (Hp : radio_names_plain split_group_page) by plain_names.
  split; [exact Hp|].
  refine (proj1 (student_fields_outside_the_step split_group_page false
                   (final (Student.validateForm split_group_page)) 1
                   (radio "title" "Ms" false false 1) eq_refl _ Hp eq_refl eq_refl) _).
  - vm_compute. split; congruence.
  - exists 0%nat, (radio "title" "Mr" true false 0). repeat split.
Defined.

(** *** Focus *)

Lemma indices_from_lt p k l i : In i (indices_from p k l) -> (k <= i)%nat.
Proof. intros H. now apply In_indices_from in H. Qed.

Lemma find_first_sorted (q : nat -> bool) (p : Field -> bool) k l i :
  In i (indices_from p k l) -> q i = true ->
  (forall j, (j < i)%nat -> In j (indices_from p k l) -> q j = false) ->
  List.find q (indices_from p k l) = Some i.
Proof.
  revert k. induction l as [|f l IH]; intros k Hin Hq Hfirst; [destruct Hin|].
  cbn [indices_from] in *. destruct (p f).
  - cbn [List.find]. destruct Hin as [->|Hin]; [now rewrite Hq|].
    pose proof (indices_from_lt _ _ _ _ Hin) as Hlt.
    rewrite (Hfirst k) by (try lia; now left).
    apply IH; [assumption | assumption |].
    intros j Hj Hjn. apply Hfirst; [assumption | now right].
  - apply IH; assumption.
Qed.

Lemma find_none_all (q : nat -> bool) idxs :
  (forall j, In j idxs -> q j = false) -> List.find q idxs = None.
Proof.
  induction idxs as [|a r IH]; intros H; [reflexivity|].
  cbn. rewrite (H a) by now left. apply IH. intros j Hj. apply H. now right.
Qed.

(** X16. The student validateForm focuses the first field of the current step,
    in document order, that is marked invalid when the loop is over, and focuses
    nothing when no field of the step is marked; a successful validation never
    moves the focus. *)
Theorem student_focuses_first_marked s v s' :
  tab_exists s -> Student.validateForm s = Return v s' ->
  let in_step i := at_index (in_tab (currentTab s)) (inputs (doc s')) i = true in
  (v = true -> log s' = log s) /\
  ((forall i, in_step i -> unmarked_in s' i) -> log s' = log s) /\
  (forall i, in_step i -> marked_in s' i ->
     (forall j, (j < i)%nat -> in_step j -> unmarked_in s' j) ->
     log s' = (log s ++ [Focus i])%list).
Proof.
  intros He Hv in_step.
  pose proof (student_validate_eq s He) as E. cbv zeta in E.
  set (l := inputs (doc s)) in *. set (idxs := tab_fields (currentTab s) l) in *.
  set (l' := fst (fold_left Student.check_field idxs (l, true))) in *.
  assert (Hsh : same_shape l l').
  { unfold l'. apply (loop_shape Student.check_field student_check_shape). }
  assert (Hin : inputs (doc s') = l').
  { rewrite E in Hv. injection Hv as _ <-. destruct (first_invalid idxs l'); reflexivity. }
  assert (Hidx : forall i, In i idxs <-> in_step i).
  { intros i. unfold idxs, in_step. rewrite In_tab_fields, Hin.
    now rewrite (in_tab_same (currentTab s) l l' i Hsh). }
  assert (Hnone : (forall i, in_step i -> unmarked_in s' i) -> log s' = log s).
  { intros Hall. rewrite E in Hv. injection Hv as _ <-.
    unfold first_invalid. rewrite find_none_all; [reflexivity|].
    intros j Hj. apply Hidx in Hj. specialize (Hall j Hj).
    unfold unmarked_in, at_index in Hall. now rewrite Hin in Hall. }
  split; [|split].
  - intros ->. apply Hnone. intros i Hi. unfold unmarked_in, at_index.
    unfold in_step, at_index in Hi.
    destruct (inputs (doc s') !! i) as [f'|] eqn:Hf; [|reflexivity].
    exact (student_success_clears s s' i f' Hv He Hf Hi).
  - exact Hnone.
  - intros i Hi Hm Hfirst. rewrite E in Hv. injection Hv as _ <-.
    unfold first_invalid, idxs, tab_fields.
    rewrite (find_first_sorted _ (in_tab (currentTab s)) 0 l i); [reflexivity | | |].
    + now apply Hidx.
    + unfold marked_in, at_index in Hm. now rewrite Hin in Hm.
    + intros j Hj Hjn. apply Hidx in Hjn. specialize (Hfirst j Hj Hjn).
      unfold unmarked_in, at_index in Hfirst. now rewrite Hin in Hfirst.
Qed.

Lemma student_focuses_first_marked_witness :
  log (final (Student.validateForm name_missing_page)) =
  (log name_missing_page ++ [Focus 0])%list.
Proof.
  refine (proj2 (proj2 (student_focuses_first_marked name_missing_page false
            (final (Student.validateForm name_missing_page)) _ eq_refl)) 0%nat eq_refl eq_refl _).
  - vm_compute. split; congruence.
  - intros j Hj. lia.
Defined.

Lemma remove_add t c :
  token_ok t = true -> classList_remove t (classList_add t c) = classList_remove t c.
Proof.
  intros Ht. unfold classList_remove. rewrite tokens_add by assumption.
  destruct (existsb _ _) eqn:E; [reflexivity|].
  assert (Hd : differs t t = false) by (unfold differs; now rewrite String.eqb_refl).
  rewrite List.filter_app. cbn [List.filter]. rewrite Hd. now rewrite app_nil_r.
Qed.

Lemma mark_and_then m1 m2 c :
  mark_with (and_then m1 m2) c = mark_with m2 (mark_with m1 c).
Proof.
  assert (Hr : forall m, classList_remove "invalid" (mark_with m c) =
                         classList_remove "invalid" c).
  { intros [| | |]; cbn [mark_with].
    - reflexivity.
    - apply remove_fixpoint.
    - now apply remove_add.
    - now apply remove_add_remove. }
  destruct m2; cbn [and_then mark_with].
  - now destruct m1.
  - now rewrite Hr.
  - destruct m1; cbn [mark_with]; try reflexivity; now rewrite add_fixpoint.
  - now rewrite Hr.
Qed.

Lemma mark_twice m c : mark_with m (mark_with m c) = mark_with m c.
Proof.
  rewrite <- mark_and_then. now destruct m.
Qed.

Lemma map_className_id f : map_className (mark_with Keep) f = f.
Proof. now destruct f. Qed.

Lemma map_className_twice g h f :
  map_className g (map_className h f) = map_className (fun c => g (h c)) f.
Proof. reflexivity. Qed.

Lemma round_lookup l0 l v a j f0 :
  same_shape l0 l -> l0 !! j = Some f0 ->
  fst (Student.check_field (l, v) a) !! j =
  map_className (mark_with (round_marking l0 a j f0)) <$> l !! j.
Proof.
  intros Hsh Hj.
  destruct (same_shape_Some l0 l j f0 Hsh Hj) as (f & Hf & Sf). rewrite Hf.
  cbn [fmap option_fmap option_map].
  unfold round_marking.
  destruct (l0 !! a) as [g0|] eqn:Ha.
  - destruct (same_shape_Some l0 l a g0 Hsh Ha) as (g & Hg & Sg).
    rewrite (student_check_cases l v a g Hg). cbv zeta.
    rewrite <- (student_offending_shape l0 l g0 g Hsh Sg).
    assert (Hk : kind g0 = kind g) by exact (f_equal kind Sg).
    rewrite <- Hk, <- (name_shape g0 g Sg).
    assert (Hreset : alter Wizard.remove_invalid a l !! j =
              Some (map_className (mark_with (if decide (a = j) then Unmark else Keep)) f)).
    { destruct (decide (a = j)) as [->|N].
      - now rewrite list_lookup_alter_eq, Hf.
      - rewrite list_lookup_alter_ne by congruence. now rewrite Hf, map_className_id. }
    destruct (student_offending l0 g0); [|exact Hreset].
    destruct (type_of (kind g0) =? "radio"); cbn [fst].
    + rewrite list_lookup_fmap, Hreset. cbn [fmap option_fmap option_map].
      rewrite (matches_shape (name g0) _ f0) by
        (now rewrite shape_map_className, Sf).
      destruct (matches_input_name (name g0) f0); [|reflexivity].
      unfold Wizard.add_invalid. rewrite map_className_twice.
      unfold map_className. now rewrite mark_and_then.
    + destruct (decide (a = j)) as [->|N].
      * rewrite list_lookup_alter_eq, list_lookup_alter_eq, Hf. reflexivity.
      * rewrite !list_lookup_alter_ne by congruence. now rewrite Hf, map_className_id.
  - assert (Hnone : l !! a = None).
    { pose proof (same_shape_lookup l0 l a Hsh) as E. rewrite Ha in E.
      destruct (l !! a); [discriminate E | reflexivity]. }
    unfold Student.check_field.
    assert (Halt : alter Wizard.remove_invalid a l = l).
    { apply alter_same. intros x Hx. congruence. }
    rewrite Halt, Hnone. cbn [fst]. now rewrite Hf, map_className_id.
Qed.

Lemma loop_lookup l0 idxs j f0 : forall l v,
  same_shape l0 l -> l0 !! j = Some f0 ->
  fst (fold_left Student.check_field idxs (l, v)) !! j =
  map_className (mark_with (loop_marking l0 idxs j f0)) <$> l !! j.
Proof.
  induction idxs as [|a rest IH]; intros l v Hsh Hj.
  - cbn. destruct (l !! j) as [f|]; [|reflexivity]. cbn. now rewrite map_className_id.
  - cbn [fold_left loop_marking fold_right].
    destruct (Student.check_field (l, v) a) as [l1 v1] eqn:E.
    assert (Hsh1 : same_shape l0 l1).
    { eapply same_shape_trans; [exact Hsh|].
      pose proof (student_check_shape l v a) as H. now rewrite E in H. }
    rewrite (IH l1 v1 Hsh1 Hj).
    pose proof (round_lookup l0 l v a j f0 Hsh Hj) as Hr. rewrite E in Hr. cbn [fst] in Hr.
    rewrite Hr. destruct (l !! j) as [f|]; [|reflexivity].
    cbn [fmap option_fmap option_map].
    rewrite map_className_twice. unfold map_className. now rewrite mark_and_then.
Qed.

Lemma student_loop_again idxs l v w :
  fst (fold_left Student.check_field idxs
         (fst (fold_left Student.check_field idxs (l, v)), w)) =
  fst (fold_left Student.check_field idxs (l, v)).
Proof.
  set (l' := fst (fold_left Student.check_field idxs (l, v))).
  assert (Hsh : same_shape l l').
  { unfold l'. apply (loop_shape Student.check_field student_check_shape). }
  apply list_eq. intros j.
  destruct (l !! j) as [f0|] eqn:Hj.
  - rewrite (loop_lookup l idxs j f0 l' w Hsh Hj).
    unfold l'. rewrite (loop_lookup l idxs j f0 l v (same_shape_refl l) Hj), Hj.
    cbn [fmap option_fmap option_map].
    rewrite map_className_twice. unfold map_className. now rewrite mark_twice.
  - assert (Hlen : forall x : list Field, same_shape l x -> x !! j = None).
    { intros x Hx. pose proof (same_shape_lookup l x j Hx) as E. rewrite Hj in E.
      destruct (x !! j); [discriminate E | reflexivity]. }
    rewrite (Hlen l' Hsh). apply Hlen.
    eapply same_shape_trans; [exact Hsh|].
    apply (loop_shape Student.check_field student_check_shape).
Qed.

(** X13. Calling the student validateForm again on the state it has just left
    returns the same verdict and leaves the document, marks included, as it is;
    nothing but a focus call is added. *)
Theorem student_validation_settles s v s' :
  Student.validateForm s = Return v s' ->
  exists s'', Student.validateForm s' = Return v s'' /\
    doc s'' = doc s' /\ currentTab s'' = currentTab s' /\
    calls (log s'') = calls (log s').
Proof.
  intros H.
  destruct (decide (tab_exists s)) as [He|He].
  2:{ rewrite (student_validate_no_tab s He) in H. injection H as <- <-.
      exists s. split; [now apply student_validate_no_tab|]. repeat split. }
  destruct (student_validate_frame s v s' H) as ((Hc & Ht & _) & _ & _).
  assert (He' : tab_exists s') by (unfold tab_exists in *; now rewrite Hc, Ht).
  pose proof (student_validate_eq s He) as E. cbv zeta in E. rewrite E in H. clear E.
  injection H as Hv Hs'.
  set (l := inputs (doc s)) in *. set (idxs := tab_fields (currentTab s) l) in *.
  set (l' := fst (fold_left Student.check_field idxs (l, true))) in *.
  assert (Hsh : same_shape l l').
  { unfold l'. apply (loop_shape Student.check_field student_check_shape). }
  assert (Hin : inputs (doc s') = l').
  { rewrite <- Hs'. destruct (first_invalid idxs l'); reflexivity. }
  assert (Hidx : tab_fields (currentTab s') (inputs (doc s')) = idxs).
  { rewrite Hin, Hc. unfold idxs, tab_fields. symmetry.
    apply indices_from_shape; [apply in_tab_shape | exact Hsh]. }
  pose proof (student_validate_eq s' He') as E. cbv zeta in E.
  rewrite Hidx, Hin in E.
  assert (Hl'' : fst (fold_left Student.check_field idxs (l', true)) = l').
  { unfold l'. apply student_loop_again. }
  rewrite Hl'' in E.
  assert (Hval : forallb (fun i => negb (at_index (student_offending l') l' i)) idxs = v).
  { rewrite <- Hv. apply forallb_pointwise. intros i. f_equal. symmetry.
    now apply student_bad_shape. }
  rewrite Hval in E.
  eexists. split; [exact E|].
  assert (Hset : doc (set_inputs l' s') = doc s').
  { unfold set_inputs. cbn [doc]. rewrite <- Hin. now destruct s' as [[? ? ? ? ? ?] ? ?]. }
  destruct (first_invalid idxs l'); cbn [doc currentTab log emit set_inputs] in *.
  - split; [exact Hset|]. split; [reflexivity|].
    rewrite calls_app. cbn. now rewrite app_nil_r.
  - split; [exact Hset|]. split; reflexivity.
Qed.

Lemma student_validation_settles_witness :
  exists s'', Student.validateForm (final (Student.validateForm name_missing_page)) =
                Return false s'' /\
    doc s'' = doc (final (Student.validateForm name_missing_page)).
Proof.
  destruct (student_validation_settles name_missing_page false
              (final (Student.validateForm name_missing_page)) eq_refl)
    as (s'' & H1 & H2 & _).
  exists s''. split; [exact H1 | exact H2].
Defined.

(** ** Subject dropdowns: the listener at work *)

Lemma update_lookup selects i :
  updateSubjectOptions selects !! i =
  (fun select => match select with
     | None => None
     | Some sel => Some {| options := update_option (selectedSubjects selects)
                                        (select_value sel) <$> options sel |}
     end) <$> selects !! i.
Proof. unfold updateSubjectOptions. cbv zeta. now rewrite list_lookup_fmap. Qed.

Lemma update_value selects i sel' :
  updateSubjectOptions selects !! i = Some (Some sel') ->
  exists sel, selects !! i = Some (Some sel) /\ select_value sel' = select_value sel /\
    options sel' = update_option (selectedSubjects selects) (select_value sel) <$> options sel.
Proof.
  rewrite update_lookup. destruct (selects !! i) as [[sel|]|]; try discriminate.
  cbn. intros [= <-]. exists sel. split; [reflexivity|].
  split; [apply select_value_update | reflexivity].
Qed.

Lemma chosen_update selects v :
  chosen_somewhere (updateSubjectOptions selects) v <-> chosen_somewhere selects v.
Proof.
  unfold chosen_somewhere. split.
  - intros (k & sel' & Hk & Hv). destruct (update_value selects k sel' Hk) as (sel & Hs & Hval & _).
    exists k, sel. split; [exact Hs | congruence].
  - intros (k & sel & Hk & Hv). eexists k, _. rewrite update_lookup, Hk. cbn.
    split; [reflexivity|]. now rewrite select_value_update.
Qed.

Lemma selected_update selects :
  selectedSubjects (updateSubjectOptions selects) = selectedSubjects selects.
Proof.
  apply set_eq. intros v. rewrite !selectedSubjects_spec, chosen_update. reflexivity.
Qed.

Lemma update_option_twice chosen cur o :
  update_option chosen cur (update_option chosen cur o) = update_option chosen cur o.
Proof. reflexivity. Qed.

(** X17. Running updateSubjectOptions twice in a row gives the same dropdowns as
    running it once. *)
Theorem updateSubjectOptions_settles selects :
  updateSubjectOptions (updateSubjectOptions selects) = updateSubjectOptions selects.
Proof.
  apply list_eq. intros i. rewrite (update_lookup (updateSubjectOptions selects)).
  rewrite selected_update, update_lookup.
  destruct (selects !! i) as [[sel|]|]; cbn; try reflexivity.
  rewrite select_value_update. cbn [options]. rewrite <- list_fmap_compose.
  do 3 f_equal.
Qed.

Lemma find_pick (F : nat -> nat) j (os : list OptionEl) :
  (forall a b, F a = F b -> a = b) ->
  List.find selected
    (imap (fun k o => {| ovalue := ovalue o; selected := bool_decide (F k = F j);
                         disabled := disabled o |}) os) =
  (fun o => {| ovalue := ovalue o; selected := true; disabled := disabled o |}) <$> os !! j.
Proof.
  intros HF. revert F j HF.
  induction os as [|o os IH]; intros F j HF; [reflexivity|].
  cbn [imap List.find selected].
  destruct j as [|j].
  - rewrite bool_decide_eq_true_2 by reflexivity. reflexivity.
  - rewrite bool_decide_eq_false_2 by (intros E; apply HF in E; discriminate).
    change ((o :: os) !! S j) with (os !! j).
    apply (IH (F ∘ S) j).
    intros a b E. apply HF in E. congruence.
Qed.

Lemma select_value_pick j sel o :
  options sel !! j = Some o -> select_value (pick j sel) = ovalue o.
Proof.
  intros Hj. unfold select_value, pick. cbn [options].
  rewrite (find_pick (fun k => k) j (options sel)) by auto. now rewrite Hj.
Qed.

Lemma update_disabled chosen cur o :
  disabled (update_option chosen cur o) = false ->
  ovalue o = "" \/ ovalue o = cur \/ ovalue o ∉ chosen.
Proof.
  cbn [disabled update_option].
  destruct (String.eqb_spec (ovalue o) ""); [now left|].
  destruct (String.eqb_spec (ovalue o) cur); [right; now left|]. cbn [orb].
  destruct (bool_decide_reflect (ovalue o ∈ chosen)); [discriminate|]. right. now right.
Qed.

Lemma distinct_update selects :
  distinct_choices selects -> distinct_choices (updateSubjectOptions selects).
Proof.
  intros H k1 k2 s1 s2 Hne H1 H2 E.
  destruct (update_value selects k1 s1 H1) as (t1 & Ht1 & V1 & _).
  destruct (update_value selects k2 s2 H2) as (t2 & Ht2 & V2 & _).
  rewrite V1. apply (H k1 k2 t1 t2 Hne Ht1 Ht2). congruence.
Qed.

(** What the other dropdowns show does not change with a pick. *)
Lemma pick_elsewhere (selects : list (option Select)) (k j i : nat) (x : option Select) :
  i <> k -> alter (fmap (pick j)) k selects !! i = Some x -> selects !! i = Some x.
Proof. intros Hne. now rewrite list_lookup_alter_ne by congruence. Qed.

Lemma picked_value (selects : list (option Select)) (k j : nat) (sel t : Select) o :
  selects !! k = Some (Some sel) -> options sel !! j = Some o ->
  alter (fmap (pick j)) k selects !! k = Some (Some t) -> select_value t = ovalue o.
Proof.
  intros Hk Hj. rewrite list_lookup_alter_eq, Hk. cbn. intros [= <-].
  now apply select_value_pick.
Qed.

Lemma picks_keep_distinct selects k j sel :
  distinct_choices selects ->
  updateSubjectOptions selects !! k = Some (Some sel) -> pickable j sel ->
  distinct_choices (alter (fmap (pick j)) k (updateSubjectOptions selects)).
Proof.
  intros Hd Hk (o & Hj & Hdis).
  pose proof (distinct_update selects Hd) as Hu.
  destruct (update_value selects k sel Hk) as (sel0 & Hk0 & Hval & Hopts).
  (* the option picked is free *)
  assert (Hfree : ovalue o <> "" ->
            forall i t, i <> k -> updateSubjectOptions selects !! i = Some (Some t) ->
                        select_value t <> ovalue o).
  { intros Hne i t Hik Hi Ev.
    rewrite Hopts, list_lookup_fmap in Hj.
    destruct (options sel0 !! j) as [o0|] eqn:Hj0; [|discriminate Hj].
    cbn in Hj. injection Hj as <-.
    cbn [ovalue update_option] in *.
    destruct (update_disabled _ _ _ Hdis) as [E|[E|E]].
    - contradiction.
    - apply Hne. rewrite E, <- Hval.
      apply (Hu k i sel t); [congruence | assumption | assumption | congruence].
    - apply E. apply selectedSubjects_spec. split; [assumption|].
      apply chosen_update. now exists i, t. }
  intros k1 k2 s1 s2 Hne H1 H2 E.
  destruct (decide (k1 = k)) as [->|N1]; [|destruct (decide (k2 = k)) as [->|N2]].
  - pose proof (picked_value _ k j sel s1 o Hk Hj H1) as V1.
    apply (pick_elsewhere _ k j k2) in H2; [|congruence].
    destruct (String.eqb_spec (ovalue o) "") as [E0|N0]; [congruence|].
    exfalso. apply (Hfree N0 k2 s2); [congruence | assumption | congruence].
  - pose proof (picked_value _ k j sel s2 o Hk Hj H2) as V2.
    apply (pick_elsewhere _ k j k1) in H1; [|congruence].
    destruct (String.eqb_spec (ovalue o) "") as [E0|N0]; [congruence|].
    exfalso. apply (Hfree N0 k1 s1); [congruence | assumption | congruence].
  - apply (pick_elsewhere _ k j k1) in H1; [|congruence].
    apply (pick_elsewhere _ k j k2) in H2; [|congruence].
    exact (Hu k1 k2 s1 s2 Hne H1 H2 E).
Qed.

(** X18. If no subject is shown by two dropdowns, then after
    updateSubjectOptions any pick of an option that is not disabled, followed by
    the change listener, again leaves no subject shown by two dropdowns. *)
Theorem picks_stay_distinct selects k j sel :
  distinct_choices selects ->
  updateSubjectOptions selects !! k = Some (Some sel) -> pickable j sel ->
  distinct_choices (on_change k j (updateSubjectOptions selects)).
Proof.
  intros Hd Hk Hp. unfold on_change. apply distinct_update.
  exact (picks_keep_distinct selects k j sel Hd Hk Hp).
Qed.

Lemma picks_stay_distinct_witness :
  distinct_choices (on_change 0 0 (updateSubjectOptions subject_group)).
Proof.
  apply (picks_stay_distinct subject_group 0 0
           {| options := update_option (selectedSubjects subject_group) "Maths"
                           <$> options (subject_menu "Maths") |}).
  - intros [|[|[|[|k1]]]] [|[|[|[|k2]]]] s1 s2 Hne H1 H2 E;
      try discriminate H1; try discriminate H2; try congruence;
      injection H1 as <-; injection H2 as <-; try discriminate E; reflexivity.
  - reflexivity.
  - eexists. split; [reflexivity|]. reflexivity.
Defined.

(** X19. The age that validateDateOfBirth computes from a valid date is the
    number of birthdays passed: it is a exactly when the a-th anniversary of the
    date (same month and day) is on or before today and the (a+1)-th is not. *)
Theorem age_counts_birthdays today d a :
  age_of today (Some d) = Some a <->
  on_or_before (anniversary d a) today /\ ~ on_or_before (anniversary d (a + 1)) today.
Proof.
  unfold age_of, on_or_before, anniversary. cbn [fullYear month date].
  destruct (Z.ltb_spec (month today - month d) 0) as [Hm|Hm]; cbn [orb].
  - split.
    + intros [= <-]. lia.
    + intros [H1 H2]. f_equal. lia.
  - destruct (Z.eqb_spec (month today - month d) 0) as [He|He]; cbn [andb].
    + destruct (Z.ltb_spec (date today) (date d)) as [Hd|Hd].
      * split; [intros [= <-]; lia | intros [H1 H2]; f_equal; lia].
      * split; [intros [= <-]; lia | intros [H1 H2]; f_equal; lia].
    + split; [intros [= <-]; lia | intros [H1 H2]; f_equal; lia].
Qed.

(** X20. When validateDateOfBirth returns false it has cleared the date field,
    left the year-group radios alone and alerted with a year of 12 or 13, the
    range of that year and an age outside it; as the empty string is no valid
    date, validating the cleared page returns true. *)
Theorem rejection_clears_the_date today parseDate p p' alert :
  validateDateOfBirth today parseDate p = Returned false p' alert ->
  dob p' = Some "" /\ yeargroup p' = yeargroup p /\
  (exists y lo hi a,
     alert = Some (y, lo, hi, a) /\ validAges (Some y) = Some (lo, hi) /\
     (a < lo \/ hi < a)%Z) /\
  (parseDate "" = None ->
   validateDateOfBirth today parseDate p' = Returned true p' None).
Proof.
  unfold validateDateOfBirth.
  destruct (dob p) as [v|]; [|discriminate].
  destruct (List.find rchecked (yeargroup p)) as [r|] eqn:Hr; [|discriminate].
  destruct (validAges (parseInt (rvalue r))) as [[lo hi]|] eqn:Hv; [|discriminate].
  destruct (js_lt (age_of today (parseDate v)) lo || js_gt (age_of today (parseDate v)) hi)
    eqn:Hout; [|discriminate].
  intros [= <- <-]. cbn [dob yeargroup]. split; [reflexivity|]. split; [reflexivity|].
  apply outside_iff in Hout as (a & Ha & Hrange). split.
  - destruct (parseInt (rvalue r)) as [y|] eqn:Hy; [|discriminate Hv].
    rewrite Ha. exists y, lo, hi, a. repeat split; assumption.
  - intros Hempty. rewrite Hr, Hv, Hempty. cbn [age_of js_lt js_gt orb]. reflexivity.
Qed.

Lemma rejection_clears_the_date_witness :
  dob {| dob := Some ""; yeargroup := yeargroup year13_page |} = Some "".
Proof.
  refine (proj1 (rejection_clears_the_date third_of_november born_next_day year13_page
                   _ (Some (13, 17, 18, 15)%Z) _)).
  reflexivity.
Defined.

(** ** Flagging a student *)

Import Net.

Lemma elapse_released (ts : list Flag.Timer) (p : Flag.Page) b :
  Flag.button p = Some b -> Flag.disabled b = false ->
  exists b', Flag.button (fold_left (fun q t => Flag.fire t q) ts p) = Some b' /\
             Flag.disabled b' = false.
Proof.
  revert p b. induction ts as [|[t] ts IH]; intros p b Hb Hd; cbn [fold_left].
  - eauto.
  - unfold Flag.fire. rewrite Hb. eapply IH; reflexivity.
Qed.

Lemma elapse_snoc (ts : list Flag.Timer) t (p : Flag.Page) b :
  Flag.button p = Some b ->
  Flag.button (fold_left (fun q t => Flag.fire t q) (ts ++ [Flag.ResetButton t]) p) =
  Some {| Flag.disabled := false; Flag.textContent := t;
          Flag.backgroundColor := ""; Flag.color := "" |}.
Proof.
  intros Hb. rewrite fold_left_app. cbn [fold_left Flag.fire].
  assert (H : exists b', Flag.button (fold_left (fun q t => Flag.fire t q) ts p) = Some b').
  { clear t. revert p b Hb. induction ts as [|[t] ts IH]; intros p b Hb; cbn [fold_left].
    - eauto.
    - unfold Flag.fire. rewrite Hb. eapply IH. reflexivity. }
  destruct H as [b' ->]. reflexivity.
Qed.

(** X21. With the flag button on the page, every call of flagStudent posts one
    request and shows one notification, of type success exactly when an ok
    response with a readable body came back and of type error otherwise; once
    the waiting timer callbacks have run the button is enabled again, whatever
    the request came back with. *)
Theorem flag_button_is_released studentId fetched p b :
  Flag.button p = Some b ->
  let p' := snd (Flag.flagStudent studentId fetched p) in
  (exists b', Flag.button (Flag.elapse p') = Some b' /\ Flag.disabled b' = false) /\
  Flag.requests p' = (Flag.requests p ++ [studentId])%list /\
  (exists message type, Flag.notifications p' = (Flag.notifications p ++ [(message, type)])%list /\
     (type = "success" \/ type = "error") /\
     (type = "success" <-> exists m e, fetched = Response true (Some (JValue m e)))).
Proof.
  intros Hb. cbv zeta. unfold Flag.flagStudent. rewrite Hb.
  destruct fetched as [|[|] [[|m e]|]]; cbn [snd Flag.handler Flag.button Flag.showNotification
    Flag.set_button Flag.post Flag.setTimeout Flag.requests Flag.notifications].
  all: split; [|split; [reflexivity|]].
  all: try (unfold Flag.elapse;
            cbn [Flag.button Flag.timers Flag.set_button Flag.showNotification Flag.post
                 Flag.setTimeout Flag.requests Flag.notifications];
            first [ eapply elapse_released; reflexivity
                  | rewrite elapse_snoc with (b := {| Flag.disabled := true;
                        Flag.textContent := "✓ Flagged"; Flag.backgroundColor := "#28a745";
                        Flag.color := "white" |}) by reflexivity; eauto ]).
  all: eexists _, _; (split; [reflexivity|]); split; [auto|].
  all: split; [try discriminate; eauto | intros (m' & e' & H); try discriminate H; reflexivity].
Qed.

(** X22. flagStudent restores the label of the button, and its promise is
    fulfilled, exactly when the response body has properties to read; when the
    request fails, the body is not JSON or is null, the catch block throws a
    ReferenceError on originalText, the promise is rejected and the label stays
    'Flagging...' (or the success label if the body of an ok response was null). *)
Theorem flag_label_restored_iff_answered studentId fetched p b :
  Flag.button p = Some b -> Flag.timers p = [] ->
  let out := Flag.flagStudent studentId fetched p in
  (answered fetched = true ->
     fst out = Fulfilled tt /\ final_label (snd out) = Some (Flag.textContent b)) /\
  (answered fetched = false ->
     fst out = Rejected "ReferenceError" /\ Flag.timers (snd out) = [] /\
     final_label (snd out) =
       Some (match fetched with
             | Response true (Some JNull) => "✓ Flagged"
             | _ => "Flagging..."
             end)).
Proof.
  intros Hb Ht. cbv zeta. unfold Flag.flagStudent, final_label, Flag.elapse. rewrite Hb.
  destruct fetched as [|[|] [[|m e]|]];
    cbn [answered fst snd Flag.handler Flag.button Flag.showNotification
         Flag.set_button Flag.post Flag.setTimeout Flag.requests Flag.notifications
         Flag.timers Flag.textContent];
    rewrite Ht; cbn [app fold_left Flag.fire Flag.button Flag.set_button fmap option_fmap
                     option_map Flag.textContent];
    split; intros H; try discriminate H; repeat split; reflexivity.
Qed.

Lemma flag_label_restored_iff_answered_witness :
  fst (Flag.flagStudent "7" NetworkError FlagCases.flag_page) = Rejected "ReferenceError" /\
  final_label (snd (Flag.flagStudent "7" NetworkError FlagCases.flag_page)) =
    Some "Flagging...".
Proof.
  destruct (flag_label_restored_iff_answered "7" NetworkError FlagCases.flag_page
              {| Flag.disabled := false; Flag.textContent := "Flag for help";
                 Flag.backgroundColor := ""; Flag.color := "" |} eq_refl eq_refl)
    as [_ H].
  destruct (H eq_refl) as (H1 & _ & H3). split; [exact H1 | exact H3].
Defined.

Lemma flag_button_is_released_witness :
  exists b', Flag.button (Flag.elapse (snd (Flag.flagStudent "7" (Response true (Some (JValue (Some "Flagged") None)))
                                              FlagCases.flag_page))) = Some b' /\
             Flag.disabled b' = false.
Proof.
  exact (proj1 (flag_button_is_released "7" (Response true (Some (JValue (Some "Flagged") None)))
                  FlagCases.flag_page _ eq_refl)).
Defined.

(** X23. After an ok response with a readable body the flag button is disabled,
    green and labelled as flagged until the timer runs, which enables it,
    restores the original label and clears both inline colours; after an error
    response the button is enabled with its original label and colours at once
    and no timer is set. *)
Theorem flag_success_round_trip studentId ok message error p b :
  Flag.button p = Some b -> Flag.timers p = [] ->
  let out := Flag.flagStudent studentId (Response ok (Some (JValue message error))) p in
  let waiting := Flag.button (snd out) in
  let rested := Flag.button (Flag.elapse (snd out)) in
  (ok = true ->
     waiting = Some {| Flag.disabled := true; Flag.textContent := "✓ Flagged";
                       Flag.backgroundColor := "#28a745"; Flag.color := "white" |} /\
     rested = Some {| Flag.disabled := false; Flag.textContent := Flag.textContent b;
                      Flag.backgroundColor := ""; Flag.color := "" |}) /\
  (ok = false ->
     Flag.timers (snd out) = [] /\
     waiting = Some {| Flag.disabled := false; Flag.textContent := Flag.textContent b;
                       Flag.backgroundColor := Flag.backgroundColor b;
                       Flag.color := Flag.color b |} /\
     rested = waiting).
Proof.
  intros Hb Ht. cbv zeta. unfold Flag.flagStudent, Flag.elapse. rewrite Hb.
  destruct ok;
    cbn [fst snd Flag.button Flag.showNotification Flag.set_button Flag.post Flag.setTimeout
         Flag.requests Flag.notifications Flag.timers Flag.textContent];
    rewrite Ht; cbn [app fold_left Flag.fire Flag.button Flag.set_button];
    split; intros H; try discriminate H; repeat split; reflexivity.
Qed.

Lemma flag_success_round_trip_witness :
  Flag.button (Flag.elapse (snd (Flag.flagStudent "7" (Response true (Some (JValue None None)))
                                   FlagCases.flag_page))) =
  Flag.button FlagCases.flag_page.
Proof.
  exact (proj2 (proj1 (flag_success_round_trip "7" true None None FlagCases.flag_page _
                         eq_refl eq_refl) eq_refl)).
Defined.


(** ** Attendance register *)

Import Attendance.

(** *** Counters *)

Lemma showing_cons s r rows :
  showing s (r :: rows) = ((if String.eqb (display r) s then 1 else 0) + showing s rows)%Z.
Proof.
  unfold showing. cbn [List.filter]. destruct (display r =? s); cbn [length]; lia.
Qed.

Lemma tally_counts rows a b c d :
  fold_left tally rows (a, b, c, d) =
  ((a + showing "Present" rows)%Z, (b + showing "Late" rows)%Z,
   (c + showing "Absent" rows)%Z, (d + showing "Not Marked" rows)%Z).
Proof.
  revert a b c d. induction rows as [|r rows IH]; intros a b c d.
  - unfold showing. cbn. now rewrite !Z.add_0_r.
  - cbn [fold_left]. unfold tally at 2. rewrite !showing_cons.
    destruct (String.eqb_spec (display r) "Present") as [E|N1].
    { rewrite IH, E. cbn [String.eqb Ascii.eqb Bool.eqb]. rewrite !pair_equal_spec. lia. }
    destruct (String.eqb_spec (display r) "Late") as [E|N2].
    { rewrite IH, E. cbn [String.eqb Ascii.eqb Bool.eqb]. rewrite !pair_equal_spec. lia. }
    destruct (String.eqb_spec (display r) "Absent") as [E|N3].
    { rewrite IH, E. cbn [String.eqb Ascii.eqb Bool.eqb]. rewrite !pair_equal_spec. lia. }
    destruct (String.eqb_spec (display r) "Not Marked") as [E|N4].
    { rewrite IH. rewrite !pair_equal_spec. lia. }
    rewrite IH. rewrite !pair_equal_spec. lia.
Qed.

Lemma updateSummary_tallies p :
  summary_present (updateSummary p) = showing "Present" (rows p) /\
  summary_late (updateSummary p) = showing "Late" (rows p) /\
  summary_absent (updateSummary p) = showing "Absent" (rows p) /\
  summary_unmarked (updateSummary p) = showing "Not Marked" (rows p) /\
  rows (updateSummary p) = rows p /\ marked_count (updateSummary p) = marked_count p /\
  requests (updateSummary p) = requests p /\ toasts (updateSummary p) = toasts p /\
  total_count (updateSummary p) = total_count p.
Proof.
  unfold updateSummary. rewrite tally_counts. cbn.
  repeat split; reflexivity.
Qed.

Lemma tallied_after p : tallied (updateSummary (updateMarkedCount p)).
Proof.
  destruct (updateSummary_tallies (updateMarkedCount p)) as (H1 & H2 & H3 & H4 & H5 & H6 & _).
  unfold tallied. rewrite H1, H2, H3, H4, H5, H6. cbn. repeat split; reflexivity.
Qed.

Lemma showing_split rows :
  (showing "Present" rows + showing "Late" rows + showing "Absent" rows +
   showing "Not Marked" rows =
   Z.of_nat (length (List.filter (fun r => known_status (display r)) rows)))%Z.
Proof.
  induction rows as [|r rows IH]; [reflexivity|].
  rewrite !showing_cons. cbn [List.filter]. unfold known_status at 1.
  destruct (String.eqb_spec (display r) "Present") as [E|N1].
  { rewrite E. cbn [String.eqb Ascii.eqb Bool.eqb orb length]. lia. }
  destruct (String.eqb_spec (display r) "Late") as [E|N2].
  { rewrite E. cbn [String.eqb Ascii.eqb Bool.eqb orb length]. lia. }
  destruct (String.eqb_spec (display r) "Absent") as [E|N3].
  { rewrite E. cbn [String.eqb Ascii.eqb Bool.eqb orb length]. lia. }
  destruct (String.eqb_spec (display r) "Not Marked") as [E|N4].
  { cbn [orb length]. lia. }
  cbn [orb]. lia.
Qed.

Lemma filter_all {A} (f : A -> bool) (l : list A) :
  length (List.filter f l) = length l <-> Forall (fun x => f x = true) l.
Proof.
  induction l as [|x l IH]; cbn [List.filter].
  - split; [constructor | reflexivity].
  - pose proof (List.filter_length_le f l) as Hle.
    destruct (f x) eqn:E; cbn [length].
    + split.
      * intros H. constructor; [assumption|]. apply IH. lia.
      * intros H. apply Forall_cons in H as [_ H]. apply IH in H. lia.
    + split; [lia|]. intros H. apply Forall_cons in H as [H _]. congruence.
Qed.

(** X24. initializeAttendance writes the number of rows as the total and a
    marked count between 0 and that total; after updateMarkedCount and
    updateSummary each counter equals the number of rows showing its status,
    marked plus unmarked is the number of rows, and present plus late plus
    absent is at most the marked count, with equality exactly when every row
    shows one of the four known statuses. *)
Theorem counters_add_up p :
  let p' := updateSummary (updateMarkedCount p) in
  let n := Z.of_nat (length (rows p)) in
  total_count (initializeAttendance p) = n /\
  (0 <= marked_count (initializeAttendance p) <= n)%Z /\
  tallied p' /\ rows p' = rows p /\
  (marked_count p' + summary_unmarked p' = n)%Z /\
  (summary_present p' + summary_late p' + summary_absent p' <= marked_count p')%Z /\
  ((summary_present p' + summary_late p' + summary_absent p' = marked_count p')%Z <->
   Forall (fun r => known_status (display r) = true) (rows p)).
Proof.
  cbv zeta. pose proof (tallied_after p) as Ht.
  assert (Hr : rows (updateSummary (updateMarkedCount p)) = rows p).
  { now destruct (updateSummary_tallies (updateMarkedCount p)) as (_ & _ & _ & _ & -> & _). }
  split; [reflexivity|]. split.
  { cbn. pose proof (List.filter_length_le (fun r => display r =? "Not Marked") (rows p)). lia. }
  split; [exact Ht|]. split; [exact Hr|].
  destruct Ht as (Hm & Hp & Hl & Ha & Hu). rewrite Hm, Hp, Hl, Ha, Hu, Hr.
  pose proof (showing_split (rows p)) as Hs.
  pose proof (List.filter_length_le (fun r => known_status (display r)) (rows p)) as Hle.
  rewrite <- filter_all.
  split; [lia|]. split; [lia|]. split; lia.
Qed.

(** *** A click on a status button *)

Lemma click_eq i j p row b :
  rows p !! i = Some row -> buttons row !! j = Some b -> is_status_btn b = true ->
  click i j p =
  post (studentId row) (status b)
    (updateSummary (updateMarkedCount
       (set_rows (<[i := {| studentId := studentId row; display := status b;
                            buttons := alter (map_class (classList_add "active")) j
                              ((fun btn => if is_status_btn btn
                                           then map_class (classList_remove "active") btn
                                           else btn) <$> buttons row) |}]> (rows p)) p))).
Proof.
  intros Hi Hj Hs. unfold click, handleStatusButtonClick. now rewrite Hi, Hj, Hs.
Qed.

Lemma rows_post a b p : rows (post a b p) = rows p.
Proof. reflexivity. Qed.

Lemma rows_counted p : rows (updateSummary (updateMarkedCount p)) = rows p.
Proof. now destruct (updateSummary_tallies (updateMarkedCount p)) as (_ & _ & _ & _ & -> & _). Qed.

Lemma tallied_post a b p : tallied p -> tallied (post a b p).
Proof. exact (fun H => H). Qed.

Lemma reselect_button j k old :
  reselected j k old
    ((if decide (k = j) then map_class (classList_add "active") else fun x => x)
       (if is_status_btn old then map_class (classList_remove "active") old else old)).
Proof.
  unfold reselected, is_status_btn, is_btn_present, is_active.
  destruct (contains (className old) "status-btn") eqn:Hs;
    destruct (decide (k = j)) as [E|N]; cbn [map_class status className];
    rewrite ?contains_add, ?contains_remove by reflexivity; cbn [String.eqb Ascii.eqb Bool.eqb negb andb orb];
    rewrite ?Hs; repeat split; try tauto; try congruence; try discriminate.
Qed.

(** X25. A click on a status button sets the row's display to the button's
    status, leaves exactly the clicked button active among the status buttons of
    the row, keeps for each button its status and whether it is a status button
    or the present button, leaves every other row as it was, posts one request
    with the row's student id and that status, shows no toast and leaves the
    counters in agreement with the displays. *)
Theorem click_selects_one i j p row b :
  rows p !! i = Some row -> buttons row !! j = Some b -> is_status_btn b = true ->
  let p' := click i j p in
  (exists row', rows p' !! i = Some row' /\
     studentId row' = studentId row /\ display row' = status b /\
     length (buttons row') = length (buttons row) /\
     forall k old, buttons row !! k = Some old ->
       exists new, buttons row' !! k = Some new /\ reselected j k old new) /\
  (forall i', i' <> i -> rows p' !! i' = rows p !! i') /\
  length (rows p') = length (rows p) /\
  requests p' = (requests p ++ [(studentId row, status b)])%list /\
  toasts p' = toasts p /\ tallied p'.
Proof.
  intros Hi Hj Hs. cbv zeta. rewrite (click_eq i j p row b Hi Hj Hs).
  rewrite rows_post, rows_counted. cbn [rows set_rows].
  split; [|split; [|split; [|split; [|split]]]].
  - eexists. split.
    { apply list_lookup_insert_eq. now apply lookup_lt_Some in Hi. }
    cbn [studentId display buttons]. split; [reflexivity|]. split; [reflexivity|].
    split; [now rewrite length_alter, length_fmap|].
    intros k old Hk.
    exists ((if decide (k = j) then map_class (classList_add "active") else fun x => x)
              (if is_status_btn old then map_class (classList_remove "active") old else old)).
    split; [|apply reselect_button].
    destruct (decide (k = j)) as [->|N].
    + rewrite list_lookup_alter_eq, list_lookup_fmap, Hk. reflexivity.
    + rewrite list_lookup_alter_ne by congruence. rewrite list_lookup_fmap, Hk. reflexivity.
  - intros i' Hne. now rewrite list_lookup_insert_ne by congruence.
  - apply length_insert.
  - destruct (updateSummary_tallies (updateMarkedCount
       (set_rows (<[i := {| studentId := studentId row; display := status b;
                            buttons := alter (map_class (classList_add "active")) j
                              ((fun btn => if is_status_btn btn
                                           then map_class (classList_remove "active") btn
                                           else btn) <$> buttons row) |}]> (rows p)) p)))
      as (_ & _ & _ & _ & _ & _ & Hr & _).
    cbn [requests post]. rewrite Hr. reflexivity.
  - destruct (updateSummary_tallies (updateMarkedCount
       (set_rows (<[i := {| studentId := studentId row; display := status b;
                            buttons := alter (map_class (classList_add "active")) j
                              ((fun btn => if is_status_btn btn
                                           then map_class (classList_remove "active") btn
                                           else btn) <$> buttons row) |}]> (rows p)) p)))
      as (_ & _ & _ & _ & _ & _ & _ & Ht & _).
    cbn [toasts post]. rewrite Ht. reflexivity.
  - apply tallied_post, tallied_after.
Qed.

Lemma click_selects_one_witness :
  requests (click 0 1 Register.two_pupils) =
    (requests Register.two_pupils ++ [("1", "Late")])%list /\
  tallied (click 0 1 Register.two_pupils).
Proof.
  destruct (click_selects_one 0 1 Register.two_pupils
              (Register.pupil "1" "Not Marked" "status-btn btn-present")
              (Register.status_button "Late" "status-btn btn-late") eq_refl eq_refl eq_refl)
    as (_ & _ & _ & Hreq & _ & Ht).
  split; [exact Hreq | exact Ht].
Defined.

(** *** Saving *)

Lemma logAttendance_fulfils silent fetched :
  exists saved, fst (logAttendance silent fetched) = Fulfilled saved.
Proof.
  destruct fetched as [|[|] [[|m e]|]], silent; cbn; eexists; reflexivity.
Qed.

(** X27. The promise of logAttendance is always fulfilled, never rejected: with
    true exactly when an ok response with a parsed body came back (a null body
    counts only for a silent call), with false otherwise; a silent call shows no
    toast and a call that is not silent shows exactly one. *)
Theorem logAttendance_never_rejects silent fetched :
  exists saved, fst (logAttendance silent fetched) = Fulfilled saved /\
    (saved = true <->
       exists body, fetched = Response true (Some body) /\
                    (body = JNull -> silent = true)) /\
    length (snd (logAttendance silent fetched)) = (if silent then 0 else 1)%nat.
Proof.
  destruct fetched as [|[|] [[|m e]|]], silent; cbn; eexists; (split; [reflexivity|]);
    (split; [|reflexivity]); split; try discriminate; try reflexivity.
  all: try (intros (body & H & Hs); try discriminate H;
            injection H as <-; specialize (Hs eq_refl); discriminate Hs).
  all: try (intros _; eexists; split; [reflexivity|]; intros H; try discriminate H; reflexivity).
Qed.

Lemma fold_post (rs : list Row) p :
  let q := fold_left (fun q r => post (studentId r) (display r) q) rs p in
  requests q = (requests p ++ ((fun r => (studentId r, display r)) <$> rs))%list /\
  rows q = rows p /\ toasts q = toasts p /\
  save_disabled q = save_disabled p /\ save_text q = save_text p.
Proof.
  cbv zeta. revert p. induction rs as [|r rs IH]; intros p; cbn [fold_left].
  - cbn. now rewrite app_nil_r.
  - destruct (IH (post (studentId r) (display r) p)) as (H1 & H2 & H3 & H4 & H5).
    rewrite H1, H2, H3, H4, H5. cbn [requests rows toasts save_disabled save_text post fmap list_fmap].
    rewrite <- app_assoc. repeat split; reflexivity.
Qed.

Lemma fold_toast (ts : list (option string * string)) p :
  let q := fold_left (fun q t => showToast (fst t) (snd t) q) ts p in
  toasts q = (toasts p ++ ts)%list /\
  rows q = rows p /\ requests q = requests p /\
  save_disabled q = save_disabled p /\ save_text q = save_text p.
Proof.
  cbv zeta. revert p. induction ts as [|[m t] ts IH]; intros p; cbn [fold_left fst snd].
  - cbn. now rewrite app_nil_r.
  - destruct (IH (showToast m t p)) as (H1 & H2 & H3 & H4 & H5).
    rewrite H1, H2, H3, H4, H5. cbn [requests rows toasts save_disabled save_text showToast fst snd].
    rewrite <- app_assoc. repeat split; reflexivity.
Qed.

Lemma all_settled (answers : list Fetched) :
  forallb (fun r : Settled bool * list (option string * string) =>
             match fst r with Rejected _ => false | Fulfilled _ => true end)
          (logAttendance false <$> answers) = true.
Proof.
  induction answers as [|a answers IH]; [reflexivity|].
  cbn [fmap list_fmap forallb]. fold (fmap (M := list) (logAttendance false)).
  destruct (logAttendance_fulfils false a) as (b & ->). exact IH.
Qed.

(** X28. saveAllAttendance posts one request per row whose display is not 'Not
    Marked', in row order; once all of them have settled it re-enables the
    button and its last toast is 'Attendance saved successfully!' whatever the
    requests came back with; while a request is still pending the button stays
    disabled and reads 'Saving...'. *)
Theorem save_always_reports_success answers p :
  let n := length (marked_rows p) in
  let p' := saveAllAttendance answers p in
  requests p' =
    (requests p ++ ((fun r => (studentId r, display r)) <$> marked_rows p))%list /\
  rows p' = rows p /\
  ((n <= length answers)%nat ->
     save_disabled p' = false /\ save_text p' = "Save Attendance" /\
     toasts p' = (toasts p ++ request_toasts n answers ++
                  [(Some "Attendance saved successfully!", "success")])%list) /\
  ((length answers < n)%nat ->
     save_disabled p' = true /\ save_text p' = "Saving..." /\
     toasts p' = (toasts p ++ request_toasts n answers)%list).
Proof.
  cbv zeta. unfold saveAllAttendance, request_toasts. fold (marked_rows p).
  set (n := length (marked_rows p)).
  set (sent := fold_left (fun q r => post (studentId r) (display r) q) (marked_rows p)
                 (set_save true "Saving..." p)).
  destruct (fold_post (marked_rows p) (set_save true "Saving..." p))
    as (Hreq & Hrows & Htoasts & Hdis & Htext).
  fold sent in Hreq, Hrows, Htoasts, Hdis, Htext.
  set (ts := concat (snd <$> (logAttendance false <$> take n answers))).
  assert (Ets : ts = concat ((fun a => snd (logAttendance false a)) <$> take n answers)).
  { unfold ts. now rewrite <- list_fmap_compose. }
  destruct (fold_toast ts sent) as (Gt & Grows & Greq & Gdis & Gtext).
  set (shown := fold_left (fun q t => showToast (fst t) (snd t) q) ts sent) in *.
  rewrite all_settled.
  destruct (Nat.leb_spec n (length answers)) as [Hle|Hlt].
  - cbn [requests rows toasts save_disabled save_text showToast set_save].
    rewrite Greq, Hreq, Grows, Hrows, Gt, Htoasts, <- Ets.
    cbn [requests rows toasts set_save].
    split; [reflexivity|]. split; [reflexivity|]. split; [|lia].
    intros _. rewrite <- app_assoc. repeat split; reflexivity.
  - rewrite Greq, Hreq, Grows, Hrows, Gt, Htoasts, Gdis, Hdis, Gtext, Htext, <- Ets.
    cbn [requests rows toasts set_save save_disabled save_text].
    split; [reflexivity|]. split; [reflexivity|]. split; [lia|].
    intros _. repeat split; reflexivity.
Qed.

Lemma save_always_reports_success_witness :
  toasts (saveAllAttendance [NetworkError] Register.two_pupils) =
  [(Some "Network error while saving attendance", "error");
   (Some "Attendance saved successfully!", "success")].
Proof.
  exact (proj2 (proj2 (proj1 (proj2 (proj2 (save_always_reports_success [NetworkError]
                                              Register.two_pupils))) (le_n 1)))).
Defined.

(** *** Marking all present *)

Lemma find_index_Some {A} (f : A -> bool) l j :
  find_index f l = Some j -> exists x, l !! j = Some x /\ f x = true.
Proof.
  revert j. induction l as [|x l IH]; intros j; cbn [find_index]; [discriminate|].
  destruct (f x) eqn:E.
  - intros [= <-]. eauto.
  - destruct (find_index f l) as [k|]; [|discriminate]. cbn. intros [= <-].
    destruct (IH k eq_refl) as (y & Hy & Hf). eauto.
Qed.

Lemma find_index_pointwise {A} (f : A -> bool) (l l' : list A) :
  length l = length l' ->
  (forall k x x', l !! k = Some x -> l' !! k = Some x' -> f x' = f x) ->
  find_index f l' = find_index f l.
Proof.
  revert l'. induction l as [|x l IH]; intros [|x' l'] Hlen H; try discriminate Hlen.
  - reflexivity.
  - cbn [find_index]. rewrite (H 0%nat x x' eq_refl eq_refl).
    rewrite (IH l'); [reflexivity | now injection Hlen |].
    intros k y y' Hy Hy'. exact (H (S k) y y' Hy Hy').
Qed.

Lemma clicked_lookup j s row k :
  buttons (clicked j s row) !! k =
  (fun old => (if decide (k = j) then map_class (classList_add "active") else fun x => x)
                (if is_status_btn old then map_class (classList_remove "active") old else old))
    <$> buttons row !! k.
Proof.
  unfold clicked. cbn [buttons].
  destruct (decide (k = j)) as [->|N].
  - rewrite list_lookup_alter_eq, list_lookup_fmap. now destruct (buttons row !! j).
  - rewrite list_lookup_alter_ne by congruence. rewrite list_lookup_fmap.
    now destruct (buttons row !! k).
Qed.

Lemma clicked_length j s row : length (buttons (clicked j s row)) = length (buttons row).
Proof. unfold clicked. cbn [buttons]. now rewrite length_alter, length_fmap. Qed.

Lemma presentBtn_clicked j s row b :
  presentBtn row = Some (j, b) -> is_status_btn b = true ->
  exists b', presentBtn (clicked j s row) = Some (j, b') /\ status b' = status b /\
             is_status_btn b' = true /\ is_active b' = true.
Proof.
  unfold presentBtn. intros Hp Hs.
  destruct (find_index is_btn_present (buttons row)) as [j0|] eqn:Hf; [|discriminate].
  destruct (buttons row !! j0) as [b0|] eqn:Hb; [|discriminate].
  cbn in Hp. injection Hp as -> ->.
  rewrite (find_index_pointwise is_btn_present (buttons row) (buttons (clicked j s row))).
  - rewrite Hf, clicked_lookup, Hb. cbn [fmap option_fmap option_map].
    eexists. split; [reflexivity|].
    pose proof (reselect_button j j b) as (H1 & H2 & _ & H4 & _).
    split; [exact H1|]. split; [congruence|]. now apply H4.
  - symmetry. apply clicked_length.
  - intros k x x' Hx Hx'. rewrite clicked_lookup, Hx in Hx'. cbn in Hx'. injection Hx' as <-.
    now pose proof (reselect_button j k x) as (_ & _ & H3 & _).
Qed.

(** What [markAllPresent] makes of a row. *)
Lemma mark_present_step p i row j b :
  rows p !! i = Some row -> presentBtn row = Some (j, b) -> is_status_btn b = true ->
  exists q, mark_present (Some p) i = Some q /\
    rows q = <[i := if is_active b then row else clicked j (status b) row]> (rows p) /\
    requests q = (requests p ++ press_request row)%list /\ toasts q = toasts p.
Proof.
  intros Hi Hp Hs. unfold mark_present. rewrite Hi.
  unfold press_request. rewrite Hp.
  unfold presentBtn in Hp.
  destruct (find_index is_btn_present (buttons row)) as [j0|] eqn:Hf; [|discriminate].
  destruct (buttons row !! j0) as [b0|] eqn:Hb; [|discriminate].
  cbn in Hp. injection Hp as -> ->.
  destruct (is_active b) eqn:Ha.
  - exists p. split; [reflexivity|]. rewrite list_insert_id by assumption.
    rewrite app_nil_r. repeat split.
  - eexists. split; [reflexivity|].
    rewrite (click_eq i j p row b Hi Hb Hs).
    rewrite rows_post, rows_counted. cbn [rows set_rows].
    split; [reflexivity|].
    match goal with |- context [updateSummary ?x] =>
      destruct (updateSummary_tallies x) as (_ & _ & _ & _ & _ & _ & Hr & Ht & _) end.
    cbn [requests toasts post]. rewrite Hr, Ht. split; reflexivity.
Qed.

Lemma pressed_has_present row j b :
  presentBtn row = Some (j, b) -> is_status_btn b = true ->
  exists b', presentBtn (pressed row) = Some (j, b') /\ status b' = status b /\
             is_status_btn b' = true /\ is_active b' = true.
Proof.
  intros Hp Hs. unfold pressed. rewrite Hp.
  destruct (is_active b) eqn:Ha.
  - exists b. repeat split; assumption.
  - now apply presentBtn_clicked.
Qed.

Lemma rows_have_present_insert rs i row j b :
  rows_have_present rs -> rs !! i = Some row -> presentBtn row = Some (j, b) ->
  rows_have_present (<[i := pressed row]> rs).
Proof.
  intros H Hi Hp i' row' Hl.
  destruct (decide (i' = i)) as [->|N].
  - rewrite list_lookup_insert_eq in Hl by (now apply lookup_lt_Some in Hi).
    injection Hl as <-.
    destruct (H i row Hi) as (j0 & b0 & Hp0 & Hs0).
    destruct (pressed_has_present row j0 b0 Hp0 Hs0) as (b' & Hb' & _ & Hs' & _). eauto.
  - rewrite list_lookup_insert_ne in Hl by congruence. exact (H i' row' Hl).
Qed.

Lemma fold_mark m : forall k p,
  rows_have_present (rows p) ->
  exists q, fold_left mark_present (seq k m) (Some p) = Some q /\
    (forall i, rows q !! i =
       (if decide (k <= i < k + m)%nat then pressed else fun r => r) <$> rows p !! i) /\
    requests q = (requests p ++ concat (press_request <$> firstn m (skipn k (rows p))))%list /\
    toasts q = toasts p.
Proof.
  induction m as [|m IH]; intros k p Hrows.
  - exists p. cbn [seq fold_left firstn fmap list_fmap concat]. split; [reflexivity|].
    split; [|now rewrite app_nil_r].
    intros i. destruct (decide _) as [H|H]; [lia|]. now destruct (rows p !! i).
  - cbn [seq fold_left].
    destruct (rows p !! k) as [row|] eqn:Hk.
    + destruct (Hrows k row Hk) as (j & b & Hp & Hs).
      destruct (mark_present_step p k row j b Hk Hp Hs) as (p1 & -> & Hr1 & Hq1 & Ht1).
      assert (Hpr : (if is_active b then row else clicked j (status b) row) = pressed row).
      { unfold pressed. now rewrite Hp. }
      rewrite Hpr in Hr1.
      destruct (IH (S k) p1) as (q & Hq & Hrq & Hreq & Htq).
      { rewrite Hr1. exact (rows_have_present_insert _ k row j b Hrows Hk Hp). }
      exists q. split; [exact Hq|]. split; [|split].
      * intros i. rewrite Hrq, Hr1.
        destruct (decide (i = k)) as [->|N].
        -- rewrite list_lookup_insert_eq by (now apply lookup_lt_Some in Hk). rewrite Hk.
           destruct (decide (S k <= k < S k + m)%nat); [lia|].
           destruct (decide (k <= k < k + S m)%nat); [reflexivity | lia].
        -- rewrite list_lookup_insert_ne by congruence.
           destruct (decide (S k <= i < S k + m)%nat);
             destruct (decide (k <= i < k + S m)%nat); try lia; reflexivity.
      * rewrite Hreq, Hq1, Hr1, <- app_assoc. f_equal.
        rewrite (drop_S _ _ _ Hk). cbn [firstn fmap list_fmap concat].
        rewrite drop_insert_lt by lia. reflexivity.
      * congruence.
    + assert (Hstep : mark_present (Some p) k = Some p).
      { unfold mark_present. now rewrite Hk. }
      rewrite Hstep.
      destruct (IH (S k) p Hrows) as (q & Hq & Hrq & Hreq & Htq).
      exists q. split; [exact Hq|]. split; [|split; [|exact Htq]].
      * intros i. rewrite Hrq.
        destruct (decide (S k <= i < S k + m)%nat);
          destruct (decide (k <= i < k + S m)%nat); try lia; try reflexivity.
        assert (i = k) as -> by lia. now rewrite Hk.
      * rewrite Hreq. apply lookup_ge_None in Hk.
        rewrite !drop_ge by lia. now rewrite !take_nil.
Qed.

Lemma markAllPresent_eq p :
  rows_have_present (rows p) ->
  exists q, markAllPresent p =
              Some (showToast (Some "All students marked as present") "success" q) /\
    rows q = pressed <$> rows p /\
    requests q = (requests p ++ concat (press_request <$> rows p))%list /\
    toasts q = toasts p.
Proof.
  intros Hrows. unfold markAllPresent.
  destruct (fold_mark (length (rows p)) 0 p Hrows) as (q & -> & Hr & Hreq & Ht).
  exists q. split; [reflexivity|]. split; [|split; [|exact Ht]].
  - apply list_eq. intros i. rewrite Hr, list_lookup_fmap.
    destruct (decide (0 <= i < 0 + length (rows p))%nat) as [H|H]; [reflexivity|].
    rewrite (proj2 (lookup_ge_None (rows p) i)) by lia. reflexivity.
  - rewrite Hreq, drop_0, firstn_all. reflexivity.
Qed.

Lemma pressed_again row j b :
  presentBtn row = Some (j, b) -> is_status_btn b = true ->
  pressed (pressed row) = pressed row /\ press_request (pressed row) = [].
Proof.
  intros Hp Hs. destruct (pressed_has_present row j b Hp Hs) as (b' & Hb' & _ & _ & Ha').
  unfold pressed at 1, press_request. now rewrite Hb', Ha'.
Qed.

Lemma rows_have_present_pressed rs :
  rows_have_present rs -> rows_have_present (pressed <$> rs).
Proof.
  intros H i row' Hl. rewrite list_lookup_fmap in Hl.
  destruct (rs !! i) as [row|] eqn:Hi; [|discriminate]. cbn in Hl. injection Hl as <-.
  destruct (H i row Hi) as (j & b & Hp & Hs).
  destruct (pressed_has_present row j b Hp Hs) as (b' & Hb' & _ & Hs' & _). eauto.
Qed.

(** X29. When every row has a .btn-present that is a status button,
    markAllPresent returns, leaves that button active in every row, leaves rows
    where it was active already untouched and sets the display of the others to
    its status, posts one request for each row it pressed and none for the
    others, and shows one toast; run again it changes no row and posts nothing. *)
Theorem markAllPresent_presses_the_rest p :
  rows_have_present (rows p) ->
  exists p', markAllPresent p = Some p' /\
    length (rows p') = length (rows p) /\
    (forall i row j b, rows p !! i = Some row -> presentBtn row = Some (j, b) ->
       exists row' b', rows p' !! i = Some row' /\ presentBtn row' = Some (j, b') /\
         is_active b' = true /\ status b' = status b /\
         studentId row' = studentId row /\
         (is_active b = true -> row' = row) /\
         (is_active b = false -> display row' = status b)) /\
    requests p' = (requests p ++ concat (press_request <$> rows p))%list /\
    toasts p' = (toasts p ++ [(Some "All students marked as present", "success")])%list /\
    (exists p'', markAllPresent p' = Some p'' /\ rows p'' = rows p' /\
                 requests p'' = requests p').
Proof.
  intros Hrows.
  destruct (markAllPresent_eq p Hrows) as (q & Hq & Hr & Hreq & Ht).
  eexists. split; [exact Hq|]. cbn [rows requests toasts showToast].
  split; [now rewrite Hr, length_fmap|]. split; [|split; [exact Hreq|split; [now rewrite Ht|]]].
  - intros i row j b Hi Hp.
    destruct (Hrows i row Hi) as (j0 & b0 & Hp0 & Hs). rewrite Hp in Hp0.
    injection Hp0 as <- <-.
    destruct (pressed_has_present row j b Hp Hs) as (b' & Hb' & Hst & _ & Ha').
    exists (pressed row), b'. rewrite Hr, list_lookup_fmap, Hi.
    split; [reflexivity|]. split; [exact Hb'|]. split; [exact Ha'|]. split; [exact Hst|].
    unfold pressed. rewrite Hp. destruct (is_active b); repeat split; try discriminate;
      reflexivity.
  - destruct (markAllPresent_eq (showToast (Some "All students marked as present") "success" q))
      as (q2 & Hq2 & Hr2 & Hreq2 & _).
    { cbn [rows showToast]. rewrite Hr. now apply rows_have_present_pressed. }
    eexists. split; [exact Hq2|]. cbn [rows requests showToast] in *.
    rewrite Hr2, Hreq2, Hr. split.
    + rewrite <- list_fmap_compose. apply list_fmap_ext. intros i row Hi. cbn.
      destruct (Hrows i row Hi) as (j & b & Hp & Hs).
      now destruct (pressed_again row j b Hp Hs).
    + rewrite <- app_nil_r. f_equal.
      rewrite <- list_fmap_compose.
      assert (H : forall rs, rows_have_present rs ->
                concat ((press_request ∘ pressed) <$> rs) = []).
      { clear. induction rs as [|row rs IH]; intros Hrs; [reflexivity|].
        cbn [fmap list_fmap concat]. destruct (Hrs 0%nat row eq_refl) as (j & b & Hp & Hs).
        cbn. rewrite (proj2 (pressed_again row j b Hp Hs)). cbn [app].
        apply IH. intros i r Hi. exact (Hrs (S i) r Hi). }
      now apply H.
Qed.

Lemma markAllPresent_presses_the_rest_witness :
  exists p', markAllPresent Register.two_pupils = Some p' /\
    requests p' = (requests Register.two_pupils ++ [("1", "Present")])%list.
Proof.
  destruct (markAllPresent_presses_the_rest Register.two_pupils)
    as (p' & Hp & _ & _ & Hreq & _).
  - intros [|[|i]] row H; try discriminate H; injection H as <-;
      eexists _, _; split; reflexivity.
  - exists p'. split; [exact Hp | exact Hreq].
Defined.

Lemma clicked_again j s row b :
  buttons row !! j = Some b -> is_status_btn b = true ->
  clicked j s (clicked j s row) = clicked j s row.
Proof.
  intros Hj Hs. unfold clicked at 1 3. cbn [studentId display buttons]. f_equal.
  apply list_eq. intros k.
  change (alter (map_class (classList_add "active")) j
            ((fun btn => if is_status_btn btn
                         then map_class (classList_remove "active") btn else btn)
               <$> buttons (clicked j s row)))
    with (buttons (clicked j s (clicked j s row))).
  change (alter (map_class (classList_add "active")) j
            ((fun btn => if is_status_btn btn
                         then map_class (classList_remove "active") btn else btn)
               <$> buttons row))
    with (buttons (clicked j s row)).
  rewrite (clicked_lookup j s (clicked j s row) k), (clicked_lookup j s row k).
  destruct (buttons row !! k) as [old|] eqn:Hk; [|reflexivity].
  cbn [fmap option_fmap option_map]. f_equal.
  destruct (decide (k = j)) as [->|N].
  - rewrite Hj in Hk. injection Hk as <-. rewrite Hs.
    assert (Hs' : is_status_btn (map_class (classList_add "active")
                    (map_class (classList_remove "active") b)) = true).
    { unfold is_status_btn in *. cbn [map_class className].
      rewrite contains_add, contains_remove by reflexivity. now rewrite Hs. }
    rewrite Hs'. unfold map_class. cbn [status className]. f_equal.
    now rewrite remove_add_remove.
  - destruct (is_status_btn old) eqn:Ho.
    + assert (Hs' : is_status_btn (map_class (classList_remove "active") old) = true).
      { unfold is_status_btn in *. cbn [map_class className].
        rewrite contains_remove. now rewrite Ho. }
      rewrite Hs'. unfold map_class. cbn [status className]. f_equal.
      apply remove_fixpoint.
    + now rewrite Ho.
Qed.

(** X26. A second click on the same status button leaves the rows and all
    counters as the first click left them and posts the same request a second
    time. *)
Theorem click_again_only_reposts i j p row b :
  rows p !! i = Some row -> buttons row !! j = Some b -> is_status_btn b = true ->
  let p1 := click i j p in
  let p2 := click i j p1 in
  rows p2 = rows p1 /\
  marked_count p2 = marked_count p1 /\
  summary_present p2 = summary_present p1 /\ summary_late p2 = summary_late p1 /\
  summary_absent p2 = summary_absent p1 /\ summary_unmarked p2 = summary_unmarked p1 /\
  requests p2 = (requests p ++ [(studentId row, status b); (studentId row, status b)])%list.
Proof.
  intros Hi Hj Hs. cbv zeta.
  assert (Hlt : (i < length (rows p))%nat) by now apply lookup_lt_Some in Hi.
  pose proof (click_eq i j p row b Hi Hj Hs) as E1. fold (clicked j (status b) row) in E1.
  assert (Hr1 : rows (click i j p) = <[i := clicked j (status b) row]> (rows p)).
  { rewrite E1, rows_post, rows_counted. reflexivity. }
  assert (Hi1 : rows (click i j p) !! i = Some (clicked j (status b) row)).
  { rewrite Hr1. now apply list_lookup_insert_eq. }
  destruct (buttons (clicked j (status b) row) !! j) as [b1|] eqn:Hj1.
  2:{ rewrite clicked_lookup, Hj in Hj1. discriminate Hj1. }
  assert (Hb1 : status b1 = status b /\ is_status_btn b1 = true).
  { rewrite clicked_lookup, Hj in Hj1. cbn in Hj1. injection Hj1 as <-.
    pose proof (reselect_button j j b) as (H1 & H2 & _). split; [exact H1 | congruence]. }
  destruct Hb1 as [Hst1 Hs1].
  pose proof (click_eq i j (click i j p) _ b1 Hi1 Hj1 Hs1) as E2.
  fold (clicked j (status b1) (clicked j (status b) row)) in E2.
  assert (Hr2 : rows (click i j (click i j p)) = rows (click i j p)).
  { rewrite E2, rows_post, rows_counted. cbn [rows set_rows].
    rewrite Hst1, (clicked_again j (status b) row b Hj Hs), Hr1.
    apply list_insert_insert_eq. }
  split; [exact Hr2|].
  assert (Ht1 : tallied (click i j p)).
  { rewrite E1. apply tallied_post, tallied_after. }
  assert (Ht2 : tallied (click i j (click i j p))).
  { rewrite E2. apply tallied_post, tallied_after. }
  destruct Ht1 as (A1 & A2 & A3 & A4 & A5). destruct Ht2 as (B1 & B2 & B3 & B4 & B5).
  rewrite B1, B2, B3, B4, B5, A1, A2, A3, A4, A5, Hr2.
  repeat (split; [reflexivity|]).
  rewrite E2. cbn [requests post].
  match goal with |- context [updateSummary ?x] =>
    destruct (updateSummary_tallies x) as (_ & _ & _ & _ & _ & _ & Hq & _) end.
  rewrite Hq. cbn [requests updateMarkedCount set_rows].
  rewrite E1. cbn [requests post].
  match goal with |- context [updateSummary ?x] =>
    destruct (updateSummary_tallies x) as (_ & _ & _ & _ & _ & _ & Hq' & _) end.
  rewrite Hq'. cbn [requests updateMarkedCount set_rows studentId clicked].
  rewrite Hst1, <- app_assoc. reflexivity.
Qed.

Lemma click_again_only_reposts_witness :
  rows (click 0 1 (click 0 1 Register.two_pupils)) = rows (click 0 1 Register.two_pupils).
Proof.
  exact (proj1 (click_again_only_reposts 0 1 Register.two_pupils
                  (Register.pupil "1" "Not Marked" "status-btn btn-present")
                  (Register.status_button "Late" "status-btn btn-late")
                  eq_refl eq_refl eq_refl)).
Defined.
